(** * clean_media: subtitle renaming and library pruning

    A shallow embedding of [src/clean_media/clean_media.py].

    The program is a sequence of passes over a directory tree.  Every pass
    talks to the operating system through [pathlib] and [os]: [glob],
    [rename], [replace], [unlink], [exists], [stat], [os.walk], [os.rmdir].
    The file system is modelled as a tree of nodes, the passes as programs
    in a state-and-exception monad over that tree and the log. *)

From Stdlib Require Import List String Ascii ZArith Lia Bool Arith.
Import ListNotations.

Set Warnings "-register-all".
Local Open Scope string_scope.
Local Open Scope list_scope.

(* ================================================================== *)
(** ** Strings: [str.replace] and suffix matching *)
(* ================================================================== *)

Module Str.

(** [s.endswith(sfx)].  The glob patterns of the program all have the
    shape [*<literal>], which [fnmatch] matches against a name exactly
    when the name ends with the literal. *)
Fixpoint endswith (s sfx : string) : bool :=
  String.eqb s sfx ||
  match s with
  | EmptyString => false
  | String _ s' => endswith s' sfx
  end.

(** The scan of [str.replace]: left to right, non-overlapping.  [skip]
    counts the characters of the occurrence just replaced that are still
    to be dropped. *)
Fixpoint replace_from (old new : string) (skip : nat) (s : string) : string :=
  match s with
  | EmptyString => EmptyString
  | String c s' =>
      match skip with
      | S k => replace_from old new k s'
      | O =>
          if String.prefix old s
          then (new ++ replace_from old new (String.length old - 1) s')%string
          else String c (replace_from old new 0 s')
      end
  end.

(** Python inserts [new] around every character for an empty [old]. *)
Fixpoint interleave (new s : string) : string :=
  match s with
  | EmptyString => new
  | String c s' => (new ++ String c (interleave new s'))%string
  end.

(** [s.replace(old, new)]. *)
Definition replace (s old new : string) : string :=
  match old with
  | EmptyString => interleave new s
  | _ => replace_from old new 0 s
  end.

(** Number of occurrences the scan of [replace_from] replaces. *)
Fixpoint count_from (old : string) (skip : nat) (s : string) : nat :=
  match s with
  | EmptyString => 0
  | String c s' =>
      match skip with
      | S k => count_from old k s'
      | O =>
          if String.prefix old s
          then S (count_from old (String.length old - 1) s')
          else count_from old 0 s'
      end
  end.

(** No [/] in a component of a path, nor in a marker. *)
Fixpoint no_slash (s : string) : bool :=
  match s with
  | EmptyString => true
  | String a s' => negb (Ascii.eqb a "/") && no_slash s'
  end.

End Str.

(* ================================================================== *)
(** ** The file system *)
(* ================================================================== *)

(** A [pathlib.Path] is the list of its components below [/].  The
    program only handles absolute paths: the content directories are
    absolute and every other path is produced from them by [glob],
    [os.walk] or a replacement inside a component. *)
Definition path := list string.

(** A regular file has a size ([st_size]) and contents; a directory has
    its entries, in the order [scandir] lists them, and one permission
    bit: whether entries may be added to or removed from it. *)
Inductive node : Type :=
| File (st_size : Z) (data : string)
| Dir (writable : bool) (entries : list (string * node)).

(** What [stat] reports as the size of a directory. *)
Definition dir_st_size : Z := 4096.

(** The [errno] values of the [OSError]s that the modelled calls raise. *)
Inductive errno : Type :=
| ENOENT | EACCES | EISDIR | ENOTDIR | ENOTEMPTY | EINVAL | EBUSY.

Inductive result (A : Type) : Type :=
| Ok (a : A)
| Err (e : errno).
Arguments Ok {A} a.
Arguments Err {A} e.

Module FS.

Definition entries_of (n : node) : list (string * node) :=
  match n with Dir _ es => es | File _ _ => [] end.

Fixpoint assoc (c : string) (es : list (string * node)) : option node :=
  match es with
  | [] => None
  | (k, v) :: es' => if String.eqb k c then Some v else assoc c es'
  end.

Fixpoint del (c : string) (es : list (string * node)) : list (string * node) :=
  match es with
  | [] => []
  | (k, v) :: es' => if String.eqb k c then del c es' else (k, v) :: del c es'
  end.

(** Bind name [c] to [o] in a directory listing: in place when the name
    is there, at the end when it is new; [None] removes it. *)
Fixpoint set_entry (c : string) (o : option node) (es : list (string * node))
  : list (string * node) :=
  match es with
  | [] => match o with Some m => [(c, m)] | None => [] end
  | (k, v) :: es' =>
      if String.eqb k c
      then match o with Some m => (c, m) :: del c es' | None => del c es' end
      else (k, v) :: set_entry c o es'
  end.

Definition dir_set (c : string) (o : option node) (d : node) : node :=
  match d with
  | Dir w es => Dir w (set_entry c o es)
  | File _ _ => d
  end.

(** Resolve a path from the root. *)
Fixpoint lookup (p : path) (n : node) : option node :=
  match p with
  | [] => Some n
  | c :: p' =>
      match n with
      | Dir _ es =>
          match assoc c es with
          | Some m => lookup p' m
          | None => None
          end
      | File _ _ => None
      end
  end.

(** Apply [f] to the node at [p]; nothing changes when [p] does not
    resolve. *)
Fixpoint modify (p : path) (f : node -> node) (n : node) : node :=
  match p with
  | [] => f n
  | c :: p' =>
      match n with
      | Dir w es =>
          match assoc c es with
          | Some m => Dir w (set_entry c (Some (modify p' f m)) es)
          | None => n
          end
      | File _ _ => n
      end
  end.

Definition dirname (p : path) : path := removelast p.
Definition basename (p : path) : string := last p "".

(** Bind (or with [None] remove) the last component of [p] in its
    parent directory. *)
Definition put (p : path) (o : option node) (fs : node) : node :=
  modify (dirname p) (dir_set (basename p) o) fs.

Definition dir_writable (d : path) (fs : node) : bool :=
  match lookup d fs with
  | Some (Dir w _) => w
  | _ => false
  end.

Fixpoint is_prefix (p q : path) : bool :=
  match p, q with
  | [], _ => true
  | c :: p', d :: q' => String.eqb c d && is_prefix p' q'
  | _ :: _, [] => false
  end.

Definition path_eqb (p q : path) : bool :=
  is_prefix p q && is_prefix q p.

Definition is_root (p : path) : bool :=
  match p with [] => true | _ => false end.

(** [Path.exists()]. *)
Definition path_exists (p : path) (fs : node) : bool :=
  match lookup p fs with Some _ => true | None => false end.

(** [Path.stat().st_size]. *)
Definition stat_size (p : path) (fs : node) : result Z :=
  match lookup p fs with
  | Some (File sz _) => Ok sz
  | Some (Dir _ _) => Ok dir_st_size
  | None => Err ENOENT
  end.

(** [Path.unlink()]: unlink(2). *)
Definition os_unlink (p : path) (fs : node) : result node :=
  match lookup p fs with
  | None => Err ENOENT
  | Some n =>
      if negb (dir_writable (dirname p) fs) then Err EACCES
      else match n with
           | Dir _ _ => Err EISDIR
           | File _ _ => Ok (put p None fs)
           end
  end.

(** [os.rmdir]: rmdir(2). *)
Definition os_rmdir (p : path) (fs : node) : result node :=
  match lookup p fs with
  | None => Err ENOENT
  | Some (File _ _) => Err ENOTDIR
  | Some (Dir _ es) =>
      if is_root p then Err EBUSY
      else if negb (dir_writable (dirname p) fs) then Err EACCES
      else match es with
           | [] => Ok (put p None fs)
           | _ :: _ => Err ENOTEMPTY
           end
  end.

(** [Path.rename(dst)] and [Path.replace(dst)]: on POSIX both are
    rename(2), which replaces an existing destination. *)
Definition os_rename (src dst : path) (fs : node) : result node :=
  match lookup src fs with
  | None => Err ENOENT
  | Some s =>
      if is_root src || is_root dst then Err EBUSY
      else
        match lookup (dirname dst) fs with
        | None => Err ENOENT
        | Some (File _ _) => Err ENOTDIR
        | Some (Dir wd _) =>
            if negb (dir_writable (dirname src) fs) || negb wd then Err EACCES
            else if path_eqb src dst then Ok fs
            else if is_prefix src dst then Err EINVAL
            else
              match s, lookup dst fs with
              | File _ _, Some (Dir _ _) => Err EISDIR
              | Dir _ _, Some (File _ _) => Err ENOTDIR
              | Dir _ _, Some (Dir _ (_ :: _)) => Err ENOTEMPTY
              | _, _ => Ok (put dst (Some s) (put src None fs))
              end
        end
  end.

(** The directories below and including [top], each with its listing,
    parents before children: the order in which the recursive wildcard
    of [pathlib] visits them. *)
Fixpoint directories (top : path) (n : node)
  : list (path * list (string * node)) :=
  match n with
  | File _ _ => []
  | Dir _ es =>
      (top, es) :: flat_map (fun e => directories (top ++ [fst e]) (snd e)) es
  end.

(** The entries of one directory whose name ends with [sfx]. *)
Definition matching (sfx : string) (d : path * list (string * node)) : list path :=
  map (fun e => fst d ++ [fst e])
    (filter (fun e => Str.endswith (fst e) sfx) (snd d)).

(** [Path.glob("**/*<sfx>")]: every entry, file or directory, at any
    depth below [top] whose name ends with [sfx], directory by
    directory.  Python lists a directory when the generator reaches it;
    the model takes the whole listing when the loop starts. *)
Definition glob_suffix (top : path) (sfx : string) (fs : node) : list path :=
  match lookup top fs with
  | None => []
  | Some n => flat_map (matching sfx) (directories top n)
  end.

(** [os.walk(top, topdown=False)], first components of the triples:
    every directory below [top] after all of its subdirectories, [top]
    itself last. *)
Fixpoint walk_bottom_up (top : path) (n : node) : list path :=
  match n with
  | File _ _ => []
  | Dir _ es =>
      flat_map (fun e => walk_bottom_up (top ++ [fst e]) (snd e)) es ++ [top]
  end.

Definition os_walk_bottom_up (top : path) (fs : node) : list path :=
  match lookup top fs with
  | None => []
  | Some n => walk_bottom_up top n
  end.

End FS.

(* ================================================================== *)
(** ** Python numbers: [int] against [float] *)
(* ================================================================== *)

(** [orig_size * 0.4] is a double: the [int] is converted to the nearest
    double and multiplied by the double nearest to 0.4, with one rounding
    each.  [forced_size > ...] then compares an [int] with a double, which
    Python does exactly.  Doubles of the size range are written [(m, e)]
    for [m * 2^e]; sizes are never negative and far from overflow. *)
Module PyFloat.

Definition float : Type := Z * Z.

(** Round [m * 2^e] to 53 significant bits, to nearest, ties to even. *)
Definition round53 (m e : Z) : float :=
  let d := (Z.log2 m + 1 - 53)%Z in
  if (d <=? 0)%Z then (m, e)
  else
    let q := Z.shiftr m d in
    let r := Z.land m (Z.ones d) in
    let half := Z.shiftl 1 (d - 1) in
    let up := (half <? r)%Z || ((half =? r)%Z && Z.odd q) in
    ((if up then q + 1 else q)%Z, (e + d)%Z).

(** [float(n)]. *)
Definition of_int (n : Z) : float := round53 n 0.

(** The literal [0.4], that is [0x1.999999999999ap-2]. *)
Definition lit_0_4 : float := (7205759403792794%Z, (-54)%Z).

Definition mul (a b : float) : float :=
  round53 (fst a * fst b) (snd a + snd b).

(** [k > f] for an [int] [k] and a double [f]. *)
Definition int_gt (k : Z) (f : float) : bool :=
  let (m, e) := f in
  if (0 <=? e)%Z then (m * 2 ^ e <? k)%Z else (m <? k * 2 ^ (- e))%Z.

(** [forced_size > (orig_size * 0.4)]. *)
Definition gt_times_0_4 (forced_size orig_size : Z) : bool :=
  int_gt forced_size (mul (of_int orig_size) lit_0_4).

End PyFloat.

(* ================================================================== *)
(** ** Effects: the tree, the log, and [OSError] *)
(* ================================================================== *)

Inductive level : Type := DEBUG | INFO | WARNING.

Definition level_no (l : level) : nat :=
  match l with DEBUG => 10 | INFO => 20 | WARNING => 30 end.

(** A log record: the level, the format string and its arguments. *)
Record record : Type := mkRecord {
  rec_level : level;
  rec_fmt : string;
  rec_args : list string
}.

Record state : Type := mkState {
  tree : node;
  logs : list record
}.

Inductive outcome (A : Type) : Type :=
| Return (a : A) (s : state)
| Raise (e : errno) (s : state).
Arguments Return {A} a s.
Arguments Raise {A} e s.

Definition M (A : Type) : Type := state -> outcome A.

Definition ret {A} (a : A) : M A := fun s => Return a s.

Definition bind {A B} (m : M A) (k : A -> M B) : M B :=
  fun s =>
    match m s with
    | Return a s' => k a s'
    | Raise e s' => Raise e s'
    end.

Notation "x <- m ;; k" := (bind m (fun x => k))
  (at level 61, m at next level, right associativity).
Notation "m ;; k" := (bind m (fun _ => k))
  (at level 61, right associativity).

(** [try: body except OSError: handler]. *)
Definition try_except {A} (body : M A) (handler : M A) : M A :=
  fun s =>
    match body s with
    | Return a s' => Return a s'
    | Raise _ s' => handler s'
    end.

Fixpoint for_each {A} (body : A -> M unit) (l : list A) : M unit :=
  match l with
  | [] => ret tt
  | x :: l' => body x ;; for_each body l'
  end.

(** [logger.setLevel(logging.INFO)]. *)
Definition logger_level : level := INFO.

Definition logger_log (l : level) (fmt : string) (args : list string) : M unit :=
  fun s =>
    if Nat.leb (level_no logger_level) (level_no l)
    then Return tt (mkState (tree s) (logs s ++ [mkRecord l fmt args]))
    else Return tt s.

Definition logger_debug := logger_log DEBUG.
Definition logger_info := logger_log INFO.
Definition logger_warning := logger_log WARNING.

(** Run a call that changes the tree. *)
Definition sys (call : node -> result node) : M unit :=
  fun s =>
    match call (tree s) with
    | Ok fs' => Return tt (mkState fs' (logs s))
    | Err e => Raise e s
    end.

(** Run a call that only reads the tree. *)
Definition ask {A} (call : node -> result A) : M A :=
  fun s =>
    match call (tree s) with
    | Ok a => Return a s
    | Err e => Raise e s
    end.

Definition rename (src dst : path) : M unit := sys (FS.os_rename src dst).
Definition unlink (p : path) : M unit := sys (FS.os_unlink p).
Definition rmdir (p : path) : M unit := sys (FS.os_rmdir p).
Definition exists_ (p : path) : M bool := fun s => Return (FS.path_exists p (tree s)) s.
Definition stat_st_size (p : path) : M Z := ask (FS.stat_size p).
Definition glob (top : path) (sfx : string) : M (list path) :=
  fun s => Return (FS.glob_suffix top sfx (tree s)) s.
Definition os_walk (top : path) : M (list path) :=
  fun s => Return (FS.os_walk_bottom_up top (tree s)) s.

(** [str(path)]: the components, each after a [/]. *)
Fixpoint str_components (p : path) : string :=
  match p with
  | [] => ""
  | c :: p' => ("/" ++ c ++ str_components p')%string
  end.

Definition str (p : path) : string :=
  match p with
  | [] => "/"
  | _ :: _ => str_components p
  end.

(** [Path(str(p).replace(old, new))].  Neither the markers replaced by
    the program nor their replacements contain a [/], so the replacement
    acts inside the components ([PathFacts.replace_str] below). *)
Definition path_replace (p : path) (old new : string) : path :=
  map (fun c => Str.replace c old new) p.

(* ================================================================== *)
(** ** The program *)
(* ================================================================== *)

(** [CONTENT_DIRS]. *)
Definition CONTENT_DIRS : list path :=
  [ ["volume2"; "data"; "media"; "movies"];
    ["volume2"; "data"; "media"; "tv"] ].

(** The three path computations of [rename_forced_subs], each a
    [str.replace] on the path string. *)
Definition variant1_marker (lang_str : string) : string :=
  (".1." ++ lang_str ++ ".srt")%string.
Definition variant2_marker (lang_str : string) : string :=
  (".2." ++ lang_str ++ ".srt")%string.

Definition canonical_path (lang_str : string) (orig : path) : path :=
  path_replace orig (variant1_marker lang_str) ".eng.srt".
Definition sibling_path (lang_str : string) (orig : path) : path :=
  path_replace orig (variant1_marker lang_str) (variant2_marker lang_str).
Definition forced_path (lang_str : string) (forced : path) : path :=
  path_replace forced (variant2_marker lang_str) ".eng.forced.srt".

Definition msg_found1 := "Found '.1.%s.srt` subtitle file: '%s'.".
Definition msg_found2 := "Found `.2.%s.srt` subtitle file: '%s'.".
Definition msg_larger := "Seeming forced subtitle is larger than original file. Deleting.".
Definition msg_big := "'%s' might not be a forced file, it's pretty big. Skipping, check manually.".

(** The body of the inner loop of [rename_forced_subs], for one file
    that the glob yielded. *)
Definition rename_forced_subs_body (lang_str : string) (orig_subtitle_file : path)
  : M unit :=
  logger_debug msg_found1 [lang_str; str orig_subtitle_file] ;;
  let renamed := canonical_path lang_str orig_subtitle_file in
  rename orig_subtitle_file renamed ;;
  let forced_subtitles_file := sibling_path lang_str orig_subtitle_file in
  found <- exists_ forced_subtitles_file ;;
  if found : bool then
    logger_debug msg_found2 [lang_str; str forced_subtitles_file] ;;
    forced_size <- stat_st_size forced_subtitles_file ;;
    orig_size <- stat_st_size renamed ;;
    if (orig_size <=? forced_size)%Z then
      logger_info msg_larger [] ;;
      unlink forced_subtitles_file
    else if PyFloat.gt_times_0_4 forced_size orig_size then
      logger_warning msg_big [str forced_subtitles_file]
    else
      rename forced_subtitles_file (forced_path lang_str forced_subtitles_file)
  else ret tt.

(** The language tags the engine loops over. *)
Definition lang_strs : list string := ["en"; "eng"].

Definition rename_forced_subs (content_dir : path) : M unit :=
  logger_info "Renaming forced subs for content dir: '%s'." [str content_dir] ;;
  for_each
    (fun lang_str =>
       files <- glob content_dir (variant1_marker lang_str) ;;
       for_each (rename_forced_subs_body lang_str) files)
    lang_strs.

Definition msg_eng_exists :=
  "Accompanying `.eng.srt` subtitle file exists at: '%s'; deleting `.en.srt` file.".
Definition msg_eng_missing :=
  "Accompanying `.eng.srt` subtitle file does NOT exist. '%s'; renaming file.".

(** The body of the loop of [rename_en_to_eng_subs]. *)
Definition rename_en_to_eng_subs_body (en_subtitle_file : path) : M unit :=
  logger_debug "Found `.en.srt` subtitle file: '%s'." [str en_subtitle_file] ;;
  let eng_subtitle_file := path_replace en_subtitle_file ".en.srt" ".eng.srt" in
  found <- exists_ eng_subtitle_file ;;
  if found : bool then
    logger_info msg_eng_exists [str eng_subtitle_file] ;;
    unlink en_subtitle_file
  else
    logger_info msg_eng_missing [str eng_subtitle_file] ;;
    rename en_subtitle_file (path_replace en_subtitle_file ".en.srt" ".eng.srt").

Definition rename_en_to_eng_subs (content_dir : path) : M unit :=
  logger_info "Renaming en subs to eng subs for content dir: '%s'." [str content_dir] ;;
  files <- glob content_dir ".en.srt" ;;
  for_each rename_en_to_eng_subs_body files.

Definition delete_file (f : path) : M unit :=
  logger_debug "Deleting '%s'." [str f] ;;
  unlink f.

Definition delete_nfo_and_txt_files (content_dir : path) : M unit :=
  logger_info "Deleting .nfo and .txt files for content dir: '%s'." [str content_dir] ;;
  nfo_files <- glob content_dir ".nfo" ;;
  for_each delete_file nfo_files ;;
  txt_files <- glob content_dir ".txt" ;;
  for_each delete_file txt_files.

(** The [try] statement of [delete_empty_directories]. *)
Definition try_rmdir (dir_str : path) : M unit :=
  try_except
    (rmdir dir_str ;;
     logger_info "Deleted empty directory at '%s'." [str dir_str])
    (logger_debug "Not deleting non-empty directory at '%s'." [str dir_str]).

(** The loop of [delete_empty_directories], which breaks at the content
    directory. *)
Fixpoint delete_empty_directories_loop (content_dir : path) (dirs : list path)
  : M unit :=
  match dirs with
  | [] => ret tt
  | dir_str :: rest =>
      if FS.path_eqb dir_str content_dir then ret tt
      else try_rmdir dir_str ;; delete_empty_directories_loop content_dir rest
  end.

Definition delete_empty_directories (content_dir : path) : M unit :=
  logger_info "Deleting empty directories for content dir: '%s'." [str content_dir] ;;
  dirs <- os_walk content_dir ;;
  delete_empty_directories_loop content_dir dirs.

Definition main (content_dir : path) : M unit :=
  logger_info "Cleaning media for content dir: '%s'." [str content_dir] ;;
  rename_forced_subs content_dir ;;
  rename_en_to_eng_subs content_dir ;;
  delete_nfo_and_txt_files content_dir ;;
  delete_empty_directories content_dir.

(** The script: [main] for every content directory. *)
Definition script : M unit := for_each main CONTENT_DIRS.

(** A variant-1 file is discovered when the glob of the engine yields
    it. *)
Definition discovered (content_dir : path) (lang_str : string) (p : path)
  (s : state) : Prop :=
  In p (FS.glob_suffix content_dir (variant1_marker lang_str) (tree s)).

(** The two records the size test of the engine can add to the log. *)
Definition rec_larger : record := mkRecord INFO msg_larger [].
Definition rec_big (forced : path) : record :=
  mkRecord WARNING msg_big [str forced].

(** A small library for the examples: a root with one content directory
    [/m] that holds the given entries. *)
Definition library (es : list (string * node)) : node :=
  Dir true [("m", Dir true es)].

Definition pair_state (orig_size forced_size : Z) : state :=
  mkState (library [("a.1.en.srt", File orig_size "original");
                    ("a.2.en.srt", File forced_size "forced")]) [].

(** A variant-1 file alone, and one whose canonical name is taken. *)
Definition single_state : state :=
  mkState (library [("a.1.en.srt", File 1000 "original")]) [].

Definition taken_state : state :=
  mkState (library [("a.1.en.srt", File 1000 "original");
                    ("a.eng.srt", File 7 "earlier")]) [].

(** A two-letter file next to a three-letter one, and one alone. *)
Definition en_eng_state (en_size eng_size : Z) : state :=
  mkState (library [("b.en.srt", File en_size "two");
                    ("b.eng.srt", File eng_size "three")]) [].

Definition en_state : state :=
  mkState (library [("b.en.srt", File 5 "two")]) [].

(** An empty directory inside a directory that may not be written. *)
Definition read_only_state : state :=
  mkState (Dir true [("m", Dir true [("ro", Dir false [("e", Dir true [])])])]) [].

(** The state in which [main] starts its stages: one line is logged. *)
Definition main_logged (content_dir : path) (s : state) : state :=
  mkState (tree s)
    (logs s ++ [mkRecord INFO "Cleaning media for content dir: '%s'." [str content_dir]]).

(* ================================================================== *)
(** ** What the pruning pass computes *)
(* ================================================================== *)

Module Prune.

(** The tree of a real file system has no two entries of one name in a
    directory. *)
Inductive wf : node -> Prop :=
| wf_File sz data : wf (File sz data)
| wf_Dir w es :
    NoDup (map fst es) -> Forall (fun e => wf (snd e)) es -> wf (Dir w es).

(** Every directory of the tree may be written. *)
Inductive all_writable : node -> Prop :=
| aw_File sz data : all_writable (File sz data)
| aw_Dir es :
    Forall (fun e => all_writable (snd e)) es -> all_writable (Dir true es).

Definition is_empty_dir (n : node) : bool :=
  match n with Dir _ [] => true | _ => false end.

(** What is left of the entry [c] of a directory with write bit [w]
    once the entry has become [m']. *)
Definition keep_entry (w : bool) (c : string) (m' : node) : list (string * node) :=
  if w && is_empty_dir m' then [] else [(c, m')].

(** The tree without the directories that are empty, or that hold
    nothing but such directories, as far as their parents may be
    written. *)
Fixpoint prune (n : node) : node :=
  match n with
  | File _ _ => n
  | Dir w es => Dir w (flat_map (fun e => keep_entry w (fst e) (prune (snd e))) es)
  end.

(** The effect on the tree of one turn of the loop, and of the loop over
    a list of directories. *)
Definition rmdir_step (fs : node) (d : path) : node :=
  match FS.os_rmdir d fs with Ok fs' => fs' | Err _ => fs end.

Definition rmdir_pass (dirs : list path) (fs : node) : node :=
  fold_left rmdir_step dirs fs.

(** The directories that [os.walk] yields before the top directory. *)
Definition walk_below (top : path) (n : node) : list path :=
  flat_map (fun e => FS.walk_bottom_up (top ++ [fst e]) (snd e)) (FS.entries_of n).

End Prune.

(** Well-formedness of a tree that is written out. *)
Ltac wf_tac :=
  repeat first
    [ apply Prune.wf_File | apply Prune.wf_Dir
    | apply Forall_cons | apply Forall_nil
    | apply NoDup_cons | apply NoDup_nil
    | (cbn; intuition discriminate) ].

(** Three levels of empty directories next to a file. *)
Definition nested_state : state :=
  mkState (library [("keep.mkv", File 9 "film");
                    ("d1", Dir true [("d2", Dir true [("d3", Dir true [])])])]) [].

(** A content directory with nothing but empty directories in it. *)
Definition hollow_state : state :=
  mkState (library [("d1", Dir true [("d2", Dir true [])])]) [].

(** A variant-1 file whose name carries the marker three times, and a
    library that is already in canonical form. *)
Definition tripled_state : state :=
  mkState (library [("a.1.1.1.en.srt", File 1000 "original")]) [].

Definition clean_state : state :=
  mkState (library [("a.eng.srt", File 1000 "original")]) [].

(** The discovery patterns of the four stages. *)
Definition discovery_suffixes : list string :=
  [".1.en.srt"; ".1.eng.srt"; ".en.srt"; ".nfo"; ".txt"].

(** No pattern of any stage matches below the content directory. *)
Definition nothing_discovered (content_dir : path) (fs : node) : Prop :=
  forall sfx, In sfx discovery_suffixes -> FS.glob_suffix content_dir sfx fs = [].

(** No empty directory lies strictly below the content directory. *)
Definition no_empty_directory_below (content_dir : path) (fs : node) : Prop :=
  forall q w, q <> [] -> FS.lookup (content_dir ++ q) fs <> Some (Dir w []).

(* ================================================================== *)
(** ** What a run may touch *)
(* ================================================================== *)

Module Frame.

(** The state an outcome ends in, returned or raised. *)
Definition final {A} (o : outcome A) : state :=
  match o with Return _ s => s | Raise _ s => s end.

(** Two paths of which neither leads to the other. *)
Definition apart (root q : path) : Prop :=
  FS.is_prefix root q = false /\ FS.is_prefix q root = false.

(** Every path apart from [root] resolves as before. *)
Definition outside_unchanged (root : path) (fs fs' : node) : Prop :=
  forall q, apart root q -> FS.lookup q fs' = FS.lookup q fs.

(** The program [m], started in [s], ends in a state whose tree is the
    same outside [root]. *)
Definition keeps_at {A} (root : path) (m : M A) (s : state) : Prop :=
  outside_unchanged root (tree s) (tree (final (m s))).

(** The texts that the two renaming passes replace. *)
Definition markers : list string :=
  [".1.en.srt"; ".1.eng.srt"; ".2.en.srt"; ".2.eng.srt"; ".en.srt"].

(** No component of the path contains one of them. *)
Definition marker_free (p : path) : Prop :=
  forall c old, In c p -> In old markers -> Str.count_from old 0 c = 0.

End Frame.

(** Two libraries side by side; only [/m] is cleaned. *)
Definition two_libraries_state : state :=
  mkState
    (Dir true
       [("m", Dir true [("a.1.en.srt", File 1000 "original");
                        ("x.nfo", File 3 "info");
                        ("empty", Dir true [])]);
        ("other", Dir true [("b.1.en.srt", File 10 "kept");
                            ("hollow", Dir true [])])]) [].

(** A directory whose name ends like a metadata file. *)
Definition nfo_directory_state : state :=
  mkState (library [("extras.nfo", Dir true [("clip.mkv", File 9 "film")]);
                    ("notes.txt", File 1 "text")]) [].

(** The five lines that [main] logs when no stage finds anything. *)
Definition idle_records (content_dir : path) : list record :=
  [ mkRecord INFO "Cleaning media for content dir: '%s'." [str content_dir];
    mkRecord INFO "Renaming forced subs for content dir: '%s'." [str content_dir];
    mkRecord INFO "Renaming en subs to eng subs for content dir: '%s'." [str content_dir];
    mkRecord INFO "Deleting .nfo and .txt files for content dir: '%s'." [str content_dir];
    mkRecord INFO "Deleting empty directories for content dir: '%s'." [str content_dir] ].

(* ================================================================== *)
(** ** Markers that do not overlap themselves *)
(* ================================================================== *)

Module Suffix.

(** No non-empty suffix of [t] is a prefix of [old]. *)
Fixpoint tails_differ (old t : string) : bool :=
  match t with
  | EmptyString => true
  | String _ t' => negb (String.prefix t old) && tails_differ old t'
  end.

(** No proper, non-empty suffix of [old] is a prefix of [old]: two
    occurrences of [old] in a string never overlap. *)
Definition borderless (old : string) : bool :=
  match old with
  | EmptyString => true
  | String _ t => tails_differ old t
  end.

End Suffix.

(* ================================================================== *)
(** ** What the metadata pass computes *)
(* ================================================================== *)

Module Erase.

Definition is_file (n : node) : bool :=
  match n with File _ _ => true | Dir _ _ => false end.

(** Whether the metadata pass unlinks the entry: a file whose name ends
    with the suffix. *)
Definition erased (sfx : string) (e : string * node) : bool :=
  Str.endswith (fst e) sfx && is_file (snd e).

(** The tree without the files whose names end with [sfx]. *)
Fixpoint erase (sfx : string) (n : node) : node :=
  match n with
  | File _ _ => n
  | Dir w es =>
      Dir w (flat_map
               (fun e => if erased sfx e then [] else [(fst e, erase sfx (snd e))])
               es)
  end.

(** No directory of the tree has a name that ends with [sfx]. *)
Inductive files_only (sfx : string) : node -> Prop :=
| fo_File sz data : files_only sfx (File sz data)
| fo_Dir w es :
    Forall (fun e => files_only sfx (snd e)) es ->
    Forall (fun e => Str.endswith (fst e) sfx = true -> is_file (snd e) = true) es ->
    files_only sfx (Dir w es).

(** The loop [for f in ...: f.unlink()] on the tree alone. *)
Fixpoint unlink_all (ps : list path) (fs : node) : result node :=
  match ps with
  | [] => Ok fs
  | p :: ps' =>
      match FS.os_unlink p fs with
      | Ok fs' => unlink_all ps' fs'
      | Err e => Err e
      end
  end.

(** The glob below a node, with paths that start at the node. *)
Definition glob_rel (sfx : string) (n : node) : list path :=
  flat_map (FS.matching sfx) (FS.directories [] n).

End Erase.

(** Metadata files at two levels, next to a film and its subtitles. *)
Definition metadata_state : state :=
  mkState (library [("movie.nfo", File 2 "info");
                    ("movie.mkv", File 9 "film");
                    ("season", Dir true [("readme.txt", File 1 "text");
                                         ("e1.eng.srt", File 5 "subs");
                                         ("e1.nfo", File 2 "info")])]) [].

(** The volume of the script: its two content directories next to a
    third directory. *)
Definition media (movies tv : list (string * node)) : node :=
  Dir true
    [("volume2",
      Dir true
        [("data",
          Dir true
            [("media",
              Dir true [("movies", Dir true movies);
                        ("tv", Dir true tv);
                        ("music", Dir true [("a.1.en.srt", File 7 "lyrics");
                                            ("cover.nfo", File 2 "info")])])])])].

Definition volume_state : state :=
  mkState (media [("a.1.en.srt", File 10 "original"); ("a.nfo", File 2 "info")]
                 [("b.en.srt", File 10 "subs")]) [].

(** The movies directory holds a directory named like a metadata file. *)
Definition broken_volume_state : state :=
  mkState (media [("extras.nfo", Dir true [])]
                 [("b.en.srt", File 10 "subs")]) [].

(* ================================================================== *)
(** ** Trees on which one run is enough *)
(* ================================================================== *)

Module Tidy.

(** What one turn of the inner loop of [rename_forced_subs] does to the
    tree: the loop body without its log. *)
Definition forced_step (lang_str : string) (p : path) (fs : node) : result node :=
  let renamed := canonical_path lang_str p in
  let forced := sibling_path lang_str p in
  match FS.os_rename p renamed fs with
  | Err e => Err e
  | Ok fs1 =>
      if FS.path_exists forced fs1 then
        match FS.stat_size forced fs1 with
        | Err e => Err e
        | Ok forced_size =>
            match FS.stat_size renamed fs1 with
            | Err e => Err e
            | Ok orig_size =>
                if (orig_size <=? forced_size)%Z then FS.os_unlink forced fs1
                else if PyFloat.gt_times_0_4 forced_size orig_size then Ok fs1
                else FS.os_rename forced (forced_path lang_str forced) fs1
            end
        end
      else Ok fs1
  end.

(** The same for the loop of [rename_en_to_eng_subs]. *)
Definition en_step (f : path) (fs : node) : result node :=
  let eng := path_replace f ".en.srt" ".eng.srt" in
  if FS.path_exists eng fs then FS.os_unlink f fs else FS.os_rename f eng fs.

(** A loop on the tree: it ends with the first error. *)
Fixpoint run (step : path -> node -> result node) (ps : list path) (fs : node)
  : result node :=
  match ps with
  | [] => Ok fs
  | p :: ps' =>
      match step p fs with
      | Ok fs' => run step ps' fs'
      | Err e => Err e
      end
  end.

(** The tree with the node at [d] replaced. *)
Definition plug (d : path) (n' : node) (fs : node) : node :=
  FS.modify d (fun _ => n') fs.

(** The first [n] characters of a string, and a name without the
    ending [m]. *)
Fixpoint take (n : nat) (s : string) : string :=
  match n, s with
  | S k, String a s' => String a (take k s')
  | _, _ => EmptyString
  end.

Definition stem (c m : string) : string :=
  take (String.length c - String.length m) c.

(** No marker of the renaming passes occurs in the name. *)
Definition marker_free_name (x : string) : bool :=
  forallb (fun old => Nat.eqb (Str.count_from old 0 x) 0) Frame.markers.

(** The endings that the renaming passes look for. *)
Definition discovery_markers : list string :=
  [".1.en.srt"; ".1.eng.srt"; ".en.srt"].

(** A file name carries at most one marker: when it ends in one, no
    marker occurs before that ending, and the variant-1 marker is not
    doubled. *)
Definition single_marker (c : string) : bool :=
  forallb (fun m => implb (Str.endswith c m) (marker_free_name (stem c m)))
    discovery_markers
  && negb (Str.endswith c ".1.1.en.srt")
  && negb (Str.endswith c ".1.1.eng.srt").

(** A directory name holds no marker and does not look like a subtitle
    or metadata file. *)
Definition dir_name_ok (c : string) : bool :=
  marker_free_name c
  && negb (Str.endswith c ".srt")
  && negb (Str.endswith c ".nfo")
  && negb (Str.endswith c ".txt").

Definition entry_ok (c : string) (x : node) : bool :=
  match x with
  | File _ _ => single_marker c
  | Dir _ _ => dir_name_ok c
  end.

(** A tidy tree: every directory may be written and lists no name
    twice, every name is as above, and no name ends in one of [ts]. *)
Inductive tidy (ts : list string) : node -> Prop :=
| tidy_File sz data : tidy ts (File sz data)
| tidy_Dir es :
    NoDup (map fst es) ->
    Forall (fun e => entry_ok (fst e) (snd e) = true) es ->
    Forall (fun e => forall t, In t ts -> Str.endswith (fst e) t = false) es ->
    Forall (fun e => tidy ts (snd e)) es ->
    tidy ts (Dir true es).

(** The same for one listing, read as a finite map. *)
Definition listing_ok (ts : list string) (es : list (string * node)) : Prop :=
  NoDup (map fst es) /\
  forall k x,
    FS.assoc k es = Some x ->
    entry_ok k x = true /\ forall t, In t ts -> Str.endswith k t = false.

End Tidy.

(** A library with all the program looks for, on two levels. *)
Definition mixed_state : state :=
  mkState
    (library
       [("a.1.en.srt", File 1000 "original");
        ("a.2.en.srt", File 300 "forced");
        ("b.1.eng.srt", File 1000 "original");
        ("b.2.eng.srt", File 1000 "copy");
        ("c.en.srt", File 10 "subs");
        ("d.en.srt", File 10 "old");
        ("d.eng.srt", File 12 "new");
        ("movie.mkv", File 9 "film");
        ("movie.nfo", File 2 "info");
        ("season",
         Dir true [("e1.1.en.srt", File 1000 "original");
                   ("e1.2.en.srt", File 700 "unclear");
                   ("e1.mkv", File 9 "film");
                   ("notes.txt", File 1 "text")]);
        ("extras", Dir true [("readme.txt", File 1 "text");
                             ("old", Dir true [])])]) [].

(** Tidiness of a tree that is written out. *)
Ltac tidy_tac :=
  repeat first
    [ apply Tidy.tidy_File | apply Tidy.tidy_Dir
    | apply Forall_cons | apply Forall_nil
    | apply NoDup_cons | apply NoDup_nil
    | (intros ? [])
    | (vm_compute; reflexivity)
    | (cbn; intuition discriminate) ].

(** What a turn of a renaming loop on the entry [c] leaves of a listing:
    it is still in order, the directories are the ones there were, the
    other names that the loop looks for are untouched, and [c] does not
    come back. *)
Definition turned (sfx : string) (ts : list string) (c : string)
  (es es' : list (string * node)) : Prop :=
  Tidy.listing_ok ts es' /\
  (forall k w l, FS.assoc k es' = Some (Dir w l) <-> FS.assoc k es = Some (Dir w l)) /\
  (forall k, k <> c -> Str.endswith k sfx = true -> FS.assoc k es' = FS.assoc k es) /\
  (FS.assoc c es = None -> FS.assoc c es' = None).

(** A metadata file in a directory without write permission. *)
Definition read_only_metadata_state : state :=
  mkState (library [("ro", Dir false [("x.nfo", File 1 "info")])]) [].

(** Two libraries that are not tidy: a directory whose name holds a
    marker, and a directory named like a subtitle file. *)
Definition marked_directory_state : state :=
  mkState (library [("s.1.en.srt.bak",
                     Dir true [("a.1.en.srt", File 10 "original")])]) [].

Definition subtitle_directory_state : state :=
  mkState (library [("a.1.en.srt", File 10 "original");
                    ("a.eng.srt", Dir true [])]) [].


(* ================================================================== *)
(** ** Facts about [str.replace] *)
(* ================================================================== *)

Module StrFacts.
Import Str.

Lemma prefix_length (a s : string) :
  String.prefix a s = true -> String.length a <= String.length s.
Proof.
  revert s; induction a as [|c a IH]; intros [|d s]; simpl; try lia; try discriminate.
  destruct (Ascii.ascii_dec c d); [|discriminate].
  intros H; apply IH in H; lia.
Qed.

Lemma prefix_refl (a : string) : String.prefix a a = true.
Proof.
  induction a as [|c a IH]; simpl; [reflexivity|].
  destruct (Ascii.ascii_dec c c); [assumption|congruence].
Qed.

Lemma append_length (a b : string) :
  String.length (a ++ b)%string = String.length a + String.length b.
Proof. induction a; simpl; congruence. Qed.

(** The scan accounts for every character: each occurrence trades
    [length old] characters for [length new]. *)
Lemma replace_from_length (old new : string) :
  1 <= String.length old ->
  forall s skip,
    String.length (replace_from old new skip s)
    + count_from old skip s * String.length old
    + Nat.min skip (String.length s)
    = String.length s + count_from old skip s * String.length new.
Proof.
  intros Hold; induction s as [|c s IH]; intros skip.
  - simpl. lia.
  - destruct skip as [|k].
    + cbn [replace_from count_from].
      destruct (String.prefix old (String c s)) eqn:Hp.
      * apply prefix_length in Hp. simpl in Hp.
        specialize (IH (String.length old - 1)).
        rewrite append_length. simpl String.length. lia.
      * specialize (IH 0). simpl String.length. lia.
    + cbn [replace_from count_from]. specialize (IH k).
      simpl String.length. lia.
Qed.

(** A string that ends with the marker has an occurrence for the scan
    to find. *)
Lemma count_endswith (old s : string) :
  1 <= String.length old ->
  endswith s old = true -> 1 <= count_from old 0 s.
Proof.
  intros Hold; induction s as [|c s IH]; cbn [endswith]; intros H.
  - destruct old; simpl in *; [lia|discriminate].
  - cbn [count_from].
    destruct (String.prefix old (String c s)) eqn:Hp; [lia|].
    apply orb_true_iff in H as [H|H]; [|auto].
    apply String.eqb_eq in H. rewrite <- H, prefix_refl in Hp. discriminate.
Qed.

Lemma replace_length (s old new : string) :
  1 <= String.length old ->
  String.length (replace s old new) + count_from old 0 s * String.length old
  = String.length s + count_from old 0 s * String.length new.
Proof.
  intros Hold. pose proof (replace_from_length old new Hold s 0) as H.
  unfold replace. destruct old; [simpl in Hold; lia|]. simpl Nat.min in H. lia.
Qed.

(** Replacing a marker at the end of a name by a shorter text changes
    the name. *)
Lemma replace_shorter_neq (s old new : string) :
  String.length new < String.length old ->
  endswith s old = true ->
  replace s old new <> s.
Proof.
  intros Hlen Hend Heq.
  assert (Hold : 1 <= String.length old) by lia.
  pose proof (replace_length s old new Hold) as H.
  pose proof (count_endswith old s Hold Hend) as Hc.
  rewrite Heq in H. nia.
Qed.

(** Two replacements of different lengths for the same marker give
    different names. *)
Lemma replace_neq_of_length (s old new1 new2 : string) :
  1 <= String.length old ->
  String.length new1 <> String.length new2 ->
  endswith s old = true ->
  replace s old new1 <> replace s old new2.
Proof.
  intros Hold Hlen Hend Heq.
  pose proof (replace_length s old new1 Hold) as H1.
  pose proof (replace_length s old new2 Hold) as H2.
  pose proof (count_endswith old s Hold Hend) as Hc.
  rewrite Heq in H1. nia.
Qed.

Lemma prefix_append (a b : string) : String.prefix a (a ++ b)%string = true.
Proof.
  induction a as [|c a IH]; simpl; [now destruct b|].
  destruct (Ascii.ascii_dec c c); [assumption|congruence].
Qed.

(** The scan finds a marker that occurs anywhere in the string. *)
Lemma count_substring (old a b : string) :
  1 <= String.length old ->
  1 <= count_from old 0 (a ++ old ++ b)%string.
Proof.
  intros Hold. induction a as [|c a IH].
  - simpl append. destruct old as [|c old]; [simpl in Hold; lia|].
    change (String c old ++ b)%string with (String c (old ++ b)%string).
    cbn [count_from].
    change (String c (old ++ b)%string) with (String c old ++ b)%string.
    rewrite prefix_append. lia.
  - change (String c a ++ old ++ b)%string
      with (String c (a ++ old ++ b)%string).
    cbn [count_from]. destruct (String.prefix old _); [lia|assumption].
Qed.

(** Where the scan replaces something, the replacement text occurs in
    the result. *)
Lemma replace_from_has_new (old new s : string) :
  1 <= count_from old 0 s ->
  exists a b, replace_from old new 0 s = (a ++ new ++ b)%string.
Proof.
  induction s as [|c s IH]; cbn [count_from replace_from]; [lia|].
  destruct (String.prefix old (String c s)).
  - intros _. exists EmptyString. eexists. reflexivity.
  - intros H. destruct (IH H) as (a & b & ->).
    exists (String c a), b. reflexivity.
Qed.

(** After a marker at the end of a name has been replaced, the name
    contains the replacement for a second scan to find. *)
Lemma count_replace (s old new : string) :
  1 <= String.length old -> 1 <= String.length new ->
  endswith s old = true ->
  1 <= count_from new 0 (replace s old new).
Proof.
  intros Hold Hnew He.
  pose proof (count_endswith old s Hold He) as Hc.
  destruct (replace_from_has_new old new s Hc) as (a & b & Hr).
  unfold replace. destruct old; [simpl in Hold; lia|].
  rewrite Hr. now apply count_substring.
Qed.

Lemma replace_count_neq (s old new : string) :
  1 <= String.length old ->
  1 <= count_from old 0 s ->
  String.length new <> String.length old ->
  replace s old new <> s.
Proof.
  intros Hold Hc Hlen Heq.
  pose proof (replace_length s old new Hold) as H.
  rewrite Heq in H. nia.
Qed.

Lemma prefix_split (a s : string) :
  String.prefix a s = true -> exists r, s = (a ++ r)%string.
Proof.
  revert s; induction a as [|c a IH]; intros s H.
  - exists s. reflexivity.
  - destruct s as [|d s]; [discriminate|]. simpl in H.
    destruct (Ascii.ascii_dec c d) as [<-|]; [|discriminate].
    destruct (IH s H) as [r ->]. exists r. reflexivity.
Qed.

Lemma append_inj_length (a b x y : string) :
  String.length a = String.length b ->
  (a ++ x)%string = (b ++ y)%string -> a = b.
Proof.
  revert b; induction a as [|c a IH]; intros [|d b] Hlen H;
    simpl in Hlen; try discriminate; [reflexivity|].
  simpl in H. inversion H; subst. f_equal. apply (IH b); [lia|assumption].
Qed.

(** Replacing a marker by a different text of the same length changes
    the string as well. *)
Lemma replace_same_length_neq (s old new : string) :
  1 <= String.length old ->
  String.length new = String.length old -> new <> old ->
  1 <= count_from old 0 s ->
  replace s old new <> s.
Proof.
  intros Hold Hlen Hne. unfold replace.
  destruct old as [|c0 old0] eqn:Eo; [simpl in Hold; lia|]. rewrite <- Eo in *.
  clear Eo c0 old0.
  induction s as [|c s IH]; cbn [count_from replace_from]; [lia|].
  destruct (String.prefix old (String c s)) eqn:Hp.
  - intros _ Heq. apply prefix_split in Hp as [r Hr].
    rewrite Hr in Heq. apply append_inj_length in Heq; auto.
  - intros Hc Heq. inversion Heq. now apply IH.
Qed.

(** *** Replacing in a path string is replacing in its components *)

Lemma append_nil_r (a : string) : (a ++ "")%string = a.
Proof. induction a; simpl; congruence. Qed.

Lemma append_assoc (a b c : string) :
  ((a ++ b) ++ c)%string = (a ++ b ++ c)%string.
Proof. induction a; simpl; congruence. Qed.

Lemma prefix_before_slash (old : string) :
  no_slash old = true ->
  forall x r, String.prefix old (x ++ String "/" r)%string = String.prefix old x.
Proof.
  induction old as [|a old IH]; intros Hold x r.
  - now destruct x.
  - cbn [no_slash] in Hold. apply andb_true_iff in Hold as [Ha Hold].
    destruct x as [|b x]; simpl.
    + destruct (Ascii.ascii_dec a "/") as [->|]; [discriminate|reflexivity].
    + destruct (Ascii.ascii_dec a b); [now apply IH|reflexivity].
Qed.

(** The scan of a component followed by the rest of the path string
    never finds a match that leaves the component. *)
Lemma replace_from_component (old new : string) :
  no_slash old = true -> 1 <= String.length old ->
  forall x k r,
    k <= String.length x ->
    r = EmptyString \/ (exists r', r = String "/" r') ->
    replace_from old new k (x ++ r)
    = (replace_from old new k x ++ replace_from old new 0 r)%string.
Proof.
  intros Hns Hold. induction x as [|a x IH]; intros k r Hk Hr.
  - simpl in Hk. replace k with 0 by lia. reflexivity.
  - change (String a x ++ r)%string with (String a (x ++ r)%string).
    destruct k as [|k]; cbn [replace_from].
    + assert (Hp : String.prefix old (String a (x ++ r)%string)
                   = String.prefix old (String a x)).
      { destruct Hr as [->|[r' ->]].
        - now rewrite append_nil_r.
        - apply (prefix_before_slash old Hns (String a x) r'). }
      rewrite Hp. destruct (String.prefix old (String a x)) eqn:E.
      * apply prefix_length in E. simpl in E.
        rewrite IH by (auto; lia). now rewrite append_assoc.
      * rewrite IH by (auto; lia). reflexivity.
    + simpl in Hk. apply IH; [lia|assumption].
Qed.

End StrFacts.

(* ================================================================== *)
(** ** Facts about the file system *)
(* ================================================================== *)

Module FSFacts.
Import FS.
Local Abbreviation length := (@List.length string).

Lemma assoc_del_same c es : assoc c (del c es) = None.
Proof.
  induction es as [|[k v] es IH]; simpl; [reflexivity|].
  destruct (String.eqb k c) eqn:E; [assumption|]. simpl. now rewrite E.
Qed.

Lemma assoc_del_other c c' es : c <> c' -> assoc c' (del c es) = assoc c' es.
Proof.
  intros Hne; induction es as [|[k v] es IH]; simpl; [reflexivity|].
  destruct (String.eqb k c) eqn:E.
  - apply String.eqb_eq in E; subst k.
    apply String.eqb_neq in Hne. now rewrite Hne.
  - simpl. now rewrite IH.
Qed.

Lemma assoc_set_same c o es : assoc c (set_entry c o es) = o.
Proof.
  induction es as [|[k v] es IH]; simpl.
  - destruct o; simpl; [now rewrite String.eqb_refl|reflexivity].
  - destruct (String.eqb k c) eqn:E.
    + destruct o; simpl; [now rewrite String.eqb_refl|apply assoc_del_same].
    + simpl. now rewrite E.
Qed.

Lemma assoc_set_other c c' o es :
  c <> c' -> assoc c' (set_entry c o es) = assoc c' es.
Proof.
  intros Hne; induction es as [|[k v] es IH]; simpl.
  - apply String.eqb_neq in Hne. destruct o; simpl; [now rewrite Hne|reflexivity].
  - destruct (String.eqb k c) eqn:E.
    + apply String.eqb_eq in E; subst k.
      pose proof Hne as Hne'. apply String.eqb_neq in Hne'. rewrite Hne'.
      destruct o; simpl; [rewrite Hne'|]; now apply assoc_del_other.
    + simpl. now rewrite IH.
Qed.

Lemma lookup_app p q n :
  lookup (p ++ q) n =
  match lookup p n with Some m => lookup q m | None => None end.
Proof.
  revert n; induction p as [|c p IH]; intros n; simpl; [reflexivity|].
  destruct n as [|w es]; [reflexivity|].
  destruct (assoc c es); [apply IH|reflexivity].
Qed.

Lemma modify_app p q f n : modify (p ++ q) f n = modify p (modify q f) n.
Proof.
  revert n; induction p as [|c p IH]; intros n; simpl; [reflexivity|].
  destruct n as [|w es]; [reflexivity|].
  destruct (assoc c es); [now rewrite IH|reflexivity].
Qed.

Lemma lookup_modify p f n :
  lookup p (modify p f n) = option_map f (lookup p n).
Proof.
  revert n; induction p as [|c p IH]; intros n; simpl; [reflexivity|].
  destruct n as [|w es]; [reflexivity|].
  destruct (assoc c es) eqn:E; simpl.
  - rewrite assoc_set_same. apply IH.
  - now rewrite E.
Qed.

(** A change at [p] is invisible from a different path of the same
    length. *)
Lemma lookup_modify_other p q f n :
  length p = length q -> p <> q -> lookup q (modify p f n) = lookup q n.
Proof.
  revert q n; induction p as [|c p IH]; intros [|c' q] n Hlen Hne;
    simpl in Hlen; try discriminate; [congruence|].
  simpl. destruct n as [|w es]; [reflexivity|].
  destruct (assoc c es) eqn:E; [|simpl; reflexivity].
  simpl. destruct (string_dec c c') as [->|Hc].
  - rewrite assoc_set_same, E. apply IH; [lia|congruence].
  - now rewrite assoc_set_other.
Qed.

Lemma path_split (p : path) : p <> [] -> p = dirname p ++ [basename p].
Proof. intros H. now apply app_removelast_last. Qed.

Lemma dirname_snoc d c : dirname (d ++ [c]) = d.
Proof. apply removelast_last. Qed.

Lemma basename_snoc d c : basename (d ++ [c]) = c.
Proof. apply last_last. Qed.

Lemma dirname_length p : p <> [] -> S (length (dirname p)) = length p.
Proof.
  intros H. rewrite (path_split p H) at 2. rewrite length_app. simpl List.length. lia.
Qed.

Lemma path_eq_dec (p q : path) : {p = q} + {p <> q}.
Proof. apply list_eq_dec, string_dec. Qed.

Lemma lookup_put_same p o n w es :
  p <> [] -> lookup (dirname p) n = Some (Dir w es) ->
  lookup p (put p o n) = o.
Proof.
  intros Hp Hd. unfold put.
  rewrite (path_split p Hp) at 1.
  rewrite lookup_app, lookup_modify, Hd. simpl.
  rewrite assoc_set_same. now destruct o.
Qed.

Lemma lookup_put_other p q o n :
  length p = length q -> p <> q -> lookup q (put p o n) = lookup q n.
Proof.
  intros Hlen Hne. unfold put.
  destruct p as [|c0 p0] eqn:Ep; [destruct q; simpl in *; congruence|].
  rewrite <- Ep in *. assert (Hp : p <> []) by (subst p; discriminate).
  assert (Hq : q <> []) by (destruct q; [subst p; discriminate|discriminate]).
  clear Ep c0 p0.
  rewrite (path_split q Hq), !lookup_app.
  destruct (path_eq_dec (dirname p) (dirname q)) as [Hd|Hd].
  - rewrite Hd, lookup_modify.
    destruct (lookup (dirname q) n) as [[|w es]|]; simpl; try reflexivity.
    rewrite assoc_set_other; [reflexivity|].
    intros Hb. apply Hne.
    rewrite (path_split p Hp), (path_split q Hq). congruence.
  - rewrite lookup_modify_other; [reflexivity| |assumption].
    pose proof (dirname_length p Hp). pose proof (dirname_length q Hq). lia.
Qed.

Lemma is_prefix_refl p : is_prefix p p = true.
Proof. induction p; simpl; [reflexivity|]. now rewrite String.eqb_refl. Qed.

Lemma path_eqb_eq p q : path_eqb p q = true <-> p = q.
Proof.
  unfold path_eqb. split.
  - revert q; induction p as [|c p IH]; intros [|d q]; simpl; try reflexivity;
      try discriminate.
    intros H. apply andb_true_iff in H as [H1 H2].
      apply andb_true_iff in H1 as [Hc H1]. apply andb_true_iff in H2 as [_ H2].
    apply String.eqb_eq in Hc. subst d. f_equal. apply IH.
    now rewrite H1, H2.
  - intros ->. now rewrite is_prefix_refl.
Qed.

Lemma is_prefix_same_length p q :
  length p = length q -> is_prefix p q = true -> p = q.
Proof.
  revert q; induction p as [|c p IH]; intros [|d q]; simpl; try discriminate;
    try reflexivity.
  intros Hlen H. apply andb_true_iff in H as [Hc H].
  apply String.eqb_eq in Hc. subst d. f_equal. apply IH; [lia|assumption].
Qed.

(** *** What a successful call leaves behind *)

Lemma os_unlink_ok p fs fs' :
  os_unlink p fs = Ok fs' ->
  fs' = put p None fs /\ p <> [] /\
  (exists sz data, lookup p fs = Some (File sz data)) /\
  (exists es, lookup (dirname p) fs = Some (Dir true es)).
Proof.
  unfold os_unlink, dir_writable. intros H.
  destruct (lookup p fs) as [n|] eqn:El; [|discriminate].
  destruct (lookup (dirname p) fs) as [[|w es]|] eqn:Ed; simpl in H;
    try discriminate.
  destruct w; simpl in H; [|discriminate].
  destruct n as [sz data|]; [|discriminate].
  inversion H; subst. repeat split; eauto.
  intros ->. simpl in *. congruence.
Qed.

Lemma os_unlink_file p fs sz data es :
  lookup p fs = Some (File sz data) ->
  lookup (dirname p) fs = Some (Dir true es) ->
  os_unlink p fs = Ok (put p None fs).
Proof.
  intros Hl Hd. unfold os_unlink, dir_writable. now rewrite Hl, Hd.
Qed.

Lemma lookup_unlink_same p fs fs' :
  os_unlink p fs = Ok fs' -> lookup p fs' = None.
Proof.
  intros H. apply os_unlink_ok in H as (-> & Hp & _ & es & Hd).
  eapply lookup_put_same; eauto.
Qed.

Lemma lookup_unlink_other p q fs fs' :
  os_unlink p fs = Ok fs' -> length p = length q -> p <> q ->
  lookup q fs' = lookup q fs.
Proof.
  intros H Hlen Hne. apply os_unlink_ok in H as (-> & _).
  now apply lookup_put_other.
Qed.

Lemma os_rename_ok src dst fs fs' :
  os_rename src dst fs = Ok fs' -> src <> dst ->
  length src = length dst ->
  fs' = put dst (Some (match lookup src fs with Some s => s | None => fs end))
            (put src None fs)
  /\ src <> [] /\ dst <> []
  /\ (exists s, lookup src fs = Some s)
  /\ (exists es, lookup (dirname src) fs = Some (Dir true es))
  /\ (exists es, lookup (dirname dst) fs = Some (Dir true es)).
Proof.
  unfold os_rename, dir_writable. intros H Hne Hlen.
  destruct (lookup src fs) as [s|] eqn:El; [|discriminate].
  destruct src as [|c src']; [discriminate|].
  destruct dst as [|d dst']; [discriminate|].
  cbn [is_root orb] in H.
  destruct (lookup (dirname (d :: dst')) fs) as [[|wd esd]|] eqn:Edd;
    try discriminate.
  destruct (lookup (dirname (c :: src')) fs) as [[|ws ess]|] eqn:Eds;
    cbn [negb orb] in H; try discriminate.
  destruct ws; cbn [negb orb] in H; [|discriminate].
  destruct wd; cbn [negb orb] in H; [|discriminate].
  destruct (path_eqb (c :: src') (d :: dst')) eqn:Eeq.
  { apply path_eqb_eq in Eeq. contradiction. }
  destruct (is_prefix (c :: src') (d :: dst')) eqn:Epre.
  { apply is_prefix_same_length in Epre; [contradiction|assumption]. }
  assert (Hfs : fs' = put (d :: dst') (Some s) (put (c :: src') None fs)).
  { destruct s; destruct (lookup (d :: dst') fs) as [[|? [|]]|];
      try discriminate; now inversion H. }
  repeat split; try discriminate; eauto.
Qed.

(** After a rename between two different paths of the same depth, the
    source is gone, the destination holds what the source held, and
    every other path of that depth is as before. *)
Lemma lookup_rename src dst fs fs' :
  os_rename src dst fs = Ok fs' -> src <> dst ->
  length src = length dst ->
  lookup dst fs' = lookup src fs /\
  lookup src fs' = None /\
  (forall q, length q = length src -> q <> src -> q <> dst ->
             lookup q fs' = lookup q fs).
Proof.
  intros H Hne Hlen.
  destruct (os_rename_ok _ _ _ _ H Hne Hlen)
    as (-> & Hs & Hd & [s Hl] & [ess Hds] & [esd Hdd]).
  rewrite Hl.
  assert (Hdd' : exists w es,
             lookup (dirname dst) (put src None fs) = Some (Dir w es)).
  { unfold put at 1.
    destruct (path_eq_dec (dirname src) (dirname dst)) as [E|E].
    - rewrite E, lookup_modify, Hdd. simpl. eauto.
    - rewrite lookup_modify_other; eauto.
      pose proof (dirname_length src Hs). pose proof (dirname_length dst Hd). lia. }
  destruct Hdd' as (w & es & Hdd').
  split; [|split].
  - eapply lookup_put_same; eauto.
  - rewrite lookup_put_other by (auto; lia).
    eapply lookup_put_same; eauto.
  - intros q Hq Hqs Hqd.
    rewrite lookup_put_other by (auto; lia).
    apply lookup_put_other; [lia|auto].
Qed.

Lemma glob_suffix_endswith top sfx fs p :
  In p (glob_suffix top sfx fs) -> Str.endswith (basename p) sfx = true.
Proof.
  unfold glob_suffix. destruct (lookup top fs); [|intros []].
  intros H. apply in_flat_map in H as ([d es] & _ & H).
  unfold matching in H. cbn [fst snd] in H.
  apply in_map_iff in H as ([c m] & <- & H).
  apply filter_In in H as [_ H]. cbn [fst] in *.
  now rewrite basename_snoc.
Qed.

End FSFacts.

(* ================================================================== *)
(** ** Facts about the size test [forced_size > orig_size * 0.4] *)
(* ================================================================== *)

Module PyFloatFacts.
Import PyFloat.
Local Open Scope Z_scope.

(** Five times the mantissa of the literal is [2 * 2^54 + 2]: the
    double is a little above four tenths. *)
Lemma lit_0_4_times_5 : 5 * fst lit_0_4 = 2 * 2 ^ 54 + 2.
Proof. reflexivity. Qed.

Lemma of_int_exact (n : Z) : 0 <= n < 2 ^ 53 -> of_int n = (n, 0).
Proof.
  intros Hn. unfold of_int, round53.
  assert (Z.log2 n < 53).
  { destruct (Z.eq_dec n 0) as [->|Hz]; [simpl; lia|].
    apply Z.log2_lt_pow2; lia. }
  destruct (Z.log2 n + 1 - 53 <=? 0) eqn:E; [reflexivity|].
  apply Z.leb_gt in E. lia.
Qed.

(** The product before and after rounding, for an exactly represented
    size: either no bit is lost, or [d] bits are and the mantissa is
    the quotient by [2^d], possibly plus one. *)
Lemma mul_0_4_cases (n : Z) :
  0 <= n < 2 ^ 53 ->
  let P := n * fst lit_0_4 in
  mul (of_int n) lit_0_4 = (P, -54) \/
  exists d m, 0 < d <= 53 /\ 2 ^ (d + 52) <= P /\
              (m = P / 2 ^ d \/ m = P / 2 ^ d + 1) /\
              mul (of_int n) lit_0_4 = (m, -54 + d).
Proof.
  intros Hn P. rewrite (of_int_exact n Hn).
  unfold mul, round53. cbn [fst snd]. fold P.
  replace (0 + -54) with (-54) by reflexivity.
  destruct (Z.log2 P + 1 - 53 <=? 0) eqn:E; [now left|right].
  apply Z.leb_gt in E. remember (Z.log2 P + 1 - 53) as d eqn:Ed.
  assert (HP : 0 < P).
  { destruct (Z_lt_le_dec 0 P) as [|Hle]; [assumption|].
    rewrite (Z.log2_nonpos P Hle) in Ed. lia. }
  assert (HlP : Z.log2 P < 106).
  { apply Z.log2_lt_pow2; [assumption|].
    subst P. change (fst lit_0_4) with 7205759403792794.
    change (2 ^ 106) with (2 ^ 53 * 2 ^ 53). change (2 ^ 53) with 9007199254740992 in *.
    nia. }
  exists d, (if (Z.shiftl 1 (d - 1) <? Z.land P (Z.ones d))
                || ((Z.shiftl 1 (d - 1) =? Z.land P (Z.ones d)) && Z.odd (Z.shiftr P d))
             then Z.shiftr P d + 1 else Z.shiftr P d).
  split; [lia|]. split.
  - replace (d + 52) with (Z.log2 P) by lia.
    apply Z.log2_spec. assumption.
  - split; [|reflexivity].
    rewrite Z.shiftr_div_pow2 by lia.
    destruct (_ || _); [now right|now left].
Qed.

(** At or below four tenths of the original size the test fails. *)
Lemma gt_times_0_4_false (forced_size orig_size : Z) :
  0 <= orig_size < 2 ^ 53 ->
  5 * forced_size <= 2 * orig_size ->
  gt_times_0_4 forced_size orig_size = false.
Proof.
  intros Hn Hle. unfold gt_times_0_4.
  pose proof lit_0_4_times_5 as H5.
  assert (HP : forced_size * 2 ^ 54 <= orig_size * fst lit_0_4).
  { change (2 ^ 54) with 18014398509481984 in *. lia. }
  destruct (mul_0_4_cases orig_size Hn) as [->|(d & m & Hd & _ & Hm & ->)];
    unfold int_gt.
  - simpl Z.leb. cbn iota. apply Z.ltb_ge. exact HP.
  - destruct (0 <=? -54 + d) eqn:E; [apply Z.leb_le in E; lia|].
    apply Z.ltb_ge.
    replace (- (-54 + d)) with (54 - d) by lia.
    assert (Hq : forced_size * 2 ^ (54 - d) <= orig_size * fst lit_0_4 / 2 ^ d).
    { apply Z.div_le_lower_bound; [apply Z.pow_pos_nonneg; lia|].
      rewrite Z.mul_comm, <- Z.mul_assoc, <- Z.pow_add_r by lia.
      replace (54 - d + d) with 54 by lia. exact HP. }
    destruct Hm as [->| ->]; lia.
Qed.

(** Strictly above four tenths of the original size the test holds, as
    long as the original is below [2^51] bytes. *)
Lemma gt_times_0_4_true (forced_size orig_size : Z) :
  0 <= orig_size < 2 ^ 51 ->
  2 * orig_size < 5 * forced_size ->
  gt_times_0_4 forced_size orig_size = true.
Proof.
  intros Hn Hlt. unfold gt_times_0_4.
  pose proof lit_0_4_times_5 as H5.
  assert (Hn' : 0 <= orig_size < 2 ^ 53).
  { change (2 ^ 51) with 2251799813685248 in Hn.
    change (2 ^ 53) with 9007199254740992. lia. }
  destruct (mul_0_4_cases orig_size Hn') as [->|(d & m & Hd & Hlow & Hm & ->)];
    unfold int_gt.
  - simpl Z.leb. cbn iota. apply Z.ltb_lt.
    change (2 ^ 54) with 18014398509481984 in *.
    change (2 ^ 51) with 2251799813685248 in *. lia.
  - destruct (0 <=? -54 + d) eqn:E; [apply Z.leb_le in E; lia|].
    apply Z.ltb_lt.
    replace (- (-54 + d)) with (54 - d) by lia.
    set (P := orig_size * fst lit_0_4) in *.
    assert (H2d : 0 < 2 ^ d) by (apply Z.pow_pos_nonneg; lia).
    assert (Hd51 : 2 ^ d <= 2 ^ 51).
    { assert (HP : P < 2 ^ 104).
      { subst P. change (fst lit_0_4) with 7205759403792794.
        change (2 ^ 104) with (2 ^ 51 * 2 ^ 53).
        change (2 ^ 53) with 9007199254740992.
        change (2 ^ 51) with 2251799813685248 in *. nia. }
      apply Z.pow_le_mono_r; [lia|].
      assert (Hlt' : 2 ^ (d + 52) < 2 ^ 104) by lia.
      apply Z.pow_lt_mono_r_iff in Hlt'; lia. }
    assert (Hq : (P / 2 ^ d + 1) * 2 ^ d < forced_size * 2 ^ (54 - d) * 2 ^ d).
    { rewrite <- Z.mul_assoc, <- Z.pow_add_r by lia.
      replace (54 - d + d) with 54 by lia.
      pose proof (Z.mul_div_le P (2 ^ d) H2d) as Hfloor.
      change (2 ^ 54) with 18014398509481984 in *.
      change (2 ^ 51) with 2251799813685248 in *.
      subst P. lia. }
    apply Z.mul_lt_mono_pos_r in Hq; [|assumption].
    destruct Hm as [->| ->]; lia.
Qed.

End PyFloatFacts.

(* ================================================================== *)
(** ** Facts about the paths the engine computes *)
(* ================================================================== *)

Module PathFacts.
Import FS.
Local Abbreviation length := (@List.length string).

Lemma path_replace_length p old new :
  length (path_replace p old new) = length p.
Proof. apply length_map. Qed.

Lemma basename_map (f : string -> string) (p : path) :
  p <> [] -> basename (map f p) = f (basename p).
Proof.
  intros Hp. rewrite (FSFacts.path_split p Hp) at 1.
  rewrite map_app. simpl. apply FSFacts.basename_snoc.
Qed.

Lemma endswith_nonempty p sfx :
  1 <= String.length sfx -> Str.endswith (basename p) sfx = true -> p <> [].
Proof.
  intros Hs He ->. simpl in He. destruct sfx; simpl in *; [lia|discriminate].
Qed.

Lemma marker1_length lang_str :
  In lang_str lang_strs ->
  9 <= String.length (variant1_marker lang_str) /\
  String.length (variant2_marker lang_str)
  = String.length (variant1_marker lang_str).
Proof. intros [<-|[<-|[]]]; simpl; lia. Qed.

(** A name that ends with a marker changes when the marker is replaced
    by a text of another length. *)
Lemma path_replace_neq p old new1 new2 :
  1 <= String.length old ->
  String.length new1 <> String.length new2 ->
  Str.endswith (basename p) old = true ->
  path_replace p old new1 <> path_replace p old new2.
Proof.
  intros Hold Hlen He Heq.
  pose proof (endswith_nonempty p old Hold He) as Hp.
  assert (Hb : basename (path_replace p old new1)
               = basename (path_replace p old new2)) by now rewrite Heq.
  unfold path_replace in Hb. rewrite !basename_map in Hb by assumption.
  revert Hb. now apply StrFacts.replace_neq_of_length.
Qed.

Lemma path_replace_shorter_neq p old new :
  String.length new < String.length old ->
  Str.endswith (basename p) old = true ->
  path_replace p old new <> p.
Proof.
  intros Hlen He Heq.
  assert (Hp : p <> []) by (apply (endswith_nonempty p old); [lia|assumption]).
  assert (Hb : basename (path_replace p old new) = basename p) by now rewrite Heq.
  unfold path_replace in Hb. rewrite basename_map in Hb by assumption.
  revert Hb. now apply StrFacts.replace_shorter_neq.
Qed.

Lemma path_replace_length_neq p old new :
  1 <= String.length old ->
  String.length new <> String.length old ->
  Str.endswith (basename p) old = true ->
  path_replace p old new <> p.
Proof.
  intros Hold Hlen He Heq.
  assert (Hp : p <> []) by (apply (endswith_nonempty p old); assumption).
  assert (Hb : basename (path_replace p old new) = basename p) by now rewrite Heq.
  unfold path_replace in Hb. rewrite basename_map in Hb by assumption.
  revert Hb. apply StrFacts.replace_count_neq; auto.
  now apply StrFacts.count_endswith.
Qed.

Section Group.
Variables (lang_str : string) (p : path).
Hypothesis Hlang : In lang_str lang_strs.
Hypothesis Hend : Str.endswith (basename p) (variant1_marker lang_str) = true.

Lemma canonical_neq_orig : p <> canonical_path lang_str p.
Proof.
  intros H. symmetry in H. revert H.
  apply path_replace_shorter_neq; [|assumption].
  pose proof (marker1_length lang_str Hlang). simpl String.length at 1. lia.
Qed.

Lemma canonical_neq_sibling :
  canonical_path lang_str p <> sibling_path lang_str p.
Proof.
  pose proof (marker1_length lang_str Hlang) as [H1 H2].
  apply path_replace_neq; [lia| |assumption].
  rewrite H2. simpl String.length at 1. lia.
Qed.

Lemma canonical_length : length (canonical_path lang_str p) = length p.
Proof. apply path_replace_length. Qed.

Lemma sibling_length : length (sibling_path lang_str p) = length p.
Proof. apply path_replace_length. Qed.

Lemma forced_length q : length (forced_path lang_str q) = length q.
Proof. apply path_replace_length. Qed.
End Group.

(** The sibling name really carries the variant-2 marker, so that the
    forced name differs from it. *)
Lemma forced_neq_sibling lang_str p :
  In lang_str lang_strs ->
  Str.endswith (basename p) (variant1_marker lang_str) = true ->
  sibling_path lang_str p <> forced_path lang_str (sibling_path lang_str p).
Proof.
  intros Hlang He Heq.
  pose proof (marker1_length lang_str Hlang) as [H1 H2].
  assert (Hp : p <> []) by (apply (endswith_nonempty p (variant1_marker lang_str)); [lia|assumption]).
  assert (Hs : sibling_path lang_str p <> []).
  { unfold sibling_path, path_replace. destruct p; [congruence|discriminate]. }
  assert (Hb : basename (sibling_path lang_str p)
               = basename (forced_path lang_str (sibling_path lang_str p)))
    by now rewrite <- Heq.
  unfold forced_path in Hb. unfold path_replace in Hb.
  rewrite basename_map in Hb by assumption.
  symmetry in Hb. revert Hb.
  apply StrFacts.replace_count_neq; [lia| |].
  - unfold sibling_path, path_replace. rewrite basename_map by assumption.
    apply StrFacts.count_replace; [lia|lia|assumption].
  - rewrite H2. destruct Hlang as [<-|[<-|[]]]; simpl; lia.
Qed.

(** The sibling path is another path than the one discovered. *)
Lemma sibling_neq_orig lang_str p :
  In lang_str lang_strs ->
  Str.endswith (basename p) (variant1_marker lang_str) = true ->
  sibling_path lang_str p <> p.
Proof.
  intros Hlang He Heq.
  pose proof (marker1_length lang_str Hlang) as [H1 H2].
  assert (Hp : p <> []) by (apply (endswith_nonempty p (variant1_marker lang_str)); [lia|assumption]).
  assert (Hb : basename (sibling_path lang_str p) = basename p) by now rewrite Heq.
  unfold sibling_path, path_replace in Hb.
  rewrite basename_map in Hb by assumption.
  revert Hb. apply StrFacts.replace_same_length_neq; [lia|assumption| |].
  - destruct Hlang as [<-|[<-|[]]]; discriminate.
  - apply StrFacts.count_endswith; [lia|assumption].
Qed.

Lemma str_components_shape p :
  str_components p = EmptyString \/ exists r, str_components p = String "/" r.
Proof. destruct p; [now left|right; eexists; reflexivity]. Qed.

(** The engine replaces in the path string; the model replaces in the
    components.  For a marker without a [/] the two agree. *)
Lemma replace_str p old new :
  Str.no_slash old = true -> 1 <= String.length old ->
  Forall (fun c => Str.no_slash c = true) p -> p <> [] ->
  Str.replace (str p) old new = str (path_replace p old new).
Proof.
  intros Hns Hold Hp Hne.
  assert (H : Str.replace_from old new 0 (str_components p)
              = str_components (path_replace p old new)).
  { clear Hne. induction Hp as [|c p Hc _ IH]; [reflexivity|].
    cbn [path_replace map str_components].
    change ("/" ++ c ++ str_components p)%string
      with (String "/" (c ++ str_components p)%string).
    cbn [Str.replace_from].
    assert (E : String.prefix old (String "/" (c ++ str_components p)%string) = false).
    { destruct old as [|a old]; [simpl in Hold; lia|].
      cbn [Str.no_slash] in Hns. apply andb_true_iff in Hns as [Ha _]. simpl.
      destruct (Ascii.ascii_dec a "/") as [->|]; [discriminate|reflexivity]. }
    rewrite E.
    rewrite StrFacts.replace_from_component;
      auto using str_components_shape; [|lia].
    fold (path_replace p old new). rewrite IH.
    unfold Str.replace. destruct old; [simpl in Hold; lia|reflexivity]. }
  unfold str, Str.replace. destruct p as [|c p]; [congruence|].
  cbn [path_replace map]. destruct old; [simpl in Hold; lia|exact H].
Qed.

Lemma discovered_endswith content_dir lang_str p s :
  discovered content_dir lang_str p s ->
  Str.endswith (basename p) (variant1_marker lang_str) = true.
Proof. apply FSFacts.glob_suffix_endswith. Qed.

End PathFacts.

(* ================================================================== *)
(** ** The engine, one group at a time *)
(* ================================================================== *)

Module EngineFacts.
Import FS.
Local Abbreviation length := (@List.length string).

(** The loop body, with the monad run. *)
Lemma body_run lang_str p s :
  rename_forced_subs_body lang_str p s =
  let renamed := canonical_path lang_str p in
  let forced := sibling_path lang_str p in
  match os_rename p renamed (tree s) with
  | Err e => Raise e s
  | Ok fs1 =>
      let s1 := mkState fs1 (logs s) in
      if path_exists forced fs1 then
        match stat_size forced fs1 with
        | Err e => Raise e s1
        | Ok forced_size =>
            match stat_size renamed fs1 with
            | Err e => Raise e s1
            | Ok orig_size =>
                if (orig_size <=? forced_size)%Z then
                  match os_unlink forced fs1 with
                  | Ok fs2 => Return tt (mkState fs2 (logs s ++ [rec_larger]))
                  | Err e => Raise e (mkState fs1 (logs s ++ [rec_larger]))
                  end
                else if PyFloat.gt_times_0_4 forced_size orig_size then
                  Return tt (mkState fs1 (logs s ++ [rec_big forced]))
                else
                  match os_rename forced (forced_path lang_str forced) fs1 with
                  | Ok fs2 => Return tt (mkState fs2 (logs s))
                  | Err e => Raise e s1
                  end
            end
        end
      else Return tt s1
  end.
Proof.
  destruct s as [fs lg].
  unfold rename_forced_subs_body, bind, logger_debug, logger_info,
    logger_warning, logger_log, rename, unlink, sys, exists_, stat_st_size,
    ask, ret.
  cbn [tree logs level_no logger_level Nat.leb].
  destruct (os_rename p (canonical_path lang_str p) fs) as [fs1|e];
    cbn [tree logs]; [|reflexivity].
  destruct (path_exists (sibling_path lang_str p) fs1);
    cbn [tree logs]; [|reflexivity].
  destruct (stat_size (sibling_path lang_str p) fs1) as [fsz|e];
    cbn [tree logs]; [|reflexivity].
  destruct (stat_size (canonical_path lang_str p) fs1) as [osz|e];
    cbn [tree logs]; [|reflexivity].
  destruct (osz <=? fsz)%Z; cbn [tree logs].
  - destruct (os_unlink (sibling_path lang_str p) fs1); reflexivity.
  - destruct (PyFloat.gt_times_0_4 fsz osz); cbn [tree logs]; [reflexivity|].
    destruct (os_rename (sibling_path lang_str p) _ fs1); reflexivity.
Qed.

Lemma os_rename_file src dst fs sz data es1 es2 :
  src <> dst -> length src = length dst ->
  lookup src fs = Some (File sz data) ->
  (forall w es, lookup dst fs <> Some (Dir w es)) ->
  lookup (dirname src) fs = Some (Dir true es1) ->
  lookup (dirname dst) fs = Some (Dir true es2) ->
  os_rename src dst fs
  = Ok (put dst (Some (File sz data)) (put src None fs)).
Proof.
  intros Hne Hlen Hs Hd Hds Hdd. unfold os_rename, dir_writable.
  rewrite Hs, Hds, Hdd.
  destruct src as [|c src']; [simpl in Hs, Hds; congruence|].
  destruct dst as [|d dst']; [simpl in Hlen; discriminate|].
  cbn [is_root orb negb].
  destruct (path_eqb (c :: src') (d :: dst')) eqn:Eeq.
  { apply FSFacts.path_eqb_eq in Eeq. contradiction. }
  destruct (is_prefix (c :: src') (d :: dst')) eqn:Epre.
  { apply FSFacts.is_prefix_same_length in Epre; [contradiction|assumption]. }
  destruct (lookup (d :: dst') fs) as [[|w es]|]; try reflexivity.
  exfalso. now apply (Hd w es).
Qed.

Lemma stat_size_file p fs sz data :
  lookup p fs = Some (File sz data) -> stat_size p fs = Ok sz.
Proof. intros H. unfold stat_size. now rewrite H. Qed.

Lemma path_exists_some p fs n :
  lookup p fs = Some n -> path_exists p fs = true.
Proof. intros H. unfold path_exists. now rewrite H. Qed.

Lemma path_exists_none p fs :
  path_exists p fs = false <-> lookup p fs = None.
Proof. unfold path_exists. destruct (lookup p fs); split; congruence. Qed.

End EngineFacts.

(* ================================================================== *)
(** ** The size test of the engine: claims C1 to C4 *)
(* ================================================================== *)

Section SizeTest.
Import FS.
Local Abbreviation length := (@List.length string).

(** What the three branches leave behind, for a group whose variant-1
    file has been renamed and whose sibling is a regular file. *)
Lemma delete_branch lang_str p s fs1 forced_size data orig_size :
  In lang_str lang_strs ->
  Str.endswith (basename p) (variant1_marker lang_str) = true ->
  os_rename p (canonical_path lang_str p) (tree s) = Ok fs1 ->
  lookup (sibling_path lang_str p) fs1 = Some (File forced_size data) ->
  stat_size (canonical_path lang_str p) fs1 = Ok orig_size ->
  dir_writable (dirname (sibling_path lang_str p)) fs1 = true ->
  (orig_size <= forced_size)%Z ->
  exists fs2,
    rename_forced_subs_body lang_str p s
    = Return tt (mkState fs2 (logs s ++ [rec_larger])) /\
    lookup (sibling_path lang_str p) fs2 = None /\
    lookup p fs2 = None /\
    lookup (canonical_path lang_str p) fs2 = lookup p (tree s) /\
    (forall q, length q = length p -> q <> sibling_path lang_str p ->
               lookup q fs2 = lookup q fs1).
Proof.
  intros Hlang Hend Hren Hsib Horig Hw Hsz.
  pose proof (PathFacts.canonical_neq_orig lang_str p Hlang Hend) as Hpc.
  pose proof (PathFacts.canonical_neq_sibling lang_str p Hlang Hend) as Hcs.
  pose proof (PathFacts.canonical_length lang_str p) as Hlc.
  pose proof (PathFacts.sibling_length lang_str p) as Hls.
  destruct (FSFacts.lookup_rename _ _ _ _ Hren Hpc (eq_sym Hlc))
    as (Hdst & Hsrc & _).
  unfold dir_writable in Hw.
  destruct (lookup (dirname (sibling_path lang_str p)) fs1)
    as [[|w es]|] eqn:Hd; try discriminate. subst w.
  pose proof (FSFacts.os_unlink_file _ _ _ _ _ Hsib Hd) as Hun.
  exists (put (sibling_path lang_str p) None fs1).
  rewrite EngineFacts.body_run. cbv zeta.
  rewrite Hren, (EngineFacts.path_exists_some _ _ _ Hsib),
    (EngineFacts.stat_size_file _ _ _ _ Hsib), Horig.
  apply Z.leb_le in Hsz. rewrite Hsz, Hun.
  split; [reflexivity|]. split; [|split; [|split]].
  - eapply FSFacts.lookup_unlink_same; eauto.
  - destruct (FSFacts.path_eq_dec (sibling_path lang_str p) p) as [E|E].
    + rewrite <- E at 1. eapply FSFacts.lookup_unlink_same; eauto.
    + rewrite (FSFacts.lookup_unlink_other _ _ _ _ Hun); auto.
  - rewrite (FSFacts.lookup_unlink_other _ _ _ _ Hun); auto. congruence.
  - intros q Hq Hne.
    apply (FSFacts.lookup_unlink_other _ _ _ _ Hun); [congruence|auto].
Qed.

Lemma warning_branch lang_str p s fs1 forced_size data orig_size :
  os_rename p (canonical_path lang_str p) (tree s) = Ok fs1 ->
  lookup (sibling_path lang_str p) fs1 = Some (File forced_size data) ->
  stat_size (canonical_path lang_str p) fs1 = Ok orig_size ->
  (forced_size < orig_size)%Z ->
  PyFloat.gt_times_0_4 forced_size orig_size = true ->
  rename_forced_subs_body lang_str p s
  = Return tt (mkState fs1 (logs s ++ [rec_big (sibling_path lang_str p)])).
Proof.
  intros Hren Hsib Horig Hsz Hgt.
  rewrite EngineFacts.body_run. cbv zeta.
  rewrite Hren, (EngineFacts.path_exists_some _ _ _ Hsib),
    (EngineFacts.stat_size_file _ _ _ _ Hsib), Horig.
  apply Z.leb_gt in Hsz. now rewrite Hsz, Hgt.
Qed.

Lemma forced_branch lang_str p s fs1 fs2 forced_size data orig_size :
  In lang_str lang_strs ->
  Str.endswith (basename p) (variant1_marker lang_str) = true ->
  os_rename p (canonical_path lang_str p) (tree s) = Ok fs1 ->
  lookup (sibling_path lang_str p) fs1 = Some (File forced_size data) ->
  stat_size (canonical_path lang_str p) fs1 = Ok orig_size ->
  (forced_size < orig_size)%Z ->
  PyFloat.gt_times_0_4 forced_size orig_size = false ->
  os_rename (sibling_path lang_str p)
    (forced_path lang_str (sibling_path lang_str p)) fs1 = Ok fs2 ->
  rename_forced_subs_body lang_str p s = Return tt (mkState fs2 (logs s)) /\
  lookup (forced_path lang_str (sibling_path lang_str p)) fs2
  = Some (File forced_size data) /\
  lookup (sibling_path lang_str p) fs2 = None.
Proof.
  intros Hlang Hend Hren Hsib Horig Hsz Hgt Hren2.
  pose proof (PathFacts.forced_neq_sibling lang_str p Hlang Hend) as Hsf.
  pose proof (PathFacts.forced_length lang_str (sibling_path lang_str p)) as Hlf.
  destruct (FSFacts.lookup_rename _ _ _ _ Hren2 Hsf (eq_sym Hlf))
    as (Hdst & Hsrc & _).
  rewrite EngineFacts.body_run. cbv zeta.
  rewrite Hren, (EngineFacts.path_exists_some _ _ _ Hsib),
    (EngineFacts.stat_size_file _ _ _ _ Hsib), Horig.
  apply Z.leb_gt in Hsz. rewrite Hsz, Hgt, Hren2.
  repeat split; congruence.
Qed.

(** The rename of variant-1 leaves the sibling as it was. *)
Lemma sibling_untouched lang_str p fs fs1 :
  In lang_str lang_strs ->
  Str.endswith (basename p) (variant1_marker lang_str) = true ->
  os_rename p (canonical_path lang_str p) fs = Ok fs1 ->
  lookup (sibling_path lang_str p) fs1 = lookup (sibling_path lang_str p) fs.
Proof.
  intros Hlang Hend Hren.
  pose proof (PathFacts.canonical_neq_orig lang_str p Hlang Hend) as Hpc.
  pose proof (PathFacts.canonical_length lang_str p) as Hlc.
  destruct (FSFacts.lookup_rename _ _ _ _ Hren Hpc (eq_sym Hlc))
    as (_ & _ & Hrest).
  apply Hrest.
  - apply PathFacts.sibling_length.
  - now apply PathFacts.sibling_neq_orig.
  - intros E. now apply (PathFacts.canonical_neq_sibling lang_str p).
Qed.

(** C1, as stated, fails: with a variant-1 file of 1000 bytes and a
    sibling of 999 bytes the test [forced_size >= orig_size] is false,
    the sibling is not deleted; it is still there, with its contents,
    and the engine has logged the warning of the ambiguous band. *)
Lemma C1_counterexample :
  discovered ["m"] "en" ["m"; "a.1.en.srt"] (pair_state 1000 999) /\
  lookup ["m"; "a.1.en.srt"] (tree (pair_state 1000 999))
  = Some (File 1000 "original") /\
  lookup ["m"; "a.2.en.srt"] (tree (pair_state 1000 999))
  = Some (File 999 "forced") /\
  exists s',
    rename_forced_subs_body "en" ["m"; "a.1.en.srt"] (pair_state 1000 999)
    = Return tt s' /\
    lookup ["m"; "a.2.en.srt"] (tree s') = Some (File 999 "forced") /\
    logs s' = [rec_big ["m"; "a.2.en.srt"]].
Proof.
  split; [vm_compute; auto|]. split; [reflexivity|]. split; [reflexivity|].
  eexists. split; [vm_compute; reflexivity|]. split; reflexivity.
Qed.

(** C1, amended: for a discovered variant-1 file of 999 bytes whose
    sibling has 1000 bytes the engine deletes the sibling and keeps the
    original under its canonical name; for a variant-1 file of 1000
    bytes whose sibling has 999 bytes it deletes nothing: the sibling
    stays where it is and a warning names it. *)
Theorem C1_boundary_sizes content_dir lang_str p s fs1 forced_size data orig_size :
  In lang_str lang_strs ->
  discovered content_dir lang_str p s ->
  os_rename p (canonical_path lang_str p) (tree s) = Ok fs1 ->
  lookup (sibling_path lang_str p) fs1 = Some (File forced_size data) ->
  stat_size (canonical_path lang_str p) fs1 = Ok orig_size ->
  dir_writable (dirname (sibling_path lang_str p)) fs1 = true ->
  (orig_size = 999%Z -> forced_size = 1000%Z ->
   exists fs2,
     rename_forced_subs_body lang_str p s
     = Return tt (mkState fs2 (logs s ++ [rec_larger])) /\
     lookup (sibling_path lang_str p) fs2 = None /\
     lookup (canonical_path lang_str p) fs2 = lookup p (tree s)) /\
  (orig_size = 1000%Z -> forced_size = 999%Z ->
   rename_forced_subs_body lang_str p s
   = Return tt (mkState fs1 (logs s ++ [rec_big (sibling_path lang_str p)])) /\
   lookup (sibling_path lang_str p) fs1 = Some (File 999 data)).
Proof.
  intros Hlang Hdisc Hren Hsib Horig Hw.
  pose proof (PathFacts.discovered_endswith _ _ _ _ Hdisc) as Hend.
  split; intros -> ->.
  - destruct (delete_branch lang_str p s fs1 1000 data 999)
      as (fs2 & Hrun & Hgone & _ & Hcan & _); auto; [lia|].
    exists fs2. auto.
  - split; [|assumption].
    eapply warning_branch; eauto; try lia; reflexivity.
Qed.

Lemma C1_boundary_sizes_witness :
  (exists fs2,
     rename_forced_subs_body "en" ["m"; "a.1.en.srt"] (pair_state 999 1000)
     = Return tt (mkState fs2 [rec_larger]) /\
     lookup ["m"; "a.2.en.srt"] fs2 = None /\
     lookup ["m"; "a.eng.srt"] fs2 = Some (File 999 "original")) /\
  (rename_forced_subs_body "en" ["m"; "a.1.en.srt"] (pair_state 1000 999)
   = Return tt (mkState (library [("a.2.en.srt", File 999 "forced");
                                  ("a.eng.srt", File 1000 "original")])
                  [rec_big ["m"; "a.2.en.srt"]]) /\
   lookup ["m"; "a.2.en.srt"]
     (library [("a.2.en.srt", File 999 "forced");
               ("a.eng.srt", File 1000 "original")])
   = Some (File 999 "forced")).
Proof.
  split.
  - apply (C1_boundary_sizes ["m"] "en" ["m"; "a.1.en.srt"] (pair_state 999 1000)
             (library [("a.2.en.srt", File 1000 "forced");
                       ("a.eng.srt", File 999 "original")])
             1000%Z "forced" 999%Z);
      try reflexivity; vm_compute; auto.
  - apply (C1_boundary_sizes ["m"] "en" ["m"; "a.1.en.srt"] (pair_state 1000 999)
             (library [("a.2.en.srt", File 999 "forced");
                       ("a.eng.srt", File 1000 "original")])
             999%Z "forced" 1000%Z);
      try reflexivity; vm_compute; auto.
Defined.

(** C3: for a discovered group whose sibling is a file not smaller than
    the renamed variant-1 file, the engine logs its decision and
    unlinks the sibling.  Afterwards the sibling path and the variant-1
    path are free, the canonical path holds the file that variant-1
    was, and no other name of the directory level has changed since the
    rename of variant-1: the sibling has not been renamed. *)
Theorem C3_not_smaller_is_deleted content_dir lang_str p s fs1 forced_size data orig_size :
  In lang_str lang_strs ->
  discovered content_dir lang_str p s ->
  os_rename p (canonical_path lang_str p) (tree s) = Ok fs1 ->
  lookup (sibling_path lang_str p) fs1 = Some (File forced_size data) ->
  stat_size (canonical_path lang_str p) fs1 = Ok orig_size ->
  dir_writable (dirname (sibling_path lang_str p)) fs1 = true ->
  (orig_size <= forced_size)%Z ->
  exists fs2,
    rename_forced_subs_body lang_str p s
    = Return tt (mkState fs2 (logs s ++ [rec_larger])) /\
    os_unlink (sibling_path lang_str p) fs1 = Ok fs2 /\
    lookup (sibling_path lang_str p) fs2 = None /\
    lookup p fs2 = None /\
    lookup (canonical_path lang_str p) fs2 = lookup p (tree s) /\
    (forall q, length q = length p -> q <> sibling_path lang_str p ->
               lookup q fs2 = lookup q fs1).
Proof.
  intros Hlang Hdisc Hren Hsib Horig Hw Hsz.
  pose proof (PathFacts.discovered_endswith _ _ _ _ Hdisc) as Hend.
  destruct (delete_branch lang_str p s fs1 forced_size data orig_size)
    as (fs2 & Hrun & Hgone & Hp & Hcan & Hrest); auto.
  exists fs2. repeat split; auto.
  rewrite EngineFacts.body_run in Hrun. cbv zeta in Hrun.
  rewrite Hren, (EngineFacts.path_exists_some _ _ _ Hsib),
    (EngineFacts.stat_size_file _ _ _ _ Hsib), Horig in Hrun.
  apply Z.leb_le in Hsz. rewrite Hsz in Hrun.
  destruct (os_unlink (sibling_path lang_str p) fs1); [|discriminate].
  now inversion Hrun.
Qed.

Lemma C3_not_smaller_is_deleted_witness :
  exists fs2,
    rename_forced_subs_body "en" ["m"; "a.1.en.srt"] (pair_state 1000 1000)
    = Return tt (mkState fs2 [rec_larger]) /\
    fs2 = library [("a.eng.srt", File 1000 "original")].
Proof.
  destruct (C3_not_smaller_is_deleted ["m"] "en" ["m"; "a.1.en.srt"]
              (pair_state 1000 1000)
              (library [("a.2.en.srt", File 1000 "forced");
                        ("a.eng.srt", File 1000 "original")])
              1000%Z "forced" 1000%Z) as (fs2 & Hrun & Hun & _);
    try reflexivity; try (vm_compute; auto; fail); try lia.
  exists fs2. split; [exact Hrun|].
  vm_compute in Hun. now inversion Hun.
Defined.

(** C2, as stated, fails at both ends of the size range.  Two empty
    files are in the ratio of four tenths, and the first test
    [forced_size >= orig_size] deletes the sibling.  And for an
    original of 53567463931695555 bytes the double [orig_size * 0.4]
    is rounded below the sibling's 21426985572678222 bytes: the engine
    takes the warning branch and renames nothing. *)
Lemma C2_counterexample :
  ((5 * 0 = 2 * 0)%Z /\
   exists s',
     rename_forced_subs_body "en" ["m"; "a.1.en.srt"] (pair_state 0 0)
     = Return tt s' /\
     lookup ["m"; "a.eng.forced.srt"] (tree s') = None /\
     lookup ["m"; "a.2.en.srt"] (tree s') = None /\
     logs s' = [rec_larger]) /\
  ((5 * 21426985572678222 = 2 * 53567463931695555)%Z /\
   exists s',
     rename_forced_subs_body "en" ["m"; "a.1.en.srt"]
       (pair_state 53567463931695555 21426985572678222)
     = Return tt s' /\
     lookup ["m"; "a.eng.forced.srt"] (tree s') = None /\
     lookup ["m"; "a.2.en.srt"] (tree s')
     = Some (File 21426985572678222 "forced") /\
     logs s' = [rec_big ["m"; "a.2.en.srt"]]).
Proof.
  split; (split; [reflexivity|]);
    (eexists; split; [vm_compute; reflexivity|]); repeat split; reflexivity.
Qed.

(** C2, amended: for a discovered group whose variant-1 file is not
    empty and smaller than 2^53 bytes and whose sibling has exactly
    four tenths of its size, the engine takes neither the delete nor
    the warning branch: it renames the sibling to the forced name and
    logs nothing, and after the rename the forced name holds the
    sibling's file and the sibling path is free. *)
Theorem C2_exact_ratio_is_forced content_dir lang_str p s fs1 forced_size data orig_size :
  In lang_str lang_strs ->
  discovered content_dir lang_str p s ->
  os_rename p (canonical_path lang_str p) (tree s) = Ok fs1 ->
  lookup (sibling_path lang_str p) fs1 = Some (File forced_size data) ->
  stat_size (canonical_path lang_str p) fs1 = Ok orig_size ->
  (0 < orig_size < 2 ^ 53)%Z ->
  (5 * forced_size = 2 * orig_size)%Z ->
  rename_forced_subs_body lang_str p s
  = match os_rename (sibling_path lang_str p)
            (forced_path lang_str (sibling_path lang_str p)) fs1 with
    | Ok fs2 => Return tt (mkState fs2 (logs s))
    | Err e => Raise e (mkState fs1 (logs s))
    end /\
  forall fs2,
    os_rename (sibling_path lang_str p)
      (forced_path lang_str (sibling_path lang_str p)) fs1 = Ok fs2 ->
    lookup (forced_path lang_str (sibling_path lang_str p)) fs2
    = Some (File forced_size data) /\
    lookup (sibling_path lang_str p) fs2 = None.
Proof.
  intros Hlang Hdisc Hren Hsib Horig Hrange Hratio.
  pose proof (PathFacts.discovered_endswith _ _ _ _ Hdisc) as Hend.
  assert (Hgt : PyFloat.gt_times_0_4 forced_size orig_size = false)
    by (apply PyFloatFacts.gt_times_0_4_false; lia).
  split.
  - rewrite EngineFacts.body_run. cbv zeta.
    rewrite Hren, (EngineFacts.path_exists_some _ _ _ Hsib),
      (EngineFacts.stat_size_file _ _ _ _ Hsib), Horig.
    assert (Hsz : (orig_size <=? forced_size)%Z = false)
      by (apply Z.leb_gt; lia).
    now rewrite Hsz, Hgt.
  - intros fs2 Hren2.
    eapply forced_branch with (orig_size := orig_size); eauto. lia.
Qed.

Lemma C2_exact_ratio_is_forced_witness :
  rename_forced_subs_body "en" ["m"; "a.1.en.srt"] (pair_state 1000 400)
  = Return tt (mkState (library [("a.eng.srt", File 1000 "original");
                                 ("a.eng.forced.srt", File 400 "forced")]) []).
Proof.
  refine (proj1 (C2_exact_ratio_is_forced ["m"] "en" ["m"; "a.1.en.srt"]
                   (pair_state 1000 400)
                   (library [("a.2.en.srt", File 400 "forced");
                             ("a.eng.srt", File 1000 "original")])
                   400%Z "forced" 1000%Z _ _ _ _ _ _ _));
    try reflexivity; try (vm_compute; auto; fail); try lia.
Defined.

(** C4, as stated, fails for very large files: with an original of
    3573537775756222 bytes and a sibling of 1429415110302489 bytes,
    strictly between four tenths of the original and the original, the
    double [orig_size * 0.4] is rounded up to the sibling's size, the
    test [forced_size > orig_size * 0.4] is false, and the engine
    renames the sibling without a warning. *)
Lemma C4_counterexample :
  (2 * 3573537775756222 < 5 * 1429415110302489)%Z /\
  (1429415110302489 < 3573537775756222)%Z /\
  exists s',
    rename_forced_subs_body "en" ["m"; "a.1.en.srt"]
      (pair_state 3573537775756222 1429415110302489)
    = Return tt s' /\
    lookup ["m"; "a.2.en.srt"] (tree s') = None /\
    lookup ["m"; "a.eng.forced.srt"] (tree s')
    = Some (File 1429415110302489 "forced") /\
    logs s' = [].
Proof.
  split; [reflexivity|]. split; [reflexivity|].
  eexists; split; [vm_compute; reflexivity|]. repeat split; reflexivity.
Qed.

(** C4, amended: for a discovered group whose variant-1 file is
    smaller than 2^51 bytes and whose sibling is a file with a size
    strictly between four tenths of it and all of it, the engine logs
    one warning that names the sibling and changes nothing else: the
    tree is the one the rename of variant-1 left, and the sibling is at
    its path as it was before the group was processed. *)
Theorem C4_ambiguous_band_untouched content_dir lang_str p s fs1 forced_size data orig_size :
  In lang_str lang_strs ->
  discovered content_dir lang_str p s ->
  os_rename p (canonical_path lang_str p) (tree s) = Ok fs1 ->
  lookup (sibling_path lang_str p) fs1 = Some (File forced_size data) ->
  stat_size (canonical_path lang_str p) fs1 = Ok orig_size ->
  (orig_size < 2 ^ 51)%Z ->
  (2 * orig_size < 5 * forced_size)%Z ->
  (forced_size < orig_size)%Z ->
  rename_forced_subs_body lang_str p s
  = Return tt
      (mkState fs1
         (logs s ++ [mkRecord WARNING msg_big [str (sibling_path lang_str p)]])) /\
  lookup (sibling_path lang_str p) fs1 = Some (File forced_size data) /\
  lookup (sibling_path lang_str p) (tree s) = Some (File forced_size data).
Proof.
  intros Hlang Hdisc Hren Hsib Horig Hrange Hlow Hhigh.
  pose proof (PathFacts.discovered_endswith _ _ _ _ Hdisc) as Hend.
  split; [|split; [assumption|]].
  - apply (warning_branch lang_str p s fs1 forced_size data orig_size); auto.
    apply PyFloatFacts.gt_times_0_4_true; lia.
  - now rewrite <- (sibling_untouched lang_str p (tree s) fs1).
Qed.

Lemma C4_ambiguous_band_untouched_witness :
  rename_forced_subs_body "en" ["m"; "a.1.en.srt"] (pair_state 1000 401)
  = Return tt (mkState (library [("a.2.en.srt", File 401 "forced");
                                 ("a.eng.srt", File 1000 "original")])
                 [rec_big ["m"; "a.2.en.srt"]]) /\
  lookup ["m"; "a.2.en.srt"] (tree (pair_state 1000 401))
  = Some (File 401 "forced").
Proof.
  refine (let H := C4_ambiguous_band_untouched ["m"] "en" ["m"; "a.1.en.srt"]
                      (pair_state 1000 401)
                      (library [("a.2.en.srt", File 401 "forced");
                                ("a.eng.srt", File 1000 "original")])
                      401%Z "forced" 1000%Z _ _ _ _ _ _ _ _ in
          conj (proj1 H) (proj2 (proj2 H)));
    try reflexivity; try (vm_compute; auto; fail); try lia.
Defined.

End SizeTest.

(* ================================================================== *)
(** ** Canonicalisation of variant-1: claims C5 and C10 *)
(* ================================================================== *)

Section Canonicalise.
Import FS.
Local Abbreviation length := (@List.length string).

(** C5: a discovered variant-1 file is renamed first, whatever comes
    after: a failing rename ends the group with that error, and a
    successful one frees the old path and puts the file under the
    canonical name.  The sibling path is computed from the path as it
    was discovered, by replacing the variant-1 marker with the
    variant-2 marker, and looked up after the rename.  When nothing is
    there, the group ends without an error, with the tree the rename
    left and nothing added to the log. *)
Theorem C5_variant1_renamed_first content_dir lang_str p s :
  In lang_str lang_strs ->
  discovered content_dir lang_str p s ->
  let marker1 := (".1." ++ lang_str ++ ".srt")%string in
  let marker2 := (".2." ++ lang_str ++ ".srt")%string in
  (forall e,
      os_rename p (path_replace p marker1 ".eng.srt") (tree s) = Err e ->
      rename_forced_subs_body lang_str p s = Raise e s) /\
  (forall fs1,
      os_rename p (path_replace p marker1 ".eng.srt") (tree s) = Ok fs1 ->
      lookup p fs1 = None /\
      lookup (path_replace p marker1 ".eng.srt") fs1 = lookup p (tree s) /\
      lookup (path_replace p marker1 marker2) fs1
      = lookup (path_replace p marker1 marker2) (tree s) /\
      (path_exists (path_replace p marker1 marker2) fs1 = false ->
       rename_forced_subs_body lang_str p s = Return tt (mkState fs1 (logs s)))).
Proof.
  intros Hlang Hdisc marker1 marker2.
  pose proof (PathFacts.discovered_endswith _ _ _ _ Hdisc) as Hend.
  fold (variant1_marker lang_str) in marker1.
  fold (variant2_marker lang_str) in marker2. subst marker1 marker2.
  fold (canonical_path lang_str p). fold (sibling_path lang_str p).
  split.
  - intros e Hren. rewrite EngineFacts.body_run. cbv zeta. now rewrite Hren.
  - intros fs1 Hren.
    pose proof (PathFacts.canonical_neq_orig lang_str p Hlang Hend) as Hpc.
    pose proof (PathFacts.canonical_length lang_str p) as Hlc.
    destruct (FSFacts.lookup_rename _ _ _ _ Hren Hpc (eq_sym Hlc))
      as (Hdst & Hsrc & _).
    repeat split; auto.
    + apply (sibling_untouched lang_str p (tree s) fs1); auto.
    + intros Hno. rewrite EngineFacts.body_run. cbv zeta.
      now rewrite Hren, Hno.
Qed.

Lemma C5_variant1_renamed_first_witness :
  rename_forced_subs_body "en" ["m"; "a.1.en.srt"] single_state
  = Return tt (mkState (library [("a.eng.srt", File 1000 "original")]) []).
Proof.
  refine (proj2 (proj2 (proj2
            (proj2 (C5_variant1_renamed_first ["m"] "en" ["m"; "a.1.en.srt"]
                      single_state _ _)
               (library [("a.eng.srt", File 1000 "original")]) _))) _);
    try reflexivity; vm_compute; auto.
Defined.

(** C10: the engine renames without looking at the destination.  When
    a regular file already has the canonical name, the rename of a
    discovered variant-1 file succeeds and the canonical name holds the
    variant-1 file from then on; nothing is logged about it, and no
    other path of that depth changes, so the earlier contents are
    gone.  The same holds for the rename of a confidently forced
    sibling onto an existing forced name. *)
Theorem C10_rename_replaces_destination content_dir lang_str p s :
  In lang_str lang_strs ->
  discovered content_dir lang_str p s ->
  (forall sz data sz' data' es es',
      lookup p (tree s) = Some (File sz data) ->
      lookup (canonical_path lang_str p) (tree s) = Some (File sz' data') ->
      lookup (dirname p) (tree s) = Some (Dir true es) ->
      lookup (dirname (canonical_path lang_str p)) (tree s) = Some (Dir true es') ->
      exists fs1,
        os_rename p (canonical_path lang_str p) (tree s) = Ok fs1 /\
        lookup (canonical_path lang_str p) fs1 = Some (File sz data) /\
        lookup p fs1 = None /\
        (forall q, length q = length p -> q <> p ->
                   q <> canonical_path lang_str p ->
                   lookup q fs1 = lookup q (tree s)) /\
        (path_exists (sibling_path lang_str p) fs1 = false ->
         rename_forced_subs_body lang_str p s
         = Return tt (mkState fs1 (logs s)))) /\
  (forall fs1 forced_size data orig_size sz' data' es es',
      os_rename p (canonical_path lang_str p) (tree s) = Ok fs1 ->
      lookup (sibling_path lang_str p) fs1 = Some (File forced_size data) ->
      stat_size (canonical_path lang_str p) fs1 = Ok orig_size ->
      (forced_size < orig_size)%Z ->
      PyFloat.gt_times_0_4 forced_size orig_size = false ->
      lookup (forced_path lang_str (sibling_path lang_str p)) fs1
      = Some (File sz' data') ->
      lookup (dirname (sibling_path lang_str p)) fs1 = Some (Dir true es) ->
      lookup (dirname (forced_path lang_str (sibling_path lang_str p))) fs1
      = Some (Dir true es') ->
      exists fs2,
        rename_forced_subs_body lang_str p s = Return tt (mkState fs2 (logs s)) /\
        lookup (forced_path lang_str (sibling_path lang_str p)) fs2
        = Some (File forced_size data) /\
        lookup (sibling_path lang_str p) fs2 = None).
Proof.
  intros Hlang Hdisc.
  pose proof (PathFacts.discovered_endswith _ _ _ _ Hdisc) as Hend.
  split.
  - intros sz data sz' data' es es' Hp Hc Hdp Hdc.
    pose proof (PathFacts.canonical_neq_orig lang_str p Hlang Hend) as Hpc.
    pose proof (PathFacts.canonical_length lang_str p) as Hlc.
    assert (Hren : os_rename p (canonical_path lang_str p) (tree s)
                   = Ok (put (canonical_path lang_str p) (Some (File sz data))
                           (put p None (tree s)))).
    { eapply EngineFacts.os_rename_file; eauto. intros w0 es0. congruence. }
    eexists. split; [exact Hren|].
    destruct (FSFacts.lookup_rename _ _ _ _ Hren Hpc (eq_sym Hlc))
      as (Hdst & Hsrc & Hrest).
    repeat split; auto; [congruence|].
    intros Hno. rewrite EngineFacts.body_run. cbv zeta. now rewrite Hren, Hno.
  - intros fs1 forced_size data orig_size sz' data' es es'
      Hren Hsib Horig Hsz Hgt Hf Hds Hdf.
    pose proof (PathFacts.forced_neq_sibling lang_str p Hlang Hend) as Hsf.
    pose proof (PathFacts.forced_length lang_str (sibling_path lang_str p)) as Hlf.
    assert (Hren2 : os_rename (sibling_path lang_str p)
                      (forced_path lang_str (sibling_path lang_str p)) fs1
                    = Ok (put (forced_path lang_str (sibling_path lang_str p))
                            (Some (File forced_size data))
                            (put (sibling_path lang_str p) None fs1))).
    { eapply EngineFacts.os_rename_file; eauto. intros w0 es0. congruence. }
    eexists. eapply forced_branch; eauto.
Qed.

Lemma C10_rename_replaces_destination_witness :
  exists fs1,
    os_rename ["m"; "a.1.en.srt"] ["m"; "a.eng.srt"] (tree taken_state) = Ok fs1 /\
    lookup ["m"; "a.eng.srt"] (tree taken_state) = Some (File 7 "earlier") /\
    lookup ["m"; "a.eng.srt"] fs1 = Some (File 1000 "original").
Proof.
  destruct (proj1 (C10_rename_replaces_destination ["m"] "en"
                     ["m"; "a.1.en.srt"] taken_state
                     (or_introl eq_refl)
                     (or_introl eq_refl))
              1000%Z "original" 7%Z "earlier"
              [("a.1.en.srt", File 1000 "original"); ("a.eng.srt", File 7 "earlier")]
              [("a.1.en.srt", File 1000 "original"); ("a.eng.srt", File 7 "earlier")]
              eq_refl eq_refl eq_refl eq_refl)
    as (fs1 & Hren & Hc & _).
  exists fs1. repeat split; [exact Hren|exact Hc].
Defined.

End Canonicalise.

(* ================================================================== *)
(** ** The language-tag pass: claim C8 *)
(* ================================================================== *)

Section LanguageTag.
Import FS.
Local Abbreviation length := (@List.length string).

Lemma en_body_run f s :
  rename_en_to_eng_subs_body f s =
  let eng := path_replace f ".en.srt" ".eng.srt" in
  if path_exists eng (tree s) then
    let lg := logs s ++ [mkRecord INFO msg_eng_exists [str eng]] in
    match os_unlink f (tree s) with
    | Ok fs' => Return tt (mkState fs' lg)
    | Err e => Raise e (mkState (tree s) lg)
    end
  else
    let lg := logs s ++ [mkRecord INFO msg_eng_missing [str eng]] in
    match os_rename f eng (tree s) with
    | Ok fs' => Return tt (mkState fs' lg)
    | Err e => Raise e (mkState (tree s) lg)
    end.
Proof.
  destruct s as [fs lg].
  unfold rename_en_to_eng_subs_body, bind, logger_debug, logger_info,
    logger_log, rename, unlink, sys, exists_, ret.
  cbn [tree logs level_no logger_level Nat.leb].
  destruct (path_exists _ fs); cbn [tree logs].
  - destruct (os_unlink f fs); reflexivity.
  - destruct (os_rename f _ fs); reflexivity.
Qed.

(** C8: for a regular file that the glob [**/*.en.srt] yields, in a
    directory that can be written.  If the three-letter name exists,
    whatever is there and whatever the sizes, the two-letter file is
    unlinked and the three-letter name holds what it held.  If it does
    not exist, the file is renamed to the three-letter name. *)
Theorem C8_en_deleted_or_renamed content_dir f s sz data es :
  In f (glob_suffix content_dir ".en.srt" (tree s)) ->
  lookup f (tree s) = Some (File sz data) ->
  lookup (dirname f) (tree s) = Some (Dir true es) ->
  let eng := path_replace f ".en.srt" ".eng.srt" in
  (forall n,
      lookup eng (tree s) = Some n ->
      exists fs',
        rename_en_to_eng_subs_body f s
        = Return tt (mkState fs' (logs s ++ [mkRecord INFO msg_eng_exists [str eng]])) /\
        lookup f fs' = None /\
        lookup eng fs' = Some n) /\
  (forall es',
      lookup eng (tree s) = None ->
      lookup (dirname eng) (tree s) = Some (Dir true es') ->
      exists fs',
        rename_en_to_eng_subs_body f s
        = Return tt (mkState fs' (logs s ++ [mkRecord INFO msg_eng_missing [str eng]])) /\
        lookup f fs' = None /\
        lookup eng fs' = Some (File sz data)).
Proof.
  intros Hglob Hf Hd eng.
  pose proof (FSFacts.glob_suffix_endswith _ _ _ _ Hglob) as Hend.
  assert (Hne : f <> eng).
  { intros E. symmetry in E. revert E.
    apply PathFacts.path_replace_length_neq; [simpl; lia|simpl; lia|assumption]. }
  assert (Hlen : length f = length eng)
    by (symmetry; apply PathFacts.path_replace_length).
  split.
  - intros n Hn.
    pose proof (FSFacts.os_unlink_file _ _ _ _ _ Hf Hd) as Hun.
    exists (put f None (tree s)).
    rewrite en_body_run. cbv zeta. fold eng.
    rewrite (EngineFacts.path_exists_some _ _ _ Hn), Hun.
    split; [reflexivity|]. split.
    + eapply FSFacts.lookup_unlink_same; eauto.
    + rewrite (FSFacts.lookup_unlink_other _ _ _ _ Hun); auto.
  - intros es' Hno Hde.
    assert (Hren : os_rename f eng (tree s)
                   = Ok (put eng (Some (File sz data)) (put f None (tree s)))).
    { eapply EngineFacts.os_rename_file; eauto. intros w0 es0. congruence. }
    eexists. rewrite en_body_run. cbv zeta. fold eng.
    apply EngineFacts.path_exists_none in Hno. rewrite Hno, Hren.
    split; [reflexivity|].
    destruct (FSFacts.lookup_rename _ _ _ _ Hren Hne Hlen) as (Hdst & Hsrc & _).
    split; congruence.
Qed.

Lemma C8_en_deleted_or_renamed_witness :
  (exists fs',
      rename_en_to_eng_subs_body ["m"; "b.en.srt"] (en_eng_state 900 3)
      = Return tt (mkState fs' [mkRecord INFO msg_eng_exists [str ["m"; "b.eng.srt"]]]) /\
      lookup ["m"; "b.en.srt"] fs' = None /\
      lookup ["m"; "b.eng.srt"] fs' = Some (File 3 "three")) /\
  (exists fs',
      rename_en_to_eng_subs_body ["m"; "b.en.srt"] en_state
      = Return tt (mkState fs' [mkRecord INFO msg_eng_missing [str ["m"; "b.eng.srt"]]]) /\
      lookup ["m"; "b.en.srt"] fs' = None /\
      lookup ["m"; "b.eng.srt"] fs' = Some (File 5 "two")).
Proof.
  split.
  - apply (proj1 (C8_en_deleted_or_renamed ["m"] ["m"; "b.en.srt"]
                    (en_eng_state 900 3) 900%Z "two"
                    [("b.en.srt", File 900 "two"); ("b.eng.srt", File 3 "three")]
                    (or_introl eq_refl) eq_refl eq_refl)
             (File 3 "three") eq_refl).
  - apply (proj2 (C8_en_deleted_or_renamed ["m"] ["m"; "b.en.srt"]
                    en_state 5%Z "two" [("b.en.srt", File 5 "two")]
                    (or_introl eq_refl) eq_refl eq_refl)
             [("b.en.srt", File 5 "two")] eq_refl eq_refl).
Defined.

End LanguageTag.


(* ================================================================== *)
(** ** Errors: claim C7 *)
(* ================================================================== *)

Section Errors.
Import FS.

Lemma try_rmdir_run d s :
  try_rmdir d s =
  match os_rmdir d (tree s) with
  | Ok fs' =>
      Return tt (mkState fs' (logs s ++ [mkRecord INFO "Deleted empty directory at '%s'." [str d]]))
  | Err _ => Return tt s
  end.
Proof.
  destruct s as [fs lg].
  unfold try_rmdir, try_except, bind, rmdir, sys, logger_info, logger_debug,
    logger_log.
  cbn [tree logs level_no logger_level Nat.leb].
  destruct (os_rmdir d fs); reflexivity.
Qed.

Lemma loop_returns content_dir dirs s :
  exists s', delete_empty_directories_loop content_dir dirs s = Return tt s'.
Proof.
  revert s; induction dirs as [|d dirs IH]; intros s; simpl.
  - eexists. reflexivity.
  - destruct (path_eqb d content_dir); [eexists; reflexivity|].
    unfold bind. rewrite try_rmdir_run.
    destruct (os_rmdir d (tree s)); apply IH.
Qed.

Lemma delete_empty_directories_returns content_dir s :
  exists s', delete_empty_directories content_dir s = Return tt s'.
Proof.
  unfold delete_empty_directories, bind, logger_info, logger_log, os_walk.
  cbn [level_no logger_level Nat.leb]. apply loop_returns.
Qed.

Lemma for_each_raise {A} (body : A -> M unit) l1 x l2 s s1 e s2 :
  for_each body l1 s = Return tt s1 ->
  body x s1 = Raise e s2 ->
  for_each body (l1 ++ x :: l2) s = Raise e s2.
Proof.
  revert s; induction l1 as [|y l1 IH]; intros s H1 H2; simpl in *.
  - unfold ret in H1. inversion H1; subst. unfold bind. now rewrite H2.
  - unfold bind in *. destruct (body y s) as [[] s'|e' s']; [|discriminate].
    now apply IH.
Qed.

Lemma delete_file_run f s :
  delete_file f s =
  match os_unlink f (tree s) with
  | Ok fs' => Return tt (mkState fs' (logs s))
  | Err e => Raise e s
  end.
Proof.
  destruct s as [fs lg].
  unfold delete_file, bind, logger_debug, logger_log, unlink, sys.
  cbn [tree logs level_no logger_level Nat.leb]. reflexivity.
Qed.

Lemma main_run content_dir s :
  main content_dir s =
  match rename_forced_subs content_dir (main_logged content_dir s) with
  | Raise e s' => Raise e s'
  | Return _ s1 =>
      match rename_en_to_eng_subs content_dir s1 with
      | Raise e s' => Raise e s'
      | Return _ s2 =>
          match delete_nfo_and_txt_files content_dir s2 with
          | Raise e s' => Raise e s'
          | Return _ s3 => delete_empty_directories content_dir s3
          end
      end
  end.
Proof.
  unfold main, bind at 1 2 3 4, logger_info at 1, logger_log, main_logged.
  cbn [level_no logger_level Nat.leb]. reflexivity.
Qed.

(** C7: the handler around [os.rmdir] is written for a directory that
    is not empty (its comment and its log line say so), but it is
    [except OSError] and catches whatever [os.rmdir] raises.  In
    [read_only_state] the directory [/m/ro/e] is empty and lies in a
    directory without write permission: [os.rmdir] fails with [EACCES],
    not with [ENOTEMPTY], and the pruning pass and [main] return all the
    same, with the directory still there and no record of the failure
    in the log.  The same [EACCES], raised by [unlink] in the metadata
    pass on [read_only_metadata_state], is caught nowhere: that pass and
    [main] end with it. *)
Theorem C7_permission_error_is_swallowed :
  lookup ["m"; "ro"; "e"] (tree read_only_state) = Some (Dir true []) /\
  os_rmdir ["m"; "ro"; "e"] (tree read_only_state) = Err EACCES /\
  In ["m"; "ro"; "e"] (os_walk_bottom_up ["m"] (tree read_only_state)) /\
  try_rmdir ["m"; "ro"; "e"] read_only_state = Return tt read_only_state /\
  delete_empty_directories ["m"] read_only_state
  = Return tt
      (mkState (tree read_only_state)
         [mkRecord INFO "Deleting empty directories for content dir: '%s'." [str ["m"]]]) /\
  main ["m"] read_only_state
  = Return tt (mkState (tree read_only_state) (idle_records ["m"])) /\
  os_unlink ["m"; "ro"; "x.nfo"] (tree read_only_metadata_state) = Err EACCES /\
  delete_nfo_and_txt_files ["m"] read_only_metadata_state
  = Raise EACCES
      (mkState (tree read_only_metadata_state)
         [mkRecord INFO "Deleting .nfo and .txt files for content dir: '%s'." [str ["m"]]]) /\
  main ["m"] read_only_metadata_state
  = Raise EACCES
      (mkState (tree read_only_metadata_state)
         [mkRecord INFO "Cleaning media for content dir: '%s'." [str ["m"]];
          mkRecord INFO "Renaming forced subs for content dir: '%s'." [str ["m"]];
          mkRecord INFO "Renaming en subs to eng subs for content dir: '%s'." [str ["m"]];
          mkRecord INFO "Deleting .nfo and .txt files for content dir: '%s'." [str ["m"]]]).
Proof.
  repeat split; try reflexivity. vm_compute. auto.
Qed.

End Errors.

(* ================================================================== *)
(** ** The pruning pass: claim C9 *)
(* ================================================================== *)

Module PruneFacts.
Import FS Prune.

(** Induction over a tree and the entries of its directories. *)
Lemma node_ind' (P : node -> Prop) :
  (forall sz data, P (File sz data)) ->
  (forall w es, Forall (fun e => P (snd e)) es -> P (Dir w es)) ->
  forall n, P n.
Proof.
  intros HF HD. fix IH 1. intros [sz data|w es]; [apply HF|apply HD].
  induction es as [|[c m] es IHes]; constructor; [apply IH|exact IHes].
Qed.

Lemma assoc_mid l1 c m l2 :
  ~ In c (map fst l1) -> assoc c (l1 ++ (c, m) :: l2) = Some m.
Proof.
  induction l1 as [|[k v] l1 IH]; simpl; intros Hn.
  - now rewrite String.eqb_refl.
  - destruct (String.eqb k c) eqn:E.
    + apply String.eqb_eq in E. tauto.
    + apply IH. tauto.
Qed.

Lemma del_notin c l : ~ In c (map fst l) -> del c l = l.
Proof.
  induction l as [|[k v] l IH]; simpl; intros Hn; [reflexivity|].
  destruct (String.eqb k c) eqn:E.
  - apply String.eqb_eq in E. tauto.
  - f_equal. apply IH. tauto.
Qed.

Lemma set_entry_mid l1 c m l2 o :
  ~ In c (map fst l1) -> ~ In c (map fst l2) ->
  set_entry c o (l1 ++ (c, m) :: l2)
  = l1 ++ match o with Some m' => [(c, m')] | None => [] end ++ l2.
Proof.
  intros H1 H2. induction l1 as [|[k v] l1 IH]; simpl.
  - rewrite String.eqb_refl, (del_notin c l2 H2). now destruct o.
  - simpl in H1. destruct (String.eqb k c) eqn:E.
    + apply String.eqb_eq in E. tauto.
    + f_equal. apply IH. tauto.
Qed.

Lemma dirname_cons c q : q <> [] -> dirname (c :: q) = c :: dirname q.
Proof. destruct q; [congruence|reflexivity]. Qed.

Lemma basename_cons c q : q <> [] -> basename (c :: q) = basename q.
Proof. destruct q; [congruence|reflexivity]. Qed.

Lemma dirname_app root q : q <> [] -> dirname (root ++ q) = root ++ dirname q.
Proof. intros H. now apply removelast_app. Qed.

Lemma basename_app root q : q <> [] -> basename (root ++ q) = basename q.
Proof.
  intros H. induction root as [|c root IH]; [reflexivity|].
  simpl app. rewrite basename_cons; [assumption|].
  destruct root; simpl; [assumption|discriminate].
Qed.

(** [rmdir] below an entry of a directory works inside that entry. *)
Lemma os_rmdir_in_child w l1 c mc l2 q :
  ~ In c (map fst l1) -> ~ In c (map fst l2) -> q <> [] ->
  os_rmdir (c :: q) (Dir w (l1 ++ (c, mc) :: l2)) =
  match os_rmdir q mc with
  | Ok mc' => Ok (Dir w (l1 ++ (c, mc') :: l2))
  | Err e => Err e
  end.
Proof.
  intros H1 H2 Hq. unfold os_rmdir, dir_writable, put.
  rewrite dirname_cons, basename_cons by assumption.
  cbn [lookup modify is_root]. rewrite (assoc_mid l1 c mc l2 H1).
  destruct (lookup q mc) as [[sz data|wq esq]|]; try reflexivity.
  destruct q as [|c' q']; [congruence|]. cbn [is_root].
  destruct (lookup (dirname (c' :: q')) mc) as [[|wd esd]|];
    cbn [negb]; try reflexivity.
  destruct wd; cbn [negb]; [|reflexivity].
  destruct esq; [|reflexivity].
  now rewrite set_entry_mid.
Qed.

(** [rmdir] of an entry of a directory. *)
Lemma os_rmdir_child w l1 c wc esc l2 :
  ~ In c (map fst l1) -> ~ In c (map fst l2) ->
  os_rmdir [c] (Dir w (l1 ++ (c, Dir wc esc) :: l2)) =
  if w then match esc with
            | [] => Ok (Dir w (l1 ++ l2))
            | _ :: _ => Err ENOTEMPTY
            end
  else Err EACCES.
Proof.
  intros H1 H2. unfold os_rmdir, dir_writable, put.
  cbn [lookup modify is_root dirname basename removelast last dir_set].
  rewrite (assoc_mid l1 c _ l2 H1).
  destruct w; cbn [negb]; [|reflexivity].
  destruct esc; [|reflexivity].
  now rewrite set_entry_mid.
Qed.

Lemma rmdir_pass_cons d ds fs :
  rmdir_pass (d :: ds) fs = rmdir_pass ds (rmdir_step fs d).
Proof. reflexivity. Qed.

Lemma rmdir_pass_in_child w l1 c l2 qs :
  ~ In c (map fst l1) -> ~ In c (map fst l2) ->
  Forall (fun q => q <> []) qs ->
  forall mc,
    rmdir_pass (map (cons c) qs) (Dir w (l1 ++ (c, mc) :: l2))
    = Dir w (l1 ++ (c, rmdir_pass qs mc) :: l2).
Proof.
  intros H1 H2 Hqs. induction Hqs as [|q qs Hq _ IH]; intros mc; [reflexivity|].
  cbn [map]. rewrite !rmdir_pass_cons.
  unfold rmdir_step. rewrite os_rmdir_in_child by assumption.
  destruct (os_rmdir q mc); apply IH.
Qed.

(** The walk below [top ++ q] is the walk below [q], seen from [top]. *)
Lemma walk_bottom_up_app top n :
  forall q, walk_bottom_up (top ++ q) n = map (app top) (walk_bottom_up q n).
Proof.
  induction n as [sz data|w es IH] using node_ind'; intros q; [reflexivity|].
  cbn [walk_bottom_up]. rewrite map_app. cbn [map]. f_equal.
  induction IH as [|[c m] es Hm _ IHes]; [reflexivity|].
  cbn [flat_map fst snd]. rewrite map_app, <- IHes. f_equal.
  rewrite <- app_assoc. apply Hm.
Qed.

Lemma walk_bottom_up_single c n :
  walk_bottom_up [c] n = map (cons c) (walk_bottom_up [] n).
Proof. apply (walk_bottom_up_app [c] n []). Qed.

Lemma walk_below_nonempty n : Forall (fun q => q <> []) (walk_below [] n).
Proof.
  unfold walk_below. apply Forall_forall. intros q Hq.
  apply in_flat_map in Hq as ([c m] & _ & Hq). cbn [fst snd app] in Hq.
  rewrite walk_bottom_up_single in Hq.
  apply in_map_iff in Hq as (q' & <- & _). discriminate.
Qed.

Lemma walk_bottom_up_dir top w es :
  walk_bottom_up top (Dir w es) = walk_below top (Dir w es) ++ [top].
Proof. reflexivity. Qed.

Lemma rmdir_pass_app l1 l2 fs :
  rmdir_pass (l1 ++ l2) fs = rmdir_pass l2 (rmdir_pass l1 fs).
Proof. apply fold_left_app. Qed.

(** The loop over the walk of a well-formed tree computes [prune]. *)
Lemma rmdir_pass_walk_below n :
  wf n -> rmdir_pass (walk_below [] n) n = prune n.
Proof.
  induction n as [sz data|w es IH] using node_ind'; intros Hwf; [reflexivity|].
  inversion Hwf as [|w' es' Hnd Hall]; subst.
  unfold walk_below. cbn [entries_of prune].
  enough (Hgen : forall todo done,
             NoDup (map fst (done ++ todo)) ->
             Forall (fun e => wf (snd e)) todo ->
             Forall (fun e => wf (snd e) ->
                              rmdir_pass (walk_below [] (snd e)) (snd e)
                              = prune (snd e)) todo ->
             rmdir_pass
               (flat_map (fun e => walk_bottom_up ([] ++ [fst e]) (snd e)) todo)
               (Dir w (done ++ todo))
             = Dir w (done ++ flat_map
                        (fun e => keep_entry w (fst e) (prune (snd e))) todo))
    by (apply (Hgen es []); assumption).
  clear. induction todo as [|[c mc] todo IHt]; intros done Hnd Hwf IH.
  - reflexivity.
  - inversion Hwf as [|? ? Hwc Hwt]; subst. inversion IH as [|? ? IHc IHt']; subst.
    cbn [fst snd] in Hwc, IHc. specialize (IHc Hwc).
    assert (Hnd' : forall x, NoDup (map fst ((done ++ [(c, x)]) ++ todo))).
    { intros x. rewrite <- app_assoc. cbn [app].
      rewrite map_app in *. cbn [map fst] in *. exact Hnd. }
    assert (Hc1 : ~ In c (map fst done) /\ ~ In c (map fst todo)).
    { rewrite map_app in Hnd. cbn [map fst] in Hnd.
      apply NoDup_remove_2 in Hnd. rewrite in_app_iff in Hnd. tauto. }
    destruct Hc1 as [Hc1 Hc2].
    cbn [flat_map fst snd app]. rewrite rmdir_pass_app.
    destruct mc as [sz data|wc esc].
    + cbn [walk_bottom_up rmdir_pass fold_left prune].
      unfold keep_entry at 1. cbn [is_empty_dir].
      rewrite andb_false_r. cbn [app].
      specialize (IHt (done ++ [(c, File sz data)]) (Hnd' _) Hwt IHt').
      rewrite <- !app_assoc in IHt. exact IHt.
    + rewrite walk_bottom_up_single, walk_bottom_up_dir, map_app, rmdir_pass_app.
      rewrite rmdir_pass_in_child; auto using walk_below_nonempty.
      rewrite IHc. cbn [map]. rewrite rmdir_pass_cons.
      change (rmdir_pass [] ?x) with x.
      unfold rmdir_step.
      cbn [prune]. rewrite os_rmdir_child by assumption.
      unfold keep_entry at 2. cbn [is_empty_dir prune].
      destruct w; cbn [andb].
      * destruct (flat_map _ esc) as [|e0 es0] eqn:Ees.
        -- cbn [app]. apply (IHt done); auto.
           rewrite map_app in *. cbn [map fst] in Hnd.
           now apply NoDup_remove_1 in Hnd.
        -- cbn [app].
           specialize (IHt (done ++ [(c, Dir wc (e0 :: es0))]) (Hnd' _) Hwt IHt').
           rewrite <- !app_assoc in IHt. exact IHt.
      * cbn [app].
        specialize (IHt (done ++ [(c, Dir wc (flat_map
                       (fun e => keep_entry wc (fst e) (prune (snd e))) esc))])
                      (Hnd' _) Hwt IHt').
        rewrite <- !app_assoc in IHt. exact IHt.
Qed.

(** [rmdir] below the content directory works inside its subtree. *)
Lemma rmdir_step_below root fs n q :
  lookup root fs = Some n -> q <> [] ->
  lookup root (rmdir_step fs (root ++ q)) = Some (rmdir_step n q).
Proof.
  intros Hn Hq. unfold rmdir_step, os_rmdir, dir_writable, put.
  rewrite dirname_app, basename_app by assumption.
  rewrite !FSFacts.lookup_app, Hn.
  destruct (lookup q n) as [[sz data|wq esq]|]; try assumption.
  assert (Hr : is_root (root ++ q) = false).
  { destruct root; [destruct q; [congruence|reflexivity]|reflexivity]. }
  assert (Hr' : is_root q = false) by (destruct q; [congruence|reflexivity]).
  rewrite Hr, Hr'.
  destruct (lookup (dirname q) n) as [[|wd esd]|]; cbn [negb]; try assumption.
  destruct wd; cbn [negb]; [|assumption].
  destruct esq; [|assumption].
  now rewrite FSFacts.modify_app, FSFacts.lookup_modify, Hn.
Qed.

Lemma rmdir_pass_below root qs :
  Forall (fun q => q <> []) qs ->
  forall fs n,
    lookup root fs = Some n ->
    lookup root (rmdir_pass (map (app root) qs) fs) = Some (rmdir_pass qs n).
Proof.
  induction 1 as [|q qs Hq _ IH]; intros fs n Hn; [assumption|].
  cbn [map]. rewrite !rmdir_pass_cons. apply IH.
  now apply rmdir_step_below.
Qed.

(** The loop runs through the directories before the content directory
    and stops there. *)
Lemma loop_run root dirs rest :
  Forall (fun d => d <> root) dirs ->
  forall s, exists lg,
    delete_empty_directories_loop root (dirs ++ root :: rest) s
    = Return tt (mkState (rmdir_pass dirs (tree s)) lg).
Proof.
  induction 1 as [|d dirs Hd _ IH]; intros s.
  - cbn [app delete_empty_directories_loop].
    assert (E : path_eqb root root = true) by now apply FSFacts.path_eqb_eq.
    rewrite E. exists (logs s). now destruct s.
  - cbn [app delete_empty_directories_loop].
    destruct (path_eqb d root) eqn:E.
    { apply FSFacts.path_eqb_eq in E. contradiction. }
    unfold bind. rewrite try_rmdir_run, rmdir_pass_cons. unfold rmdir_step.
    destruct (os_rmdir d (tree s)) as [fs'|e].
    + destruct (IH (mkState fs' (logs s ++ [mkRecord INFO "Deleted empty directory at '%s'." [str d]])))
        as [lg Hlg].
      exists lg. exact Hlg.
    + apply IH.
Qed.

(** The pass turns the subtree of the content directory into its
    pruned form. *)
Lemma delete_empty_directories_prune content_dir s w es :
  lookup content_dir (tree s) = Some (Dir w es) ->
  wf (Dir w es) ->
  exists s',
    delete_empty_directories content_dir s = Return tt s' /\
    lookup content_dir (tree s') = Some (prune (Dir w es)).
Proof.
  intros Hn Hwf.
  unfold delete_empty_directories, bind, logger_info, logger_log, os_walk,
    os_walk_bottom_up.
  cbn [level_no logger_level Nat.leb tree]. rewrite Hn.
  replace (walk_bottom_up content_dir (Dir w es))
    with (walk_bottom_up (content_dir ++ []) (Dir w es))
    by now rewrite app_nil_r.
  rewrite walk_bottom_up_app, walk_bottom_up_dir, map_app.
  cbn [map]. rewrite app_nil_r.
  pose proof (walk_below_nonempty (Dir w es)) as Hne.
  edestruct (loop_run content_dir (map (app content_dir) (walk_below [] (Dir w es))) [])
    as [lg Hlg].
  { apply Forall_forall. intros d Hd.
    apply in_map_iff in Hd as (q & <- & Hq).
    rewrite Forall_forall in Hne. specialize (Hne q Hq).
    intros E. rewrite <- (app_nil_r content_dir) in E at 2.
    apply app_inv_head in E. contradiction. }
  eexists. split; [exact Hlg|].
  cbn [tree]. rewrite (rmdir_pass_below content_dir _ Hne _ _ Hn).
  f_equal. now apply rmdir_pass_walk_below.
Qed.

(** *** What [prune] keeps and what it removes *)

Lemma assoc_keep_in w c es x :
  assoc c (flat_map (fun e => keep_entry w (fst e) (prune (snd e))) es) = Some x ->
  exists m, In (c, m) es /\ x = prune m /\ w && is_empty_dir x = false.
Proof.
  induction es as [|[k v] es IH]; cbn [flat_map fst snd]; [discriminate|].
  unfold keep_entry at 1.
  destruct (w && is_empty_dir (prune v)) eqn:E; cbn [app].
  - intros H. destruct (IH H) as (m & Hin & Hx). exists m. split; [now right|exact Hx].
  - cbn [assoc]. destruct (String.eqb k c) eqn:Ek.
    + apply String.eqb_eq in Ek. subst k. intros H. inversion H; subst.
      exists v. split; [now left|auto].
    + intros H. destruct (IH H) as (m & Hin & Hx).
      exists m. split; [now right|exact Hx].
Qed.

Lemma assoc_keep_some w c es m :
  assoc c es = Some m -> w && is_empty_dir (prune m) = false ->
  assoc c (flat_map (fun e => keep_entry w (fst e) (prune (snd e))) es)
  = Some (prune m).
Proof.
  induction es as [|[k v] es IH]; cbn [assoc flat_map fst snd]; [discriminate|].
  destruct (String.eqb k c) eqn:Ek.
  - intros H He. inversion H; subst. unfold keep_entry at 1. rewrite He.
    apply String.eqb_eq in Ek. subst k. cbn [app assoc].
    now rewrite String.eqb_refl.
  - intros H He. unfold keep_entry at 1.
    destruct (w && is_empty_dir (prune v)); cbn [app assoc];
      [|rewrite Ek]; now apply IH.
Qed.

(** No empty directory is left below the top of a pruned tree whose
    directories may all be written. *)
Lemma prune_no_empty_below n :
  all_writable n ->
  forall q w, q <> [] -> lookup q (prune n) <> Some (Dir w []).
Proof.
  induction n as [sz data|w0 es IH] using node_ind'; intros Haw q w Hq.
  - destruct q; [congruence|discriminate].
  - inversion Haw as [|es' Hall]; subst.
    destruct q as [|c q]; [congruence|].
    cbn [prune lookup].
    destruct (assoc c _) as [x|] eqn:Ex; [|discriminate].
    apply assoc_keep_in in Ex as (m & Hin & -> & He).
    rewrite Forall_forall in IH, Hall.
    destruct q as [|c' q'].
    + cbn [lookup]. intros E. inversion E as [E']. rewrite E' in He. discriminate.
    + apply (IH (c, m) Hin (Hall (c, m) Hin)). discriminate.
Qed.

(** Files stay where they are. *)
Lemma prune_keeps_files q :
  forall n sz data,
    lookup q n = Some (File sz data) -> lookup q (prune n) = Some (File sz data).
Proof.
  induction q as [|c q IH]; intros n sz data H.
  - cbn [lookup] in *. inversion H. reflexivity.
  - destruct n as [|w es]; [discriminate|]. cbn [lookup prune] in *.
    destruct (assoc c es) as [m|] eqn:Em; [|discriminate].
    specialize (IH m sz data H).
    rewrite (assoc_keep_some w c es m Em); [exact IH|].
    destruct (prune m) as [|w' [|e0 es0]]; cbn [is_empty_dir];
      try apply andb_false_r.
    destruct q; cbn [lookup] in IH; discriminate.
Qed.

End PruneFacts.

(** C9: on a content directory whose tree is well formed, the pruning
    pass returns, and the content directory is still there, as a
    directory, afterwards, whatever is left in it.  Its subtree is the
    pruned one: every file is where it was, and when the directories
    may all be written no empty directory is left anywhere strictly
    below the content directory, so every directory that was empty, or
    became empty when its subdirectories were removed before it, is
    gone. *)
Theorem C9_pruning_removes_empty_directories content_dir s w es :
  FS.lookup content_dir (tree s) = Some (Dir w es) ->
  Prune.wf (Dir w es) ->
  exists s',
    delete_empty_directories content_dir s = Return tt s' /\
    FS.lookup content_dir (tree s') = Some (Prune.prune (Dir w es)) /\
    (exists es', FS.lookup content_dir (tree s') = Some (Dir w es')) /\
    (forall q sz data,
        FS.lookup (content_dir ++ q) (tree s) = Some (File sz data) ->
        FS.lookup (content_dir ++ q) (tree s') = Some (File sz data)) /\
    (Prune.all_writable (Dir w es) ->
     forall q w', q <> [] ->
                  FS.lookup (content_dir ++ q) (tree s') <> Some (Dir w' [])).
Proof.
  intros Hn Hwf.
  destruct (PruneFacts.delete_empty_directories_prune content_dir s w es Hn Hwf)
    as (s' & Hrun & Hroot).
  exists s'. split; [exact Hrun|]. split; [exact Hroot|]. split; [|split].
  - rewrite Hroot. eexists. reflexivity.
  - intros q sz data H. rewrite FSFacts.lookup_app, Hn in H.
    rewrite FSFacts.lookup_app, Hroot.
    now apply PruneFacts.prune_keeps_files.
  - intros Haw q w' Hq. rewrite FSFacts.lookup_app, Hroot.
    now apply PruneFacts.prune_no_empty_below.
Qed.

Lemma C9_pruning_removes_empty_directories_witness :
  (exists s',
      delete_empty_directories ["m"] nested_state = Return tt s' /\
      FS.lookup ["m"] (tree s') = Some (Dir true [("keep.mkv", File 9 "film")])) /\
  (exists s',
      delete_empty_directories ["m"] hollow_state = Return tt s' /\
      FS.lookup ["m"] (tree s') = Some (Dir true [])).
Proof.
  split.
  - destruct (C9_pruning_removes_empty_directories ["m"] nested_state true
                [("keep.mkv", File 9 "film");
                 ("d1", Dir true [("d2", Dir true [("d3", Dir true [])])])]
                eq_refl) as (s' & Hrun & Hroot & _).
    + wf_tac.
    + exists s'. split; [exact Hrun|exact Hroot].
  - destruct (C9_pruning_removes_empty_directories ["m"] hollow_state true
                [("d1", Dir true [("d2", Dir true [])])]
                eq_refl) as (s' & Hrun & Hroot & _).
    + wf_tac.
    + exists s'. split; [exact Hrun|exact Hroot].
Defined.

(* ================================================================== *)
(** ** Running the pipeline on a tree at rest *)
(* ================================================================== *)

Section Idempotence.
Import FS Prune.

Lemma rename_forced_subs_idle content_dir s :
  glob_suffix content_dir ".1.en.srt" (tree s) = [] ->
  glob_suffix content_dir ".1.eng.srt" (tree s) = [] ->
  exists lg, rename_forced_subs content_dir s = Return tt (mkState (tree s) lg).
Proof.
  intros H1 H2. destruct s as [fs lg]. cbn [tree] in *.
  unfold rename_forced_subs, lang_strs, bind, logger_info, logger_log, glob, ret.
  cbn [for_each level_no logger_level Nat.leb tree logs].
  unfold bind, ret. cbn [tree logs].
  change (variant1_marker "en") with ".1.en.srt".
  change (variant1_marker "eng") with ".1.eng.srt".
  rewrite H1. cbn [for_each]. unfold ret. cbn [tree].
  rewrite H2. cbn [for_each]. eexists. reflexivity.
Qed.

Lemma rename_en_to_eng_subs_idle content_dir s :
  glob_suffix content_dir ".en.srt" (tree s) = [] ->
  exists lg, rename_en_to_eng_subs content_dir s = Return tt (mkState (tree s) lg).
Proof.
  intros H. destruct s as [fs lg]. cbn [tree] in *.
  unfold rename_en_to_eng_subs, bind, logger_info, logger_log, glob.
  cbn [level_no logger_level Nat.leb tree logs].
  rewrite H. eexists. reflexivity.
Qed.

Lemma delete_nfo_and_txt_files_idle content_dir s :
  glob_suffix content_dir ".nfo" (tree s) = [] ->
  glob_suffix content_dir ".txt" (tree s) = [] ->
  exists lg, delete_nfo_and_txt_files content_dir s = Return tt (mkState (tree s) lg).
Proof.
  intros H1 H2. destruct s as [fs lg]. cbn [tree] in *.
  unfold delete_nfo_and_txt_files, bind, logger_info, logger_log, glob.
  cbn [level_no logger_level Nat.leb tree logs].
  rewrite H1. cbn [for_each]. unfold ret. cbn [tree]. rewrite H2.
  eexists. reflexivity.
Qed.

(** Where no directory below the content directory is empty, every
    [rmdir] of the loop fails. *)
Lemma rmdir_step_idle content_dir fs q :
  no_empty_directory_below content_dir fs -> q <> [] ->
  rmdir_step fs (content_dir ++ q) = fs.
Proof.
  intros Hno Hq. unfold rmdir_step, os_rmdir.
  destruct (lookup (content_dir ++ q) fs) as [[sz data|w es]|] eqn:E;
    try reflexivity.
  destruct (is_root _); [reflexivity|].
  destruct (negb _); [reflexivity|].
  destruct es; [|reflexivity].
  exfalso. now apply (Hno q w).
Qed.

Lemma rmdir_pass_idle content_dir fs qs :
  no_empty_directory_below content_dir fs ->
  Forall (fun q => q <> []) qs ->
  rmdir_pass (map (app content_dir) qs) fs = fs.
Proof.
  intros Hno. induction 1 as [|q qs Hq _ IH]; [reflexivity|].
  cbn [map]. rewrite PruneFacts.rmdir_pass_cons, rmdir_step_idle by assumption.
  exact IH.
Qed.

Lemma delete_empty_directories_idle content_dir s :
  no_empty_directory_below content_dir (tree s) ->
  exists lg, delete_empty_directories content_dir s = Return tt (mkState (tree s) lg).
Proof.
  intros Hno. destruct s as [fs lg]. cbn [tree] in *.
  unfold delete_empty_directories, bind, logger_info, logger_log, os_walk,
    os_walk_bottom_up.
  cbn [level_no logger_level Nat.leb tree logs].
  destruct (lookup content_dir fs) as [[sz data|w es]|] eqn:En;
    try (eexists; reflexivity).
  replace (walk_bottom_up content_dir (Dir w es))
    with (walk_bottom_up (content_dir ++ []) (Dir w es))
    by now rewrite app_nil_r.
  rewrite PruneFacts.walk_bottom_up_app, PruneFacts.walk_bottom_up_dir, map_app.
  cbn [map]. rewrite app_nil_r.
  pose proof (PruneFacts.walk_below_nonempty (Dir w es)) as Hne.
  edestruct (PruneFacts.loop_run content_dir
               (map (app content_dir) (walk_below [] (Dir w es))) [])
    as [lg' Hlg].
  { apply Forall_forall. intros d Hd.
    apply in_map_iff in Hd as (q & <- & Hq).
    rewrite Forall_forall in Hne. specialize (Hne q Hq).
    intros E. rewrite <- (app_nil_r content_dir) in E at 2.
    apply app_inv_head in E. contradiction. }
  rewrite Hlg. cbn [tree]. rewrite rmdir_pass_idle by assumption.
  eexists. reflexivity.
Qed.

(** C6, as stated, fails: [str.replace] and the two-step loop over the
    tags shorten a name by one marker per step.  A file
    [a.1.1.1.en.srt] is [a.1.eng.srt] after a full run, which the
    pattern [*.1.eng.srt] of the first stage matches, and a second run
    renames it to [a.eng.srt]. *)
Lemma C6_counterexample :
  exists s1 s2,
    main ["m"] tripled_state = Return tt s1 /\
    tree s1 = library [("a.1.eng.srt", File 1000 "original")] /\
    glob_suffix ["m"] ".1.eng.srt" (tree s1) = [["m"; "a.1.eng.srt"]] /\
    main ["m"] s1 = Return tt s2 /\
    tree s2 = library [("a.eng.srt", File 1000 "original")] /\
    tree s2 <> tree s1.
Proof.
  eexists. eexists. split; [vm_compute; reflexivity|].
  split; [reflexivity|]. split; [reflexivity|].
  split; [vm_compute; reflexivity|]. split; [reflexivity|].
  cbn [tree]. discriminate.
Qed.

(** A run on a tree in which no discovery pattern of any stage matches
    and in which no empty directory lies below the content directory
    returns and leaves the tree as it is. *)
Lemma main_idle content_dir s :
  nothing_discovered content_dir (tree s) ->
  no_empty_directory_below content_dir (tree s) ->
  exists s', main content_dir s = Return tt s' /\ tree s' = tree s.
Proof.
  intros Hnd Hno. rewrite main_run.
  assert (Hsfx : forall sfx, In sfx discovery_suffixes ->
                             glob_suffix content_dir sfx (tree s) = [])
    by exact Hnd.
  destruct (rename_forced_subs_idle content_dir (main_logged content_dir s))
    as [lg1 ->]; [apply Hsfx; cbn; tauto|apply Hsfx; cbn; tauto|].
  cbn [main_logged tree].
  destruct (rename_en_to_eng_subs_idle content_dir (mkState (tree s) lg1))
    as [lg2 ->]; [apply Hsfx; cbn; tauto|].
  cbn [tree].
  destruct (delete_nfo_and_txt_files_idle content_dir (mkState (tree s) lg2))
    as [lg3 ->]; [apply Hsfx; cbn; tauto|apply Hsfx; cbn; tauto|].
  cbn [tree].
  destruct (delete_empty_directories_idle content_dir (mkState (tree s) lg3) Hno)
    as [lg4 ->].
  eexists. split; reflexivity.
Qed.

End Idempotence.

(* ================================================================== *)
(** ** Nothing outside the content directory changes *)
(* ================================================================== *)

Module FrameFacts.
Import FS Frame.

Lemma is_prefix_app root q : is_prefix root (root ++ q) = true.
Proof.
  induction root as [|c root IH]; [reflexivity|].
  cbn [app is_prefix]. now rewrite String.eqb_refl.
Qed.

Lemma is_prefix_split root p :
  is_prefix root p = true -> exists q, p = root ++ q.
Proof.
  revert p; induction root as [|c root IH]; intros p H.
  - exists p. reflexivity.
  - destruct p as [|d p]; [discriminate|]. cbn [is_prefix] in H.
    apply andb_true_iff in H as [Hc H]. apply String.eqb_eq in Hc. subst d.
    destruct (IH p H) as [q ->]. exists q. reflexivity.
Qed.

Lemma put_single c o n : put [c] o n = dir_set c o n.
Proof. reflexivity. Qed.

Lemma put_cons c p o n :
  p <> [] ->
  put (c :: p) o n =
  match n with
  | Dir w es =>
      match assoc c es with
      | Some m => Dir w (set_entry c (Some (put p o m)) es)
      | None => n
      end
  | File _ _ => n
  end.
Proof.
  intros Hp. unfold put.
  rewrite PruneFacts.dirname_cons, PruneFacts.basename_cons by assumption.
  reflexivity.
Qed.

(** A binding below [root] is invisible from a path apart from [root]. *)
Lemma lookup_put_outside root :
  forall p q o n,
    is_prefix root p = true -> apart root q ->
    lookup q (put p o n) = lookup q n.
Proof.
  induction root as [|r root IH]; intros p q o n Hp [Hq1 Hq2].
  - discriminate.
  - destruct p as [|c p]; [discriminate|]. cbn [is_prefix] in Hp.
    apply andb_true_iff in Hp as [Hc Hp]. apply String.eqb_eq in Hc. subst c.
    destruct q as [|c q]; [discriminate|]. cbn [is_prefix] in Hq1, Hq2.
    destruct (String.eqb r c) eqn:Erc.
    + apply String.eqb_eq in Erc. subst c.
      rewrite String.eqb_refl in Hq2. cbn [andb] in Hq1, Hq2.
      assert (Hpne : p <> []).
      { intros ->. destruct root; [discriminate Hq1|discriminate Hp]. }
      rewrite put_cons by assumption.
      destruct n as [|w es]; [reflexivity|].
      destruct (assoc r es) as [m|] eqn:Em; [|reflexivity].
      cbn [lookup]. rewrite FSFacts.assoc_set_same, Em.
      apply IH; [assumption|split; assumption].
    + assert (Hne : r <> c) by now apply String.eqb_neq.
      destruct (FSFacts.path_eq_dec p []) as [->|Hpne].
      * rewrite put_single. destruct n as [|w es]; [reflexivity|].
        cbn [dir_set lookup]. now rewrite FSFacts.assoc_set_other.
      * rewrite put_cons by assumption.
        destruct n as [|w es]; [reflexivity|].
        destruct (assoc r es) as [m|] eqn:Em; [|reflexivity].
        cbn [lookup]. now rewrite FSFacts.assoc_set_other.
Qed.

Lemma outside_refl root fs : outside_unchanged root fs fs.
Proof. intros q _. reflexivity. Qed.

Lemma outside_trans root fs1 fs2 fs3 :
  outside_unchanged root fs1 fs2 -> outside_unchanged root fs2 fs3 ->
  outside_unchanged root fs1 fs3.
Proof. intros H1 H2 q Hq. rewrite (H2 q Hq). now apply H1. Qed.

Lemma outside_put root p o fs :
  is_prefix root p = true -> outside_unchanged root fs (put p o fs).
Proof. intros Hp q Hq. now apply lookup_put_outside with (root := root). Qed.

(** *** The three calls that change the tree *)

Lemma os_unlink_outside root p fs fs' :
  is_prefix root p = true -> os_unlink p fs = Ok fs' ->
  outside_unchanged root fs fs'.
Proof.
  intros Hp H. unfold os_unlink in H.
  destruct (lookup p fs) as [n|]; [|discriminate].
  destruct (negb _); [discriminate|].
  destruct n; [|discriminate]. inversion H; subst. now apply outside_put.
Qed.

Lemma os_rmdir_outside root p fs fs' :
  is_prefix root p = true -> os_rmdir p fs = Ok fs' ->
  outside_unchanged root fs fs'.
Proof.
  intros Hp H. unfold os_rmdir in H.
  destruct (lookup p fs) as [[|w es]|]; try discriminate.
  destruct (is_root p); [discriminate|].
  destruct (negb _); [discriminate|].
  destruct es; [|discriminate]. inversion H; subst. now apply outside_put.
Qed.

Lemma os_rename_outside root src dst fs fs' :
  is_prefix root src = true -> is_prefix root dst = true ->
  os_rename src dst fs = Ok fs' ->
  outside_unchanged root fs fs'.
Proof.
  intros Hs Hd H. unfold os_rename in H.
  destruct (lookup src fs) as [s|]; [|discriminate].
  destruct (is_root src || is_root dst); [discriminate|].
  destruct (lookup (dirname dst) fs) as [[|wd esd]|]; try discriminate.
  destruct (negb _ || negb wd); [discriminate|].
  destruct (path_eqb src dst).
  { inversion H; subst. apply outside_refl. }
  destruct (is_prefix src dst); [discriminate|].
  assert (Hfs : fs' = put dst (Some s) (put src None fs)).
  { destruct s; destruct (lookup dst fs) as [[|? [|]]|];
      try discriminate; now inversion H. }
  subst fs'. eapply outside_trans; apply outside_put; assumption.
Qed.

(** *** The monad *)

Lemma keeps_ret {A} root (a : A) s : keeps_at root (ret a) s.
Proof. apply outside_refl. Qed.

Lemma keeps_bind {A B} root (m : M A) (k : A -> M B) s :
  keeps_at root m s ->
  (forall a s', m s = Return a s' -> keeps_at root (k a) s') ->
  keeps_at root (bind m k) s.
Proof.
  unfold keeps_at, bind. intros Hm Hk.
  destruct (m s) as [a s'|e s'] eqn:E; cbn [final] in *; [|assumption].
  eapply outside_trans; [exact Hm|]. now apply Hk.
Qed.

Lemma keeps_for_each {A} root (body : A -> M unit) l :
  (forall x, In x l -> forall s, keeps_at root (body x) s) ->
  forall s, keeps_at root (for_each body l) s.
Proof.
  induction l as [|x l IH]; intros Hb s; [apply outside_refl|].
  cbn [for_each]. apply keeps_bind.
  - apply Hb. now left.
  - intros _ s' _. apply IH. intros y Hy. apply Hb. now right.
Qed.

Lemma keeps_log root l fmt args s : keeps_at root (logger_log l fmt args) s.
Proof.
  unfold keeps_at, logger_log. destruct (Nat.leb _ _); apply outside_refl.
Qed.

Lemma keeps_sys root call s :
  (forall fs', call (tree s) = Ok fs' -> outside_unchanged root (tree s) fs') ->
  keeps_at root (sys call) s.
Proof.
  unfold keeps_at, sys. intros H.
  destruct (call (tree s)) as [fs'|e]; cbn [final tree];
    [now apply H|apply outside_refl].
Qed.

Lemma keeps_ask {A} root (call : node -> result A) s : keeps_at root (ask call) s.
Proof.
  unfold keeps_at, ask. destruct (call (tree s)); apply outside_refl.
Qed.

Lemma keeps_try {A} root (body handler : M A) s :
  keeps_at root body s ->
  (forall e s', body s = Raise e s' -> keeps_at root handler s') ->
  keeps_at root (try_except body handler) s.
Proof.
  unfold keeps_at, try_except. intros Hb Hh.
  destruct (body s) as [a s'|e s'] eqn:E; cbn [final] in *; [assumption|].
  eapply outside_trans; [exact Hb|]. eapply Hh. reflexivity.
Qed.

Lemma keeps_rename root src dst s :
  is_prefix root src = true -> is_prefix root dst = true ->
  keeps_at root (rename src dst) s.
Proof.
  intros Hs Hd. apply keeps_sys. intros fs'. now apply os_rename_outside.
Qed.

Lemma keeps_unlink root p s :
  is_prefix root p = true -> keeps_at root (unlink p) s.
Proof. intros Hp. apply keeps_sys. intros fs'. now apply os_unlink_outside. Qed.

Lemma keeps_rmdir root p s :
  is_prefix root p = true -> keeps_at root (rmdir p) s.
Proof. intros Hp. apply keeps_sys. intros fs'. now apply os_rmdir_outside. Qed.

End FrameFacts.

Module FrameProgram.
Import FS Frame FrameFacts.

(** Without an occurrence there is nothing to replace. *)
Lemma replace_from_no_match old new s :
  Str.count_from old 0 s = 0 -> Str.replace_from old new 0 s = s.
Proof.
  induction s as [|c s IH]; [reflexivity|].
  cbn [Str.count_from Str.replace_from].
  destruct (String.prefix old (String c s)); [discriminate|].
  intros H. now rewrite IH.
Qed.

Lemma replace_no_match old new s :
  1 <= String.length old ->
  Str.count_from old 0 s = 0 -> Str.replace s old new = s.
Proof.
  intros Hold H. unfold Str.replace.
  destruct old; [simpl in Hold; lia|]. now apply replace_from_no_match.
Qed.

Lemma markers_nonempty old : In old markers -> 1 <= String.length old.
Proof.
  intros H. cbn in H.
  destruct H as [<-|[<-|[<-|[<-|[<-|[]]]]]]; simpl; lia.
Qed.

(** A replacement of a marker leaves a path below a marker-free
    directory below that directory. *)
Lemma path_replace_below root p old new :
  marker_free root -> In old markers ->
  is_prefix root p = true ->
  is_prefix root (path_replace p old new) = true.
Proof.
  intros Hfree Hold Hp. apply is_prefix_split in Hp as [q ->].
  unfold path_replace. rewrite map_app.
  replace (map (fun c => Str.replace c old new) root) with root.
  - apply is_prefix_app.
  - clear q. induction root as [|c root IH]; [reflexivity|].
    cbn [map]. f_equal.
    + symmetry. apply replace_no_match; [now apply markers_nonempty|].
      apply Hfree; [now left|assumption].
    + apply IH. intros c' old' Hc' Hold'. apply Hfree; [now right|assumption].
Qed.

Lemma marker1_in lang_str :
  In lang_str lang_strs -> In (variant1_marker lang_str) markers.
Proof. intros [<-|[<-|[]]]; cbn; tauto. Qed.

Lemma marker2_in lang_str :
  In lang_str lang_strs -> In (variant2_marker lang_str) markers.
Proof. intros [<-|[<-|[]]]; cbn; tauto. Qed.

(** The directories that a recursive listing below [top ++ q] visits
    are those below [q], seen from [top]. *)
Lemma directories_app top n :
  forall q,
    directories (top ++ q) n
    = map (fun d => (top ++ fst d, snd d)) (directories q n).
Proof.
  induction n as [sz data|w es IH] using PruneFacts.node_ind'; intros q;
    [reflexivity|].
  cbn [directories map fst snd]. f_equal.
  induction IH as [|[c m] es Hm _ IHes]; [reflexivity|].
  cbn [flat_map fst snd]. rewrite map_app. f_equal; [|exact IHes].
  rewrite <- app_assoc. apply Hm.
Qed.

Lemma glob_suffix_below root sfx fs p :
  In p (glob_suffix root sfx fs) -> is_prefix root p = true.
Proof.
  unfold glob_suffix. destruct (lookup root fs) as [n|]; [|intros []].
  rewrite <- (app_nil_r root) at 1. rewrite directories_app.
  intros H. apply in_flat_map in H as (d & Hd & H).
  apply in_map_iff in Hd as ([d0 es0] & <- & _).
  unfold matching in H. cbn [fst snd] in H.
  apply in_map_iff in H as (e & <- & _).
  rewrite <- app_assoc. apply is_prefix_app.
Qed.

Lemma os_walk_below root fs d :
  In d (os_walk_bottom_up root fs) -> is_prefix root d = true.
Proof.
  unfold os_walk_bottom_up. destruct (lookup root fs) as [n|]; [|intros []].
  rewrite <- (app_nil_r root) at 1. rewrite PruneFacts.walk_bottom_up_app.
  intros H. apply in_map_iff in H as (q & <- & _). apply is_prefix_app.
Qed.

Section Passes.
Variable content_dir : path.
Hypothesis Hfree : marker_free content_dir.

Lemma keeps_forced_body lang_str p s :
  In lang_str lang_strs -> is_prefix content_dir p = true ->
  keeps_at content_dir (rename_forced_subs_body lang_str p) s.
Proof.
  intros Hlang Hp.
  assert (Hc : is_prefix content_dir (canonical_path lang_str p) = true)
    by (apply path_replace_below; auto using marker1_in).
  assert (Hs : is_prefix content_dir (sibling_path lang_str p) = true)
    by (apply path_replace_below; auto using marker1_in).
  assert (Hf : is_prefix content_dir
                 (forced_path lang_str (sibling_path lang_str p)) = true)
    by (apply path_replace_below; auto using marker2_in).
  unfold rename_forced_subs_body.
  apply keeps_bind; [apply keeps_log|intros _ s1 _].
  apply keeps_bind; [now apply keeps_rename|intros _ s2 _].
  apply keeps_bind; [apply outside_refl|intros found s3 _].
  destruct found; [|apply keeps_ret].
  apply keeps_bind; [apply keeps_log|intros _ s4 _].
  apply keeps_bind; [apply keeps_ask|intros forced_size s5 _].
  apply keeps_bind; [apply keeps_ask|intros orig_size s6 _].
  destruct (orig_size <=? forced_size)%Z.
  - apply keeps_bind; [apply keeps_log|intros _ s7 _]. now apply keeps_unlink.
  - destruct (PyFloat.gt_times_0_4 forced_size orig_size);
      [apply keeps_log|now apply keeps_rename].
Qed.

Lemma keeps_rename_forced_subs s :
  keeps_at content_dir (rename_forced_subs content_dir) s.
Proof.
  unfold rename_forced_subs.
  apply keeps_bind; [apply keeps_log|intros _ s1 _].
  apply keeps_for_each. intros lang_str Hlang s2.
  apply keeps_bind; [apply outside_refl|intros files s3 Hglob].
  unfold glob in Hglob. inversion Hglob; subst.
  apply keeps_for_each. intros p Hp s4.
  apply keeps_forced_body; [assumption|].
  now apply glob_suffix_below in Hp.
Qed.

Lemma keeps_en_body f s :
  is_prefix content_dir f = true ->
  keeps_at content_dir (rename_en_to_eng_subs_body f) s.
Proof.
  intros Hf.
  assert (He : is_prefix content_dir (path_replace f ".en.srt" ".eng.srt") = true)
    by (apply path_replace_below; auto; cbn; tauto).
  unfold rename_en_to_eng_subs_body.
  apply keeps_bind; [apply keeps_log|intros _ s1 _].
  apply keeps_bind; [apply outside_refl|intros found s2 _].
  destruct found.
  - apply keeps_bind; [apply keeps_log|intros _ s3 _]. now apply keeps_unlink.
  - apply keeps_bind; [apply keeps_log|intros _ s3 _]. now apply keeps_rename.
Qed.

Lemma keeps_rename_en_to_eng_subs s :
  keeps_at content_dir (rename_en_to_eng_subs content_dir) s.
Proof.
  unfold rename_en_to_eng_subs.
  apply keeps_bind; [apply keeps_log|intros _ s1 _].
  apply keeps_bind; [apply outside_refl|intros files s2 Hglob].
  unfold glob in Hglob. inversion Hglob; subst.
  apply keeps_for_each. intros p Hp s3.
  apply keeps_en_body. now apply glob_suffix_below in Hp.
Qed.

End Passes.

Lemma keeps_delete_file root f s :
  is_prefix root f = true -> keeps_at root (delete_file f) s.
Proof.
  intros Hf. unfold delete_file.
  apply keeps_bind; [apply keeps_log|intros _ s1 _]. now apply keeps_unlink.
Qed.

Lemma keeps_delete_nfo_and_txt_files root s :
  keeps_at root (delete_nfo_and_txt_files root) s.
Proof.
  unfold delete_nfo_and_txt_files.
  apply keeps_bind; [apply keeps_log|intros _ s1 _].
  apply keeps_bind; [apply outside_refl|intros nfo s2 Hnfo].
  unfold glob in Hnfo. inversion Hnfo; subst.
  apply keeps_bind.
  - apply keeps_for_each. intros p Hp s3.
    apply keeps_delete_file. now apply glob_suffix_below in Hp.
  - intros _ s3 _.
    apply keeps_bind; [apply outside_refl|intros txt s4 Htxt].
    unfold glob in Htxt. inversion Htxt; subst.
    apply keeps_for_each. intros p Hp s5.
    apply keeps_delete_file. now apply glob_suffix_below in Hp.
Qed.

Lemma keeps_try_rmdir root d s :
  is_prefix root d = true -> keeps_at root (try_rmdir d) s.
Proof.
  intros Hd. unfold try_rmdir. apply keeps_try.
  - apply keeps_bind; [now apply keeps_rmdir|intros _ s1 _; apply keeps_log].
  - intros e s' _. apply keeps_log.
Qed.

Lemma keeps_loop root dirs :
  (forall d, In d dirs -> is_prefix root d = true) ->
  forall s, keeps_at root (delete_empty_directories_loop root dirs) s.
Proof.
  induction dirs as [|d dirs IH]; intros Hd s; [apply outside_refl|].
  cbn [delete_empty_directories_loop].
  destruct (path_eqb d root); [apply outside_refl|].
  apply keeps_bind.
  - apply keeps_try_rmdir. apply Hd. now left.
  - intros _ s' _. apply IH. intros d' Hd'. apply Hd. now right.
Qed.

Lemma keeps_delete_empty_directories root s :
  keeps_at root (delete_empty_directories root) s.
Proof.
  unfold delete_empty_directories.
  apply keeps_bind; [apply keeps_log|intros _ s1 _].
  apply keeps_bind; [apply outside_refl|intros dirs s2 Hw].
  unfold os_walk in Hw. inversion Hw; subst.
  apply keeps_loop. intros d Hd. now apply os_walk_below in Hd.
Qed.

End FrameProgram.

(** X1: whatever [main] does and however it ends, returned or raised, a
    path of which the content directory is no part, and which is no
    part of the content directory's path, resolves afterwards to what it
    resolved to before, provided that no component of the content
    directory's own path contains one of the markers that the renaming
    passes replace. *)
Theorem X1_main_changes_nothing_outside content_dir s q :
  Frame.marker_free content_dir ->
  Frame.apart content_dir q ->
  FS.lookup q (tree (Frame.final (main content_dir s))) = FS.lookup q (tree s).
Proof.
  intros Hfree Hq. revert q Hq.
  change (Frame.keeps_at content_dir (main content_dir) s).
  unfold main.
  apply FrameFacts.keeps_bind; [apply FrameFacts.keeps_log|intros _ s1 _].
  apply FrameFacts.keeps_bind;
    [now apply FrameProgram.keeps_rename_forced_subs|intros _ s2 _].
  apply FrameFacts.keeps_bind;
    [now apply FrameProgram.keeps_rename_en_to_eng_subs|intros _ s3 _].
  apply FrameFacts.keeps_bind;
    [apply FrameProgram.keeps_delete_nfo_and_txt_files|intros _ s4 _].
  apply FrameProgram.keeps_delete_empty_directories.
Qed.

Lemma X1_main_changes_nothing_outside_witness :
  FS.lookup ["other"] (tree (Frame.final (main ["m"] two_libraries_state)))
  = FS.lookup ["other"] (tree two_libraries_state) /\
  FS.lookup ["m"] (tree (Frame.final (main ["m"] two_libraries_state)))
  = Some (Dir true [("a.eng.srt", File 1000 "original")]).
Proof.
  split; [|vm_compute; reflexivity].
  apply (X1_main_changes_nothing_outside ["m"] two_libraries_state ["other"]).
  - intros c old [<-|[]] Hold. cbn in Hold.
    destruct Hold as [<-|[<-|[<-|[<-|[<-|[]]]]]]; reflexivity.
  - split; reflexivity.
Defined.

(* ================================================================== *)
(** ** A content directory that is not there *)
(* ================================================================== *)

Section NotADirectory.
Import FS.

Lemma glob_suffix_not_dir root sfx fs :
  (forall w es, lookup root fs <> Some (Dir w es)) ->
  glob_suffix root sfx fs = [].
Proof.
  intros H. unfold glob_suffix.
  destruct (lookup root fs) as [[sz data|w es]|]; try reflexivity.
  exfalso. now apply (H w es).
Qed.

Lemma os_walk_not_dir root fs :
  (forall w es, lookup root fs <> Some (Dir w es)) ->
  os_walk_bottom_up root fs = [].
Proof.
  intros H. unfold os_walk_bottom_up.
  destruct (lookup root fs) as [[sz data|w es]|]; try reflexivity.
  exfalso. now apply (H w es).
Qed.

Lemma rename_forced_subs_absent root s :
  (forall w es, lookup root (tree s) <> Some (Dir w es)) ->
  rename_forced_subs root s
  = Return tt
      (mkState (tree s)
         (logs s ++ [mkRecord INFO "Renaming forced subs for content dir: '%s'." [str root]])).
Proof.
  intros H. destruct s as [fs lg]. cbn [tree logs] in *.
  unfold rename_forced_subs, lang_strs.
  cbv [bind logger_info logger_log glob for_each ret level_no logger_level
         Nat.leb tree logs].
  now rewrite !(glob_suffix_not_dir root _ fs H).
Qed.

Lemma rename_en_to_eng_subs_absent root s :
  (forall w es, lookup root (tree s) <> Some (Dir w es)) ->
  rename_en_to_eng_subs root s
  = Return tt
      (mkState (tree s)
         (logs s ++ [mkRecord INFO "Renaming en subs to eng subs for content dir: '%s'." [str root]])).
Proof.
  intros H. destruct s as [fs lg]. cbn [tree logs] in *.
  unfold rename_en_to_eng_subs.
  cbv [bind logger_info logger_log glob ret level_no logger_level
         Nat.leb tree logs].
  now rewrite !(glob_suffix_not_dir root _ fs H).
Qed.

Lemma delete_nfo_and_txt_files_absent root s :
  (forall w es, lookup root (tree s) <> Some (Dir w es)) ->
  delete_nfo_and_txt_files root s
  = Return tt
      (mkState (tree s)
         (logs s ++ [mkRecord INFO "Deleting .nfo and .txt files for content dir: '%s'." [str root]])).
Proof.
  intros H. destruct s as [fs lg]. cbn [tree logs] in *.
  unfold delete_nfo_and_txt_files.
  cbv [bind logger_info logger_log glob ret level_no logger_level
         Nat.leb tree logs].
  rewrite !(glob_suffix_not_dir root _ fs H). cbn [for_each]. unfold ret.
  cbn [tree]. now rewrite !(glob_suffix_not_dir root _ fs H).
Qed.

Lemma delete_empty_directories_absent root s :
  (forall w es, lookup root (tree s) <> Some (Dir w es)) ->
  delete_empty_directories root s
  = Return tt
      (mkState (tree s)
         (logs s ++ [mkRecord INFO "Deleting empty directories for content dir: '%s'." [str root]])).
Proof.
  intros H. destruct s as [fs lg]. cbn [tree logs] in *.
  unfold delete_empty_directories.
  cbv [bind logger_info logger_log os_walk ret level_no logger_level
         Nat.leb tree logs].
  now rewrite (os_walk_not_dir root fs H).
Qed.

(** X2: when the content directory does not exist, or is a file, [main]
    raises nothing and changes nothing: the globs and the walk yield
    nothing, and the run returns with the tree as it was and the five
    opening lines of the stages in the log. *)
Theorem X2_main_without_content_directory content_dir s :
  (forall w es, lookup content_dir (tree s) <> Some (Dir w es)) ->
  main content_dir s
  = Return tt (mkState (tree s) (logs s ++ idle_records content_dir)).
Proof.
  intros H. rewrite main_run.
  rewrite rename_forced_subs_absent by exact H. cbn [main_logged tree logs].
  rewrite rename_en_to_eng_subs_absent by exact H. cbn [tree logs].
  rewrite delete_nfo_and_txt_files_absent by exact H. cbn [tree logs].
  rewrite delete_empty_directories_absent by exact H. cbn [tree logs].
  unfold idle_records. now rewrite <- !app_assoc.
Qed.

Lemma X2_main_without_content_directory_witness :
  main ["absent"] clean_state
  = Return tt (mkState (tree clean_state) (idle_records ["absent"])).
Proof.
  apply (X2_main_without_content_directory ["absent"] clean_state).
  intros w es. discriminate.
Defined.

End NotADirectory.

(* ================================================================== *)
(** ** More on the engine *)
(* ================================================================== *)

Section EngineMore.
Import FS.

(** X3: for a discovered group whose variant-1 file is smaller than
    2^53 bytes and whose sibling is a file of at most four tenths of its
    size, the engine neither deletes nor warns: it renames the sibling
    to the forced name and logs nothing, and after the rename the forced
    name holds the sibling's file and the sibling path is free. *)
Theorem X3_small_sibling_is_forced content_dir lang_str p s fs1 forced_size data orig_size :
  In lang_str lang_strs ->
  discovered content_dir lang_str p s ->
  os_rename p (canonical_path lang_str p) (tree s) = Ok fs1 ->
  lookup (sibling_path lang_str p) fs1 = Some (File forced_size data) ->
  stat_size (canonical_path lang_str p) fs1 = Ok orig_size ->
  (0 <= forced_size)%Z ->
  (forced_size < orig_size < 2 ^ 53)%Z ->
  (5 * forced_size <= 2 * orig_size)%Z ->
  rename_forced_subs_body lang_str p s
  = match os_rename (sibling_path lang_str p)
            (forced_path lang_str (sibling_path lang_str p)) fs1 with
    | Ok fs2 => Return tt (mkState fs2 (logs s))
    | Err e => Raise e (mkState fs1 (logs s))
    end /\
  forall fs2,
    os_rename (sibling_path lang_str p)
      (forced_path lang_str (sibling_path lang_str p)) fs1 = Ok fs2 ->
    lookup (forced_path lang_str (sibling_path lang_str p)) fs2
    = Some (File forced_size data) /\
    lookup (sibling_path lang_str p) fs2 = None.
Proof.
  intros Hlang Hdisc Hren Hsib Horig Hpos Hrange Hratio.
  pose proof (PathFacts.discovered_endswith _ _ _ _ Hdisc) as Hend.
  assert (Hgt : PyFloat.gt_times_0_4 forced_size orig_size = false)
    by (apply PyFloatFacts.gt_times_0_4_false; lia).
  split.
  - rewrite EngineFacts.body_run. cbv zeta.
    rewrite Hren, (EngineFacts.path_exists_some _ _ _ Hsib),
      (EngineFacts.stat_size_file _ _ _ _ Hsib), Horig.
    assert (Hsz : (orig_size <=? forced_size)%Z = false)
      by (apply Z.leb_gt; lia).
    now rewrite Hsz, Hgt.
  - intros fs2 Hren2.
    eapply forced_branch with (orig_size := orig_size); eauto. lia.
Qed.

Lemma X3_small_sibling_is_forced_witness :
  rename_forced_subs_body "en" ["m"; "a.1.en.srt"] (pair_state 1000 300)
  = Return tt (mkState (library [("a.eng.srt", File 1000 "original");
                                 ("a.eng.forced.srt", File 300 "forced")]) []).
Proof.
  refine (proj1 (X3_small_sibling_is_forced ["m"] "en" ["m"; "a.1.en.srt"]
                   (pair_state 1000 300)
                   (library [("a.2.en.srt", File 300 "forced");
                             ("a.eng.srt", File 1000 "original")])
                   300%Z "forced" 1000%Z _ _ _ _ _ _ _ _));
    try reflexivity; try (vm_compute; auto; fail); try lia.
Defined.

(** X4: the test [forced_size > orig_size * 0.4] is monotone in the
    size of the sibling, for every size of the original, rounding or
    not: once a sibling is large enough for the warning, every larger
    one is, and once one is small enough to pass as forced, every
    smaller one is. *)
Theorem X4_size_test_is_monotone (forced_size forced_size' orig_size : Z) :
  (forced_size <= forced_size')%Z ->
  (PyFloat.gt_times_0_4 forced_size orig_size = true ->
   PyFloat.gt_times_0_4 forced_size' orig_size = true) /\
  (PyFloat.gt_times_0_4 forced_size' orig_size = false ->
   PyFloat.gt_times_0_4 forced_size orig_size = false).
Proof.
  intros Hle.
  assert (Hmono : PyFloat.gt_times_0_4 forced_size orig_size = true ->
                  PyFloat.gt_times_0_4 forced_size' orig_size = true).
  { unfold PyFloat.gt_times_0_4, PyFloat.int_gt.
    destruct (PyFloat.mul (PyFloat.of_int orig_size) PyFloat.lit_0_4) as [m e].
    destruct (0 <=? e)%Z.
    - rewrite !Z.ltb_lt. lia.
    - rewrite !Z.ltb_lt. intros H.
      assert (0 <= 2 ^ (- e))%Z by (apply Z.pow_nonneg; lia). nia. }
  split; [exact Hmono|].
  destruct (PyFloat.gt_times_0_4 forced_size orig_size) eqn:E; [|reflexivity].
  intros H. rewrite (Hmono eq_refl) in H. discriminate.
Qed.

Lemma X4_size_test_is_monotone_witness :
  PyFloat.gt_times_0_4 999 1000 = true.
Proof.
  refine (proj1 (X4_size_test_is_monotone 401 999 1000 _) _);
    [lia|reflexivity].
Defined.

(** X5: as long as no directory on the way to a discovered file carries
    a marker in its name, the three paths that the engine computes lie
    in the directory of the file: the canonical path, the sibling path
    and the forced path differ from the discovered one in the last
    component only. *)
Theorem X5_engine_stays_in_the_directory lang_str p :
  In lang_str lang_strs ->
  p <> [] ->
  Frame.marker_free (dirname p) ->
  canonical_path lang_str p
  = dirname p ++ [Str.replace (basename p) (variant1_marker lang_str) ".eng.srt"] /\
  sibling_path lang_str p
  = dirname p ++ [Str.replace (basename p) (variant1_marker lang_str)
                    (variant2_marker lang_str)] /\
  forced_path lang_str (sibling_path lang_str p)
  = dirname p ++ [Str.replace
                    (Str.replace (basename p) (variant1_marker lang_str)
                       (variant2_marker lang_str))
                    (variant2_marker lang_str) ".eng.forced.srt"].
Proof.
  intros Hlang Hp Hfree.
  assert (Hkeep : forall old new,
             In old Frame.markers ->
             map (fun c => Str.replace c old new) (dirname p) = dirname p).
  { intros old new Hold. induction (dirname p) as [|c d IH]; [reflexivity|].
    cbn [map]. f_equal.
    - apply FrameProgram.replace_no_match;
        [now apply FrameProgram.markers_nonempty|].
      apply Hfree; [now left|assumption].
    - apply IH. intros c' old' Hc'. apply Hfree. now right. }
  pose proof (FrameProgram.marker1_in lang_str Hlang) as H1.
  pose proof (FrameProgram.marker2_in lang_str Hlang) as H2.
  assert (Hc : forall old new,
             In old Frame.markers ->
             path_replace p old new
             = dirname p ++ [Str.replace (basename p) old new]).
  { intros old new Hold. unfold path_replace.
    rewrite (FSFacts.path_split p Hp) at 1.
    rewrite map_app, Hkeep by assumption. reflexivity. }
  unfold canonical_path, sibling_path, forced_path.
  rewrite !Hc by assumption. split; [reflexivity|]. split; [reflexivity|].
  unfold path_replace. rewrite map_app, Hkeep by assumption. reflexivity.
Qed.

Lemma X5_engine_stays_in_the_directory_witness :
  canonical_path "en" ["m"; "show"; "a.1.en.srt"] = ["m"; "show"; "a.eng.srt"] /\
  sibling_path "en" ["m"; "show"; "a.1.en.srt"] = ["m"; "show"; "a.2.en.srt"] /\
  forced_path "en" (sibling_path "en" ["m"; "show"; "a.1.en.srt"])
  = ["m"; "show"; "a.eng.forced.srt"].
Proof.
  apply (X5_engine_stays_in_the_directory "en" ["m"; "show"; "a.1.en.srt"]).
  - now left.
  - discriminate.
  - intros c old Hc Hold. cbn in Hc, Hold.
    destruct Hc as [<-|[<-|[]]];
      destruct Hold as [<-|[<-|[<-|[<-|[<-|[]]]]]]; reflexivity.
Defined.

(** X6: the engine replaces in the path string, directory names
    included.  For a marker without a [/] and a path whose components
    are names, the string that [str.replace] returns is the string of
    the path in which every component has had the marker replaced: the
    number of components never changes. *)
Theorem X6_replace_acts_on_components p old new :
  Str.no_slash old = true ->
  1 <= String.length old ->
  Forall (fun c => Str.no_slash c = true) p ->
  p <> [] ->
  Str.replace (str p) old new = str (path_replace p old new) /\
  List.length (path_replace p old new) = List.length p.
Proof.
  intros Hns Hold Hp Hne. split.
  - now apply PathFacts.replace_str.
  - apply PathFacts.path_replace_length.
Qed.

Lemma X6_replace_acts_on_components_witness :
  Str.replace "/m/d.1.en.srt/a.1.en.srt" ".1.en.srt" ".eng.srt"
  = "/m/d.eng.srt/a.eng.srt".
Proof.
  refine (proj1 (X6_replace_acts_on_components
                   ["m"; "d.1.en.srt"; "a.1.en.srt"] ".1.en.srt" ".eng.srt"
                   eq_refl _ _ _)).
  - simpl. lia.
  - repeat constructor.
  - discriminate.
Defined.

End EngineMore.

(* ================================================================== *)
(** ** More on the two deleting passes *)
(* ================================================================== *)

Section DeletingMore.
Import FS Prune.

(** X7: the metadata pass unlinks whatever its glob yields, and a glob
    yields directories as well.  When the pass reaches a directory whose
    name ends in [.nfo], in a directory that may be written, [unlink]
    fails with [EISDIR]: the pass ends there with that error, the files
    unlinked before stay unlinked, and nothing after it, no [.txt] file
    either, is touched. *)
Theorem X7_metadata_pass_stops_at_a_directory content_dir s before p after s1 w es es' :
  let s0 := mkState (tree s)
              (logs s ++ [mkRecord INFO "Deleting .nfo and .txt files for content dir: '%s'."
                            [str content_dir]]) in
  glob_suffix content_dir ".nfo" (tree s) = before ++ p :: after ->
  for_each delete_file before s0 = Return tt s1 ->
  lookup p (tree s1) = Some (Dir w es) ->
  lookup (dirname p) (tree s1) = Some (Dir true es') ->
  delete_nfo_and_txt_files content_dir s = Raise EISDIR s1.
Proof.
  intros s0 Hglob Hbefore Hp Hd.
  unfold delete_nfo_and_txt_files.
  unfold bind at 1. unfold logger_info, logger_log.
  cbn [level_no logger_level Nat.leb]. fold s0.
  unfold bind at 1. unfold glob at 1. cbn [tree s0]. rewrite Hglob.
  unfold bind at 1.
  rewrite (for_each_raise delete_file before p after s0 s1 EISDIR s1 Hbefore);
    [reflexivity|].
  rewrite delete_file_run. unfold os_unlink, dir_writable.
  now rewrite Hp, Hd.
Qed.

Lemma X7_metadata_pass_stops_at_a_directory_witness :
  delete_nfo_and_txt_files ["m"] nfo_directory_state
  = Raise EISDIR
      (mkState (tree nfo_directory_state)
         [mkRecord INFO "Deleting .nfo and .txt files for content dir: '%s'." [str ["m"]]]).
Proof.
  apply (X7_metadata_pass_stops_at_a_directory ["m"] nfo_directory_state
           [] ["m"; "extras.nfo"] []
           _ true [("clip.mkv", File 9 "film")]
           [("extras.nfo", Dir true [("clip.mkv", File 9 "film")]);
            ("notes.txt", File 1 "text")]);
    reflexivity.
Defined.

(** X8: pruning twice is pruning once.  After a pruning pass over a
    well-formed content directory whose directories may all be written,
    a second pruning pass returns and leaves the tree as it is. *)
Theorem X8_pruning_twice_is_pruning_once content_dir s w es :
  lookup content_dir (tree s) = Some (Dir w es) ->
  wf (Dir w es) ->
  all_writable (Dir w es) ->
  exists s1 s2,
    delete_empty_directories content_dir s = Return tt s1 /\
    delete_empty_directories content_dir s1 = Return tt s2 /\
    tree s2 = tree s1.
Proof.
  intros Hn Hwf Haw.
  destruct (PruneFacts.delete_empty_directories_prune content_dir s w es Hn Hwf)
    as (s1 & Hrun & Hroot).
  assert (Hno : no_empty_directory_below content_dir (tree s1)).
  { intros q w' Hq. rewrite FSFacts.lookup_app, Hroot.
    now apply PruneFacts.prune_no_empty_below. }
  destruct (delete_empty_directories_idle content_dir s1 Hno) as [lg Hrun2].
  exists s1. eexists. split; [exact Hrun|]. split; [exact Hrun2|reflexivity].
Qed.

Lemma X8_pruning_twice_is_pruning_once_witness :
  exists s1 s2,
    delete_empty_directories ["m"] nested_state = Return tt s1 /\
    delete_empty_directories ["m"] s1 = Return tt s2 /\
    tree s2 = tree s1.
Proof.
  apply (X8_pruning_twice_is_pruning_once ["m"] nested_state true
           [("keep.mkv", File 9 "film");
            ("d1", Dir true [("d2", Dir true [("d3", Dir true [])])])]
           eq_refl).
  - wf_tac.
  - repeat constructor.
Defined.

End DeletingMore.

(* ================================================================== *)
(** ** Which directories the pruning pass keeps *)
(* ================================================================== *)

Module KeptFacts.
Import FS Prune.

Lemma assoc_in c es m : assoc c es = Some m -> In (c, m) es.
Proof.
  induction es as [|[k v] es IH]; cbn [assoc]; [discriminate|].
  destruct (String.eqb k c) eqn:E.
  - apply String.eqb_eq in E. subst k. intros H. inversion H. now left.
  - intros H. right. now apply IH.
Qed.

Lemma in_assoc c es m :
  NoDup (map fst es) -> In (c, m) es -> assoc c es = Some m.
Proof.
  induction es as [|[k v] es IH]; cbn [map fst assoc]; intros Hnd Hin;
    [destruct Hin|].
  inversion Hnd as [|? ? Hk Hnd']; subst.
  destruct Hin as [E|Hin].
  - inversion E; subst. now rewrite String.eqb_refl.
  - destruct (String.eqb k c) eqn:E; [|now apply IH].
    apply String.eqb_eq in E. subst k. exfalso. apply Hk.
    apply in_map_iff. exists (c, m). split; [reflexivity|assumption].
Qed.

Lemma wf_lookup q :
  forall n y, wf n -> lookup q n = Some y -> wf y.
Proof.
  induction q as [|c q IH]; intros n y Hwf H.
  - inversion H; subst. exact Hwf.
  - destruct n as [|w es]; [discriminate|]. cbn [lookup] in H.
    destruct (assoc c es) as [m|] eqn:Em; [|discriminate].
    inversion Hwf as [|? ? _ Hall]; subst. rewrite Forall_forall in Hall.
    apply (IH m y); [|assumption]. apply (Hall (c, m)). now apply assoc_in.
Qed.

Lemma all_writable_lookup q :
  forall n y, all_writable n -> lookup q n = Some y -> all_writable y.
Proof.
  induction q as [|c q IH]; intros n y Haw H.
  - inversion H; subst. exact Haw.
  - destruct n as [|w es]; [discriminate|]. cbn [lookup] in H.
    destruct (assoc c es) as [m|] eqn:Em; [|discriminate].
    inversion Haw as [|? Hall]; subst. rewrite Forall_forall in Hall.
    apply (IH m y); [|assumption]. apply (Hall (c, m)). now apply assoc_in.
Qed.

(** Whatever a path resolves to in the pruned tree is the pruned form of
    what it resolved to before. *)
Lemma lookup_prune_inv q :
  forall n x,
    wf n -> lookup q (prune n) = Some x ->
    exists y, lookup q n = Some y /\ x = prune y.
Proof.
  induction q as [|c q IH]; intros n x Hwf H.
  - inversion H; subst. exists n. split; reflexivity.
  - destruct n as [|w es]; [discriminate|]. cbn [prune lookup] in H.
    destruct (assoc c _) as [x0|] eqn:Ex; [|discriminate].
    apply PruneFacts.assoc_keep_in in Ex as (m & Hin & -> & _).
    inversion Hwf as [|? ? Hnd Hall]; subst. rewrite Forall_forall in Hall.
    cbn [lookup]. rewrite (in_assoc c es m Hnd Hin).
    apply IH; [|assumption]. apply (Hall (c, m) Hin).
Qed.

Lemma flat_map_nonempty {A B} (f : A -> list B) l :
  flat_map f l <> [] -> exists x, In x l /\ f x <> [].
Proof.
  induction l as [|a l IH]; cbn [flat_map]; [congruence|].
  intros H. destruct (f a) as [|b bs] eqn:E.
  - destruct (IH H) as (x & Hx & Hf). exists x. split; [now right|assumption].
  - exists a. split; [now left|]. rewrite E. discriminate.
Qed.

(** A directory that pruning leaves with entries has a file somewhere
    below. *)
Lemma prune_has_file n :
  wf n -> all_writable n ->
  forall w e es, prune n = Dir w (e :: es) ->
  exists r sz data, lookup r n = Some (File sz data).
Proof.
  induction n as [sz data|w0 es0 IH] using PruneFacts.node_ind';
    intros Hwf Haw w e es H; [discriminate|].
  inversion Hwf as [|? ? Hnd Hall]; subst.
  inversion Haw as [|? Hall']; subst.
  cbn [prune] in H. inversion H as [[Hw Hes]].
  destruct (flat_map_nonempty
              (fun e => keep_entry true (fst e) (prune (snd e))) es0)
    as ([c m] & Hin & Hkeep).
  { rewrite Hes. discriminate. }
  cbn [fst snd] in Hkeep. unfold keep_entry in Hkeep. cbn [andb] in Hkeep.
  rewrite Forall_forall in IH, Hall, Hall'.
  pose proof (in_assoc c es0 m Hnd Hin) as Hassoc.
  destruct m as [sz data|wm esm].
  - exists [c], sz, data. cbn [lookup]. now rewrite Hassoc.
  - destruct (prune (Dir wm esm)) as [|w1 [|e1 es1]] eqn:Ep;
      cbn [is_empty_dir] in Hkeep; try congruence; try discriminate.
    destruct (IH (c, Dir wm esm) Hin (Hall _ Hin) (Hall' _ Hin) w1 e1 es1 Ep)
      as (r & sz & data & Hr).
    exists (c :: r), sz, data. cbn [lookup]. now rewrite Hassoc.
Qed.

End KeptFacts.

(** X9: which directories the pruning pass keeps.  On a well-formed
    content directory whose directories may all be written, a path
    strictly below the content directory is a directory after the pass
    exactly when, before the pass, some file lay below it. *)
Theorem X9_pruning_keeps_what_holds_a_file content_dir s w es :
  FS.lookup content_dir (tree s) = Some (Dir w es) ->
  Prune.wf (Dir w es) ->
  Prune.all_writable (Dir w es) ->
  exists s',
    delete_empty_directories content_dir s = Return tt s' /\
    forall q,
      q <> [] ->
      ((exists w' es', FS.lookup (content_dir ++ q) (tree s') = Some (Dir w' es'))
       <->
       (exists r sz data,
           r <> [] /\
           FS.lookup (content_dir ++ q ++ r) (tree s) = Some (File sz data))).
Proof.
  intros Hn Hwf Haw.
  destruct (PruneFacts.delete_empty_directories_prune content_dir s w es Hn Hwf)
    as (s' & Hrun & Hroot).
  exists s'. split; [exact Hrun|]. intros q Hq.
  rewrite FSFacts.lookup_app, Hroot. split.
  - intros (w' & es' & Hd).
    destruct (KeptFacts.lookup_prune_inv q _ _ Hwf Hd) as (y & Hy & Hpy).
    destruct es' as [|e' es'].
    { exfalso. now apply (PruneFacts.prune_no_empty_below _ Haw q w' Hq). }
    destruct (KeptFacts.prune_has_file y
                (KeptFacts.wf_lookup q _ _ Hwf Hy)
                (KeptFacts.all_writable_lookup q _ _ Haw Hy)
                w' e' es' (eq_sym Hpy)) as (r & sz & data & Hr).
    exists r, sz, data. split.
    + intros ->. cbn [FS.lookup] in Hr. inversion Hr; subst. discriminate.
    + rewrite app_assoc, FSFacts.lookup_app, FSFacts.lookup_app, Hn.
      now rewrite Hy.
  - intros (r & sz & data & Hr & Hfile).
    rewrite FSFacts.lookup_app, Hn in Hfile.
    apply PruneFacts.prune_keeps_files in Hfile.
    rewrite FSFacts.lookup_app in Hfile.
    destruct (FS.lookup q (Prune.prune (Dir w es))) as [[sz' data'|w' es']|];
      try discriminate.
    + destruct r; [congruence|discriminate].
    + eauto.
Qed.

Lemma X9_pruning_keeps_what_holds_a_file_witness :
  exists s',
    delete_empty_directories ["m"] nfo_directory_state = Return tt s' /\
    exists w' es', FS.lookup ["m"; "extras.nfo"] (tree s') = Some (Dir w' es').
Proof.
  destruct (X9_pruning_keeps_what_holds_a_file ["m"] nfo_directory_state true
              [("extras.nfo", Dir true [("clip.mkv", File 9 "film")]);
               ("notes.txt", File 1 "text")]
              eq_refl) as (s' & Hrun & Hiff).
  - wf_tac.
  - repeat constructor.
  - exists s'. split; [exact Hrun|].
    apply (Hiff ["extras.nfo"]); [discriminate|].
    exists ["clip.mkv"], 9%Z, "film". split; [discriminate|reflexivity].
Defined.

(* ================================================================== *)
(** ** The names the renaming passes produce *)
(* ================================================================== *)

Module SuffixFacts.
Import Str Suffix StrFacts.

Lemma eqb_refl_true (s : string) : String.eqb s s = true.
Proof. apply String.eqb_refl. Qed.

Lemma endswith_iff (s t : string) :
  endswith s t = true <-> exists a, s = (a ++ t)%string.
Proof.
  split.
  - induction s as [|c s IH]; cbn [endswith]; intros H.
    + apply orb_true_iff in H as [H|H]; [|discriminate].
      apply String.eqb_eq in H. subst t. exists EmptyString. reflexivity.
    + apply orb_true_iff in H as [H|H].
      * apply String.eqb_eq in H. subst t. exists EmptyString. reflexivity.
      * destruct (IH H) as [a ->]. exists (String c a). reflexivity.
  - intros [a ->]. induction a as [|c a IH].
    + cbn [append]. destruct t; cbn [endswith]; now rewrite eqb_refl_true.
    + change (String c a ++ t)%string with (String c (a ++ t)%string).
      cbn [endswith]. rewrite IH. apply orb_true_r.
Qed.

(** Two ways to cut one string. *)
Lemma append_cut (a b c d : string) :
  (a ++ b)%string = (c ++ d)%string ->
  (exists e, c = (a ++ e)%string /\ b = (e ++ d)%string) \/
  (exists e, a = (c ++ e)%string /\ d = (e ++ b)%string).
Proof.
  revert c; induction a as [|x a IH]; intros c H.
  - left. exists c. split; [reflexivity|exact H].
  - destruct c as [|y c].
    + right. exists (String x a). split; [reflexivity|]. symmetry. exact H.
    + cbn [append] in H. inversion H as [[Hxy H']]. subst y.
      destruct (IH c H') as [(e & -> & ->)|(e & -> & ->)].
      * left. exists e. split; reflexivity.
      * right. exists e. split; reflexivity.
Qed.

Lemma tails_differ_spec (old : string) :
  forall t x u,
    tails_differ old t = true -> t = (x ++ u)%string -> u <> EmptyString ->
    String.prefix u old = false.
Proof.
  intros t x; revert t; induction x as [|c x IH]; intros t u Ht -> Hu.
  - cbn [append] in Ht. destruct u as [|c u]; [congruence|].
    cbn [tails_differ] in Ht. apply andb_true_iff in Ht as [Ht _].
    now apply negb_true_iff in Ht.
  - cbn [append tails_differ] in Ht. apply andb_true_iff in Ht as [_ Ht].
    now apply (IH (x ++ u)%string).
Qed.

Lemma append_eq_self_r (a r : string) : a = (a ++ r)%string -> r = EmptyString.
Proof.
  intros H. assert (Hl : String.length a = String.length (a ++ r)%string)
    by now rewrite <- H.
  rewrite append_length in Hl. destruct r; [reflexivity|simpl in Hl; lia].
Qed.

(** After an occurrence of a borderless marker, an occurrence at the end
    of the string lies in what follows. *)
Lemma endswith_after (old r : string) :
  borderless old = true ->
  endswith (old ++ r)%string old = true ->
  r = EmptyString \/ endswith r old = true.
Proof.
  intros Hb H. apply endswith_iff in H as [a H].
  destruct (append_cut _ _ _ _ H) as [(e & -> & ->)|(e & Hold1 & Hold2)].
  - right. apply endswith_iff. now exists e.
  - destruct a as [|c a].
    { cbn [append] in H. left. symmetry in H. now apply append_eq_self_r in H. }
    destruct e as [|y e].
    { right. cbn [append] in Hold2. subst r. apply endswith_iff.
      now exists EmptyString. }
    exfalso. subst old. cbn [append borderless] in Hb.
    pose proof (tails_differ_spec _ (a ++ String y e)%string a (String y e)
                  Hb eq_refl) as Hp.
    cbn [append] in Hold2. rewrite Hold2 in Hp.
    change (String y (e ++ r)%string) with (String y e ++ r)%string in Hp.
    rewrite prefix_append in Hp. discriminate Hp. discriminate.
Qed.

(** The characters that a match leaves to be skipped are skipped. *)
Lemma replace_from_skip (old new : string) :
  forall u r,
    replace_from old new (String.length u) (u ++ r)%string
    = replace_from old new 0 r.
Proof.
  induction u as [|c u IH]; intros r; [reflexivity|].
  cbn [String.length append replace_from]. apply IH.
Qed.

Lemma endswith_append (a x t : string) :
  endswith x t = true -> endswith (a ++ x)%string t = true.
Proof.
  intros H. apply endswith_iff in H as [b ->]. apply endswith_iff.
  exists (a ++ b)%string. now rewrite append_assoc.
Qed.

(** Replacing a borderless marker at the end of a string puts the
    replacement at the end of the result. *)
Lemma replace_from_endswith (old new : string) :
  borderless old = true -> 1 <= String.length old ->
  forall n s,
    String.length s <= n ->
    endswith s old = true ->
    endswith (replace_from old new 0 s) new = true.
Proof.
  intros Hb Hold. induction n as [|n IH]; intros s Hn He.
  - destruct s; [|simpl in Hn; lia].
    apply endswith_iff in He as [a Ha].
    destruct a, old; simpl in *; try discriminate; lia.
  - destruct s as [|c s].
    { apply endswith_iff in He as [a Ha].
      destruct a, old; simpl in *; try discriminate; lia. }
    cbn [replace_from].
    destruct (String.prefix old (String c s)) eqn:Hp.
    + apply prefix_split in Hp as [r Hr].
      destruct old as [|c0 old0]; [simpl in Hold; lia|].
      cbn [append] in Hr. inversion Hr as [[Hc Hs]]. subst c0.
      replace (String.length (String c old0) - 1) with (String.length old0)
        by (simpl; lia).
      rewrite replace_from_skip.
      rewrite Hs in He.
      change (String c (old0 ++ r)%string) with (String c old0 ++ r)%string in He.
      destruct (endswith_after _ _ Hb He) as [->|Hr'].
      * cbn [replace_from]. rewrite append_nil_r.
        apply endswith_iff. now exists EmptyString.
      * apply endswith_append. apply IH; [|assumption].
        subst s. simpl in Hn. rewrite append_length in Hn. lia.
    + cbn [endswith] in He. apply orb_true_iff in He as [He|He].
      * apply String.eqb_eq in He. rewrite <- He, prefix_refl in Hp. discriminate.
      * change (String c (replace_from old new 0 s))
          with (String c EmptyString ++ replace_from old new 0 s)%string.
        apply endswith_append. apply IH; [simpl in Hn; lia|assumption].
Qed.

Lemma replace_endswith (s old new : string) :
  borderless old = true -> 1 <= String.length old ->
  endswith s old = true ->
  endswith (replace s old new) new = true.
Proof.
  intros Hb Hold He. unfold replace.
  destruct old as [|c old0] eqn:E; [simpl in Hold; lia|]. rewrite <- E in *.
  now apply (replace_from_endswith old new Hb Hold (String.length s) s).
Qed.

(** A suffix of a suffix is a suffix. *)
Lemma endswith_trans (s a b : string) :
  endswith s a = true -> endswith a b = true -> endswith s b = true.
Proof.
  intros H1 H2. apply endswith_iff in H1 as [x ->].
  now apply endswith_append.
Qed.

(** Of two suffixes of one string the shorter is a suffix of the
    longer. *)
Lemma endswith_both (s a b : string) :
  endswith s a = true -> endswith s b = true ->
  String.length b <= String.length a ->
  endswith a b = true.
Proof.
  intros H1 H2 Hlen. apply endswith_iff in H1 as [x ->].
  apply endswith_iff in H2 as [y H].
  destruct (append_cut _ _ _ _ H) as [(e & -> & ->)|(e & -> & ->)].
  - apply endswith_iff. now exists e.
  - rewrite append_length in Hlen.
    destruct e; [|simpl in Hlen; lia].
    apply endswith_iff. now exists EmptyString.
Qed.

Lemma endswith_excludes (s a b : string) :
  endswith s a = true -> endswith a b = false ->
  String.length b <= String.length a ->
  endswith s b = false.
Proof.
  intros H1 H2 Hlen. destruct (endswith s b) eqn:E; [|reflexivity].
  rewrite (endswith_both s a b H1 E Hlen) in H2. discriminate.
Qed.

End SuffixFacts.

Section Names.
Import FS.

Lemma markers_borderless old :
  In old Frame.markers -> Suffix.borderless old = true.
Proof.
  intros H. cbn in H.
  destruct H as [<-|[<-|[<-|[<-|[<-|[]]]]]]; reflexivity.
Qed.

Lemma basename_replace_endswith p old new :
  In old Frame.markers ->
  Str.endswith (basename p) old = true ->
  Str.endswith (basename (path_replace p old new)) new = true.
Proof.
  intros Hold He.
  pose proof (FrameProgram.markers_nonempty old Hold) as Hlen.
  pose proof (PathFacts.endswith_nonempty p old Hlen He) as Hp.
  unfold path_replace. rewrite PathFacts.basename_map by assumption.
  apply SuffixFacts.replace_endswith; auto using markers_borderless.
Qed.

Lemma engine_names lang_str p :
  In lang_str lang_strs ->
  Str.endswith (basename p) (variant1_marker lang_str) = true ->
  Str.endswith (basename (canonical_path lang_str p)) ".eng.srt" = true /\
  Str.endswith (basename (sibling_path lang_str p)) (variant2_marker lang_str)
  = true /\
  Str.endswith (basename (forced_path lang_str (sibling_path lang_str p)))
    ".eng.forced.srt" = true.
Proof.
  intros Hlang Hend.
  pose proof (FrameProgram.marker1_in lang_str Hlang) as H1.
  pose proof (FrameProgram.marker2_in lang_str Hlang) as H2.
  assert (Hs : Str.endswith (basename (sibling_path lang_str p))
                 (variant2_marker lang_str) = true)
    by now apply basename_replace_endswith.
  split; [now apply basename_replace_endswith|]. split; [exact Hs|].
  now apply basename_replace_endswith.
Qed.

Lemma not_en_not_1_en name :
  Str.endswith name ".en.srt" = false -> Str.endswith name ".1.en.srt" = false.
Proof.
  intros H. destruct (Str.endswith name ".1.en.srt") eqn:E; [|reflexivity].
  rewrite (SuffixFacts.endswith_trans name ".1.en.srt" ".en.srt" E eq_refl) in H.
  discriminate.
Qed.

(** X10: the names the engine gives.  For a discovered file, the
    canonical name ends in [.eng.srt], the sibling name that is looked
    up ends in the variant-2 marker of the tag, and the forced name ends
    in [.eng.forced.srt]. *)
Theorem X10_engine_names_end_as_intended content_dir lang_str p s :
  In lang_str lang_strs ->
  discovered content_dir lang_str p s ->
  Str.endswith (basename (canonical_path lang_str p)) ".eng.srt" = true /\
  Str.endswith (basename (sibling_path lang_str p)) (variant2_marker lang_str)
  = true /\
  Str.endswith (basename (forced_path lang_str (sibling_path lang_str p)))
    ".eng.forced.srt" = true.
Proof.
  intros Hlang Hdisc. apply engine_names; [assumption|].
  now apply (PathFacts.discovered_endswith content_dir lang_str p s).
Qed.

Lemma X10_engine_names_end_as_intended_witness :
  Str.endswith (basename (canonical_path "en" ["m"; "a.1.1.1.en.srt"])) ".eng.srt"
  = true.
Proof.
  refine (proj1 (X10_engine_names_end_as_intended ["m"] "en"
                   ["m"; "a.1.1.1.en.srt"] tripled_state _ _)).
  - now left.
  - vm_compute. auto.
Defined.

(** X11: what the passes produce is not found again by the two-letter
    patterns.  The canonical name and the forced name of the engine, and
    the three-letter name of the language-tag pass, match neither
    [*.en.srt] nor [*.1.en.srt]; the forced name does not match
    [*.1.eng.srt] either. *)
Theorem X11_produced_names_leave_the_patterns content_dir lang_str p f s :
  In lang_str lang_strs ->
  discovered content_dir lang_str p s ->
  In f (glob_suffix content_dir ".en.srt" (tree s)) ->
  (forall name,
      In name [basename (canonical_path lang_str p);
               basename (forced_path lang_str (sibling_path lang_str p));
               basename (path_replace f ".en.srt" ".eng.srt")] ->
      Str.endswith name ".en.srt" = false /\
      Str.endswith name ".1.en.srt" = false) /\
  Str.endswith (basename (forced_path lang_str (sibling_path lang_str p)))
    ".1.eng.srt" = false.
Proof.
  intros Hlang Hdisc Hf.
  pose proof (PathFacts.discovered_endswith _ _ _ _ Hdisc) as Hend.
  destruct (engine_names lang_str p Hlang Hend) as (Hc & _ & Hfo).
  assert (He : Str.endswith (basename (path_replace f ".en.srt" ".eng.srt"))
                 ".eng.srt" = true).
  { apply basename_replace_endswith; [cbn; tauto|].
    now apply (FSFacts.glob_suffix_endswith content_dir ".en.srt" (tree s)). }
  split.
  - intros name Hname.
    assert (H : Str.endswith name ".en.srt" = false).
    { cbn [In] in Hname. destruct Hname as [<-|[<-|[<-|[]]]].
      - apply (SuffixFacts.endswith_excludes _ ".eng.srt");
          [assumption|reflexivity|simpl; lia].
      - apply (SuffixFacts.endswith_excludes _ ".eng.forced.srt");
          [assumption|reflexivity|simpl; lia].
      - apply (SuffixFacts.endswith_excludes _ ".eng.srt");
          [assumption|reflexivity|simpl; lia]. }
    split; [exact H|now apply not_en_not_1_en].
  - apply (SuffixFacts.endswith_excludes _ ".eng.forced.srt");
      [assumption|reflexivity|simpl; lia].
Qed.

Lemma X11_produced_names_leave_the_patterns_witness :
  Str.endswith (basename (path_replace ["m"; "b.en.srt"] ".en.srt" ".eng.srt"))
    ".en.srt" = false.
Proof.
  refine (proj1 (proj1 (X11_produced_names_leave_the_patterns ["m"] "en"
                          ["m"; "a.1.en.srt"] ["m"; "b.en.srt"]
                          (mkState (library [("a.1.en.srt", File 1 "o");
                                             ("b.en.srt", File 1 "t")]) [])
                          _ _ _) _ _)).
  - now left.
  - vm_compute. auto.
  - vm_compute. auto.
  - right. right. now left.
Defined.

(** X12: a sibling that the engine leaves in place under the tag [en]
    has a name that the pattern [*.en.srt] of the language-tag pass
    matches, so the next stage of [main] takes it up; under the tag
    [eng] its name matches none of the patterns of the two renaming
    passes. *)
Theorem X12_sibling_left_in_place_and_the_next_pass content_dir lang_str p s :
  discovered content_dir lang_str p s ->
  (lang_str = "en" ->
   Str.endswith (basename (sibling_path lang_str p)) ".en.srt" = true) /\
  (lang_str = "eng" ->
   Str.endswith (basename (sibling_path lang_str p)) ".en.srt" = false /\
   Str.endswith (basename (sibling_path lang_str p)) ".1.en.srt" = false /\
   Str.endswith (basename (sibling_path lang_str p)) ".1.eng.srt" = false).
Proof.
  intros Hdisc.
  pose proof (PathFacts.discovered_endswith _ _ _ _ Hdisc) as Hend.
  split; intros ->.
  - destruct (engine_names "en" p (or_introl eq_refl) Hend) as (_ & Hs & _).
    apply (SuffixFacts.endswith_trans _ _ ".en.srt" Hs). reflexivity.
  - destruct (engine_names "eng" p (or_intror (or_introl eq_refl)) Hend)
      as (_ & Hs & _).
    assert (H : Str.endswith (basename (sibling_path "eng" p)) ".en.srt" = false).
    { apply (SuffixFacts.endswith_excludes _ _ _ Hs); [reflexivity|simpl; lia]. }
    split; [exact H|]. split; [now apply not_en_not_1_en|].
    apply (SuffixFacts.endswith_excludes _ _ _ Hs); [reflexivity|simpl; lia].
Qed.

Lemma X12_sibling_left_in_place_and_the_next_pass_witness :
  Str.endswith (basename (sibling_path "en" ["m"; "a.1.en.srt"])) ".en.srt" = true.
Proof.
  refine (proj1 (X12_sibling_left_in_place_and_the_next_pass ["m"] "en"
                   ["m"; "a.1.en.srt"] (pair_state 1000 401) _) eq_refl).
  vm_compute. auto.
Defined.

(** X13: no file is discovered under both tags: a name that ends in
    [.1.en.srt] does not end in [.1.eng.srt]. *)
Theorem X13_tags_discover_different_files content_dir p s :
  discovered content_dir "en" p s -> ~ discovered content_dir "eng" p s.
Proof.
  intros H1 H2.
  apply PathFacts.discovered_endswith in H1.
  apply PathFacts.discovered_endswith in H2.
  change (variant1_marker "en") with ".1.en.srt" in H1.
  change (variant1_marker "eng") with ".1.eng.srt" in H2.
  assert (H : Str.endswith ".1.eng.srt" ".1.en.srt" = true)
    by (apply (SuffixFacts.endswith_both (basename p)); [assumption|assumption|simpl; lia]).
  discriminate H.
Qed.

Lemma X13_tags_discover_different_files_witness :
  ~ discovered ["m"] "eng" ["m"; "a.1.en.srt"] single_state.
Proof.
  apply (X13_tags_discover_different_files ["m"] ["m"; "a.1.en.srt"] single_state).
  vm_compute. auto.
Defined.

End Names.

(* ================================================================== *)
(** ** The metadata pass *)
(* ================================================================== *)

Module EraseFacts.
Import FS Prune Erase.

Lemma unlink_all_app l1 l2 fs :
  unlink_all (l1 ++ l2) fs =
  match unlink_all l1 fs with
  | Ok fs' => unlink_all l2 fs'
  | Err e => Err e
  end.
Proof.
  revert fs; induction l1 as [|p l1 IH]; intros fs; [reflexivity|].
  cbn [app unlink_all]. destruct (os_unlink p fs); [apply IH|reflexivity].
Qed.

(** The loop of the pass is the loop on the tree. *)
Lemma for_each_delete_file ps :
  forall s fs',
    unlink_all ps (tree s) = Ok fs' ->
    for_each delete_file ps s = Return tt (mkState fs' (logs s)).
Proof.
  induction ps as [|p ps IH]; intros s fs' H.
  - cbn in H. inversion H; subst. now destruct s.
  - cbn [unlink_all] in H. cbn [for_each]. unfold bind.
    rewrite delete_file_run.
    destruct (os_unlink p (tree s)) as [fs1|e]; [|discriminate].
    now rewrite (IH (mkState fs1 (logs s)) fs' H).
Qed.

(** [unlink] below an entry of a directory works inside that entry. *)
Lemma os_unlink_in_child w l1 c mc l2 q :
  ~ In c (map fst l1) -> ~ In c (map fst l2) -> q <> [] ->
  os_unlink (c :: q) (Dir w (l1 ++ (c, mc) :: l2)) =
  match os_unlink q mc with
  | Ok mc' => Ok (Dir w (l1 ++ (c, mc') :: l2))
  | Err e => Err e
  end.
Proof.
  intros H1 H2 Hq. unfold os_unlink, dir_writable, put.
  rewrite PruneFacts.dirname_cons, PruneFacts.basename_cons by assumption.
  cbn [lookup modify]. rewrite (PruneFacts.assoc_mid l1 c mc l2 H1).
  destruct (lookup q mc) as [n|]; [|reflexivity].
  destruct (lookup (dirname q) mc) as [[|wd esd]|]; cbn [negb]; try reflexivity.
  destruct wd; cbn [negb]; [|reflexivity].
  destruct n; [|reflexivity].
  now rewrite PruneFacts.set_entry_mid.
Qed.

(** [unlink] of a file that is an entry of a directory. *)
Lemma os_unlink_child w l1 c sz data l2 :
  ~ In c (map fst l1) -> ~ In c (map fst l2) ->
  os_unlink [c] (Dir w (l1 ++ (c, File sz data) :: l2)) =
  if w then Ok (Dir w (l1 ++ l2)) else Err EACCES.
Proof.
  intros H1 H2. unfold os_unlink, dir_writable, put.
  cbn [lookup modify dirname basename removelast last dir_set].
  rewrite (PruneFacts.assoc_mid l1 c _ l2 H1).
  destruct w; cbn [negb]; [|reflexivity].
  now rewrite PruneFacts.set_entry_mid.
Qed.

Lemma unlink_all_in_child w l1 c l2 qs :
  ~ In c (map fst l1) -> ~ In c (map fst l2) ->
  Forall (fun q => q <> []) qs ->
  forall mc,
    unlink_all (map (cons c) qs) (Dir w (l1 ++ (c, mc) :: l2)) =
    match unlink_all qs mc with
    | Ok mc' => Ok (Dir w (l1 ++ (c, mc') :: l2))
    | Err e => Err e
    end.
Proof.
  intros H1 H2 Hqs. induction Hqs as [|q qs Hq _ IH]; intros mc; [reflexivity|].
  cbn [map unlink_all]. rewrite os_unlink_in_child by assumption.
  destruct (os_unlink q mc); [apply IH|reflexivity].
Qed.

(** [unlink] below the content directory works inside its subtree. *)
Lemma os_unlink_below root fs n q :
  lookup root fs = Some n -> q <> [] ->
  match os_unlink q n with
  | Ok n' => exists fs', os_unlink (root ++ q) fs = Ok fs' /\
                         lookup root fs' = Some n'
  | Err e => os_unlink (root ++ q) fs = Err e
  end.
Proof.
  intros Hn Hq. unfold os_unlink, dir_writable, put.
  rewrite PruneFacts.dirname_app, PruneFacts.basename_app by assumption.
  rewrite !FSFacts.lookup_app, Hn.
  destruct (lookup q n) as [x|]; [|reflexivity].
  destruct (lookup (dirname q) n) as [[|wd esd]|]; cbn [negb]; try reflexivity.
  destruct wd; cbn [negb]; [|reflexivity].
  destruct x; [|reflexivity].
  eexists. split; [reflexivity|].
  now rewrite FSFacts.modify_app, FSFacts.lookup_modify, Hn.
Qed.

Lemma unlink_all_below root qs :
  Forall (fun q => q <> []) qs ->
  forall fs n n',
    lookup root fs = Some n ->
    unlink_all qs n = Ok n' ->
    exists fs', unlink_all (map (app root) qs) fs = Ok fs' /\
                lookup root fs' = Some n'.
Proof.
  induction 1 as [|q qs Hq _ IH]; intros fs n n' Hn H.
  - cbn in *. inversion H; subst. eauto.
  - cbn [map unlink_all] in *.
    pose proof (os_unlink_below root fs n q Hn Hq) as Hb.
    destruct (os_unlink q n) as [n1|e]; [|discriminate].
    destruct Hb as (fs1 & -> & Hn1). now apply (IH fs1 n1 n').
Qed.

(** *** The glob, seen from the node *)

Lemma matching_app top d es sfx :
  matching sfx (top ++ d, es) = map (app top) (matching sfx (d, es)).
Proof.
  unfold matching. cbn [fst snd]. rewrite map_map.
  apply map_ext. intros e. now rewrite app_assoc.
Qed.

Lemma glob_app top sfx n :
  flat_map (matching sfx) (directories (top ++ []) n)
  = map (app top) (glob_rel sfx n).
Proof.
  unfold glob_rel. rewrite FrameProgram.directories_app.
  induction (directories [] n) as [|[d es] l IH]; [reflexivity|].
  cbn [map flat_map fst snd]. rewrite map_app. f_equal; [|exact IH].
  apply matching_app.
Qed.

Lemma glob_suffix_rel root sfx fs n :
  lookup root fs = Some n ->
  glob_suffix root sfx fs = map (app root) (glob_rel sfx n).
Proof.
  intros Hn. unfold glob_suffix. rewrite Hn.
  rewrite <- (app_nil_r root) at 1. apply glob_app.
Qed.

Lemma glob_rel_dir sfx w es :
  glob_rel sfx (Dir w es)
  = map (fun e => [fst e]) (filter (fun e => Str.endswith (fst e) sfx) es)
    ++ flat_map (fun e => map (cons (fst e)) (glob_rel sfx (snd e))) es.
Proof.
  unfold glob_rel. cbn [directories flat_map]. f_equal.
  induction es as [|[c m] es IH]; [reflexivity|].
  cbn [flat_map fst snd]. rewrite flat_map_app, IH. f_equal.
  apply (glob_app [c] sfx m).
Qed.

Lemma glob_rel_nonempty sfx n : Forall (fun q => q <> []) (glob_rel sfx n).
Proof.
  unfold glob_rel. apply Forall_forall. intros q Hq.
  apply in_flat_map in Hq as ([d es] & _ & Hq). unfold matching in Hq.
  cbn [fst snd] in Hq. apply in_map_iff in Hq as (e & <- & _).
  destruct d; discriminate.
Qed.

End EraseFacts.

Module EraseProof.
Import FS Prune Erase EraseFacts.

Section Suffix.
Variable sfx : string.

Let matches (e : string * node) : bool := Str.endswith (fst e) sfx.
Let kept (e : string * node) : bool := negb (Str.endswith (fst e) sfx).
Let erase_entry (e : string * node) : string * node :=
  (fst e, erase sfx (snd e)).
Let files_matched (e : string * node) : Prop :=
  Str.endswith (fst e) sfx = true -> is_file (snd e) = true.

Lemma erase_entries w es :
  Forall files_matched es ->
  erase sfx (Dir w es) = Dir w (map erase_entry (filter kept es)).
Proof.
  intros H. cbn [erase]. f_equal.
  induction H as [|[c m] es Hm _ IH]; [reflexivity|].
  cbn [flat_map filter]. unfold erased, kept at 1. cbn [fst snd].
  unfold files_matched in Hm. cbn [fst snd] in Hm.
  destruct (Str.endswith c sfx) eqn:E; cbn [andb negb].
  - rewrite (Hm eq_refl). exact IH.
  - cbn [app map]. unfold erase_entry at 1. cbn [fst snd].
    f_equal. exact IH.
Qed.

Lemma names_filter (f : string * node -> bool) c l :
  In c (map fst (filter f l)) -> In c (map fst l).
Proof.
  intros H. apply in_map_iff in H as (e & <- & He).
  apply filter_In in He as [He _]. now apply in_map.
Qed.

Lemma nodup_split (done : list (string * node)) (c : string) (m : node)
  (todo : list (string * node)) :
  NoDup (map fst (done ++ (c, m) :: todo)) ->
  ~ In c (map fst done) /\ ~ In c (map fst todo) /\
  NoDup (map fst (done ++ todo)) /\
  forall x, NoDup (map fst ((done ++ [(c, x)]) ++ todo)).
Proof.
  intros Hnd. rewrite map_app in Hnd. cbn [map fst] in Hnd.
  pose proof (NoDup_remove_2 _ _ _ Hnd) as H2.
  pose proof (NoDup_remove_1 _ _ _ Hnd) as H1.
  rewrite in_app_iff in H2. repeat split; try tauto.
  - now rewrite map_app.
  - intros x. rewrite <- app_assoc, map_app. exact Hnd.
Qed.

(** The matching files of one directory are unlinked one by one. *)
Lemma unlink_matching :
  forall todo done,
    NoDup (map fst (done ++ todo)) ->
    Forall files_matched todo ->
    unlink_all (map (fun e => [fst e]) (filter matches todo))
      (Dir true (done ++ todo))
    = Ok (Dir true (done ++ filter kept todo)).
Proof.
  induction todo as [|[c m] todo IH]; intros done Hnd Hfm; [reflexivity|].
  inversion Hfm as [|? ? Hm Hfm']; subst.
  destruct (nodup_split done c m todo Hnd) as (Hc1 & Hc2 & Hnd1 & Hnd2).
  cbn [filter]. unfold matches at 1, kept at 1.
  unfold files_matched in Hm. cbn [fst snd] in *.
  destruct (Str.endswith c sfx) eqn:E; cbn [negb].
  - destruct m as [sz data|]; [|discriminate (Hm eq_refl)].
    cbn [map unlink_all fst]. rewrite os_unlink_child by assumption.
    now apply IH.
  - specialize (IH (done ++ [(c, m)]) (Hnd2 m) Hfm').
    rewrite <- !app_assoc in IH. exact IH.
Qed.

(** Then the subdirectories are taken one after the other. *)
Lemma unlink_below_entries w :
  forall todo done,
    NoDup (map fst (done ++ todo)) ->
    Forall files_matched todo ->
    Forall (fun e => unlink_all (glob_rel sfx (snd e)) (snd e)
                     = Ok (erase sfx (snd e))) todo ->
    unlink_all (flat_map (fun e => map (cons (fst e)) (glob_rel sfx (snd e))) todo)
      (Dir w (done ++ filter kept todo))
    = Ok (Dir w (done ++ map erase_entry (filter kept todo))).
Proof.
  induction todo as [|[c m] todo IH]; intros done Hnd Hfm Hsub; [reflexivity|].
  inversion Hfm as [|? ? Hm Hfm']; subst.
  inversion Hsub as [|? ? Hcm Hsub']; subst.
  destruct (nodup_split done c m todo Hnd) as (Hc1 & Hc2 & Hnd1 & Hnd2).
  assert (Hk : kept (c, m) = negb (Str.endswith c sfx)) by reflexivity.
  cbn [flat_map filter]. rewrite Hk. clear Hk.
  unfold files_matched in Hm. cbn [fst snd] in *.
  destruct (Str.endswith c sfx) eqn:E; cbn [negb].
  - destruct m as [sz data|]; [|discriminate (Hm eq_refl)].
    change (glob_rel sfx (File sz data)) with (@nil path).
    cbn [app map]. now apply IH.
  - rewrite unlink_all_app.
    rewrite unlink_all_in_child;
      [|assumption|intros H; apply Hc2; now apply names_filter in H
       |apply glob_rel_nonempty].
    rewrite Hcm. cbn [map].
    specialize (IH (done ++ [(c, erase sfx m)]) (Hnd2 _) Hfm' Hsub').
    rewrite <- !app_assoc in IH. exact IH.
Qed.

(** The loop over the glob of a tree computes [erase]. *)
Lemma unlink_all_glob_rel n :
  wf n -> all_writable n -> files_only sfx n ->
  unlink_all (glob_rel sfx n) n = Ok (erase sfx n).
Proof.
  induction n as [sz data|w es IH] using PruneFacts.node_ind';
    intros Hwf Haw Hfo; [reflexivity|].
  inversion Hwf as [|? ? Hnd Hwfs]; subst.
  inversion Haw as [|? Haws]; subst.
  inversion Hfo as [|? ? Hfos Hfm]; subst.
  rewrite glob_rel_dir, unlink_all_app.
  pose proof (unlink_matching es [] Hnd Hfm) as H1.
  cbn [app] in H1. unfold matches, kept in H1. rewrite H1. clear H1.
  rewrite erase_entries by exact Hfm.
  apply (unlink_below_entries true es [] Hnd Hfm).
  rewrite Forall_forall in *. intros e He.
  apply IH; auto.
Qed.

(** *** What [erase] keeps *)

Lemma assoc_erase_in c es x :
  assoc c (flat_map (fun e => if erased sfx e then []
                              else [(fst e, erase sfx (snd e))]) es) = Some x ->
  exists m, In (c, m) es /\ erased sfx (c, m) = false /\ x = erase sfx m.
Proof.
  induction es as [|[k v] es IH]; cbn [flat_map]; [discriminate|].
  destruct (erased sfx (k, v)) eqn:E; cbn [app fst snd].
  - intros H. destruct (IH H) as (m & Hin & Hx). exists m. split; [now right|exact Hx].
  - cbn [assoc]. destruct (String.eqb k c) eqn:Ek.
    + apply String.eqb_eq in Ek. subst k. intros H. inversion H; subst.
      exists v. split; [now left|auto].
    + intros H. destruct (IH H) as (m & Hin & Hx).
      exists m. split; [now right|exact Hx].
Qed.

Lemma assoc_erase_some c es m :
  assoc c es = Some m -> erased sfx (c, m) = false ->
  assoc c (flat_map (fun e => if erased sfx e then []
                              else [(fst e, erase sfx (snd e))]) es)
  = Some (erase sfx m).
Proof.
  induction es as [|[k v] es IH]; cbn [assoc flat_map]; [discriminate|].
  destruct (String.eqb k c) eqn:Ek.
  - intros H He. inversion H; subst.
    apply String.eqb_eq in Ek. subst k. rewrite He. cbn [app assoc fst snd].
    now rewrite String.eqb_refl.
  - intros H He. destruct (erased sfx (k, v)); cbn [app assoc fst snd];
      [|rewrite Ek]; now apply IH.
Qed.

Lemma erase_keeps_files q :
  forall n sz data,
    lookup q n = Some (File sz data) ->
    Str.endswith (basename q) sfx = false ->
    lookup q (erase sfx n) = Some (File sz data).
Proof.
  induction q as [|c q IH]; intros n sz data H Hname.
  - cbn [lookup] in *. inversion H. reflexivity.
  - destruct n as [|w es]; [discriminate|]. cbn [lookup erase] in *.
    destruct (assoc c es) as [m|] eqn:Em; [|discriminate].
    destruct q as [|c' q'].
    + cbn [lookup] in H. inversion H; subst.
      rewrite (assoc_erase_some c es _ Em); [reflexivity|].
      unfold erased. cbn [fst snd basename last] in *. now rewrite Hname.
    + rewrite (assoc_erase_some c es m Em).
      * apply IH; [assumption|].
        now rewrite PruneFacts.basename_cons in Hname by discriminate.
      * unfold erased. cbn [fst snd].
        destruct m; [discriminate H|apply andb_false_r].
Qed.

Lemma erase_keeps_dirs q :
  forall n w es,
    lookup q n = Some (Dir w es) ->
    exists es', lookup q (erase sfx n) = Some (Dir w es').
Proof.
  induction q as [|c q IH]; intros n w es H.
  - cbn [lookup] in *. inversion H. eexists. reflexivity.
  - destruct n as [|w0 es0]; [discriminate|]. cbn [lookup erase] in *.
    destruct (assoc c es0) as [m|] eqn:Em; [|discriminate].
    rewrite (assoc_erase_some c es0 m Em).
    + now apply (IH m w es).
    + unfold erased. cbn [fst snd].
      destruct m; [|apply andb_false_r].
      destruct q; discriminate H.
Qed.

(** Where no directory carries the suffix, nothing that does is left. *)
Lemma erase_leaves_no_match q :
  forall n x,
    files_only sfx n -> q <> [] ->
    lookup q (erase sfx n) = Some x ->
    Str.endswith (basename q) sfx = false.
Proof.
  induction q as [|c q IH]; intros n x Hfo Hq H; [congruence|].
  destruct n as [|w es]; [discriminate|]. cbn [lookup erase] in H.
  destruct (assoc c _) as [x0|] eqn:Ex; [|discriminate].
  apply assoc_erase_in in Ex as (m & Hin & Her & ->).
  inversion Hfo as [|? ? Hfos Hfm]; subst. rewrite Forall_forall in Hfos, Hfm.
  destruct q as [|c' q'].
  - cbn [basename last]. unfold erased in Her. cbn [fst snd] in Her.
    destruct (Str.endswith c sfx) eqn:E; [|reflexivity].
    pose proof (Hfm (c, m) Hin E) as Hf. cbn [snd] in Hf.
    rewrite Hf in Her. discriminate.
  - rewrite PruneFacts.basename_cons by discriminate.
    apply (IH (snd (c, m)) x); [now apply Hfos|discriminate|assumption].
Qed.

Lemma lookup_erase_inv q :
  forall n x,
    wf n -> lookup q (erase sfx n) = Some x ->
    exists y, lookup q n = Some y /\ x = erase sfx y.
Proof.
  induction q as [|c q IH]; intros n x Hwf H.
  - inversion H; subst. exists n. split; reflexivity.
  - destruct n as [|w es]; [discriminate|]. cbn [erase lookup] in H.
    destruct (assoc c _) as [x0|] eqn:Ex; [|discriminate].
    apply assoc_erase_in in Ex as (m & Hin & _ & ->).
    inversion Hwf as [|? ? Hnd Hall]; subst. rewrite Forall_forall in Hall.
    cbn [lookup]. rewrite (KeptFacts.in_assoc c es m Hnd Hin).
    apply IH; [|assumption]. apply (Hall (c, m) Hin).
Qed.

(** *** What [erase] preserves *)

Lemma erase_names c es :
  In c (map fst (flat_map (fun e => if erased sfx e then []
                                    else [(fst e, erase sfx (snd e))]) es)) ->
  In c (map fst es).
Proof.
  induction es as [|[k v] es IH]; cbn [flat_map map fst]; [auto|].
  destruct (erased sfx (k, v)); cbn [app map fst snd].
  - intros H. right. now apply IH.
  - intros [H|H]; [now left|right; now apply IH].
Qed.

Lemma erase_wf n : wf n -> wf (erase sfx n).
Proof.
  induction n as [sz data|w es IH] using PruneFacts.node_ind'; intros Hwf;
    [exact Hwf|].
  inversion Hwf as [|? ? Hnd Hall]; subst. cbn [erase]. constructor.
  - clear IH Hall Hwf. induction es as [|[k v] es IHes]; [constructor|].
    cbn [map fst] in Hnd. inversion Hnd as [|? ? Hk Hnd']; subst.
    cbn [flat_map]. destruct (erased sfx (k, v)); cbn [app map fst snd].
    + now apply IHes.
    + constructor; [|now apply IHes].
      intros H. apply Hk. now apply erase_names in H.
  - clear Hnd Hwf. induction es as [|[k v] es IHes]; [constructor|].
    inversion IH as [|? ? Hv IH']; subst. inversion Hall as [|? ? Hwv Hall']; subst.
    cbn [flat_map]. destruct (erased sfx (k, v)); cbn [app].
    + now apply IHes.
    + constructor; [cbn [snd] in *; now apply Hv|now apply IHes].
Qed.

Lemma erase_all_writable n : all_writable n -> all_writable (erase sfx n).
Proof.
  induction n as [sz data|w es IH] using PruneFacts.node_ind'; intros Haw;
    [exact Haw|].
  inversion Haw as [|? Hall]; subst. cbn [erase]. constructor.
  induction es as [|[k v] es IHes]; [constructor|].
  inversion IH as [|? ? Hv IH']; subst. inversion Hall as [|? ? Hwv Hall']; subst.
  cbn [flat_map]. destruct (erased sfx (k, v)); cbn [app].
  - apply IHes; auto. now constructor.
  - constructor; [cbn [snd] in *; now apply Hv|apply IHes; auto; now constructor].
Qed.

Lemma is_file_erase m : is_file (erase sfx m) = is_file m.
Proof. now destruct m. Qed.

Lemma erase_files_only sfx' n : files_only sfx' n -> files_only sfx' (erase sfx n).
Proof.
  induction n as [sz data|w es IH] using PruneFacts.node_ind'; intros Hfo;
    [exact Hfo|].
  inversion Hfo as [|? ? Hall Hfm]; subst. cbn [erase]. constructor.
  - clear Hfm Hfo. induction es as [|[k v] es IHes]; [constructor|].
    inversion IH as [|? ? Hv IH']; subst. inversion Hall as [|? ? Hwv Hall']; subst.
    cbn [flat_map]. destruct (erased sfx (k, v)); cbn [app].
    + now apply IHes.
    + constructor; [cbn [snd] in *; now apply Hv|now apply IHes].
  - clear IH Hall Hfo. induction es as [|[k v] es IHes]; [constructor|].
    inversion Hfm as [|? ? Hv Hfm']; subst.
    cbn [flat_map]. destruct (erased sfx (k, v)); cbn [app].
    + now apply IHes.
    + constructor; [|now apply IHes].
      cbn [fst snd] in *. intros H. rewrite is_file_erase. now apply Hv.
Qed.

(** One loop of the pass, on the content directory. *)
Lemma delete_loop root s n :
  lookup root (tree s) = Some n ->
  wf n -> all_writable n -> files_only sfx n ->
  exists fs',
    for_each delete_file (glob_suffix root sfx (tree s)) s
    = Return tt (mkState fs' (logs s)) /\
    lookup root fs' = Some (erase sfx n).
Proof.
  intros Hn Hwf Haw Hfo.
  destruct (unlink_all_below root (glob_rel sfx n) (glob_rel_nonempty sfx n)
              (tree s) n (erase sfx n) Hn (unlink_all_glob_rel n Hwf Haw Hfo))
    as (fs' & Hall & Hroot).
  exists fs'. split; [|exact Hroot].
  rewrite (glob_suffix_rel root sfx (tree s) n Hn).
  now apply for_each_delete_file.
Qed.

End Suffix.

End EraseProof.

(* ================================================================== *)
(** ** What the metadata pass removes and what it keeps *)
(* ================================================================== *)

Section MetadataPass.
Import FS Prune Erase.

(** X14: the metadata pass on a well-formed content directory whose
    directories may all be written and in which no directory has a name
    ending in [.nfo] or [.txt].  The pass returns, logs its one record, and
    leaves the content directory as the tree without its [.nfo] and [.txt]
    files: afterwards no path below the content directory has a name with
    one of the two endings, every file with another name is where it was
    with its size and content, and every directory is still a
    directory. *)
Theorem X14_metadata_pass_removes_nfo_and_txt content_dir s n :
  lookup content_dir (tree s) = Some n ->
  wf n -> all_writable n ->
  files_only ".nfo" n -> files_only ".txt" n ->
  exists fs',
    delete_nfo_and_txt_files content_dir s
    = Return tt
        (mkState fs'
           (logs s ++ [mkRecord INFO "Deleting .nfo and .txt files for content dir: '%s'."
                         [str content_dir]])) /\
    lookup content_dir fs' = Some (erase ".txt" (erase ".nfo" n)) /\
    (forall q x,
        q <> [] -> lookup (content_dir ++ q) fs' = Some x ->
        Str.endswith (basename q) ".nfo" = false /\
        Str.endswith (basename q) ".txt" = false) /\
    (forall q sz data,
        lookup (content_dir ++ q) (tree s) = Some (File sz data) ->
        Str.endswith (basename q) ".nfo" = false ->
        Str.endswith (basename q) ".txt" = false ->
        lookup (content_dir ++ q) fs' = Some (File sz data)) /\
    (forall q w es,
        lookup (content_dir ++ q) (tree s) = Some (Dir w es) ->
        exists es', lookup (content_dir ++ q) fs' = Some (Dir w es')).
Proof.
  intros Hn Hwf Haw Hnfo Htxt.
  set (s0 := mkState (tree s)
               (logs s ++ [mkRecord INFO "Deleting .nfo and .txt files for content dir: '%s'."
                             [str content_dir]])).
  destruct (EraseProof.delete_loop ".nfo" content_dir s0 n Hn Hwf Haw Hnfo)
    as (fs1 & Hrun1 & Hroot1).
  set (n1 := erase ".nfo" n) in *.
  assert (Hwf1 : wf n1) by now apply EraseProof.erase_wf.
  assert (Haw1 : all_writable n1) by now apply EraseProof.erase_all_writable.
  assert (Htxt1 : files_only ".txt" n1) by now apply EraseProof.erase_files_only.
  destruct (EraseProof.delete_loop ".txt" content_dir (mkState fs1 (logs s0)) n1
              Hroot1 Hwf1 Haw1 Htxt1)
    as (fs2 & Hrun2 & Hroot2).
  exists fs2. split; [|split; [exact Hroot2|split; [|split]]].
  - unfold delete_nfo_and_txt_files.
    unfold bind at 1. unfold logger_info, logger_log.
    cbn [level_no logger_level Nat.leb]. fold s0.
    unfold bind at 1. unfold glob at 1.
    unfold bind at 1. rewrite Hrun1.
    unfold bind at 1. unfold glob at 1.
    cbn [tree] in Hrun2 |- *. rewrite Hrun2. reflexivity.
  - intros q x Hq Hx. rewrite FSFacts.lookup_app, Hroot2 in Hx. split.
    + destruct (EraseProof.lookup_erase_inv ".txt" q n1 x Hwf1 Hx) as (y & Hy & _).
      now apply (EraseProof.erase_leaves_no_match ".nfo" q n y).
    + now apply (EraseProof.erase_leaves_no_match ".txt" q n1 x).
  - intros q sz data Hq H1 H2. rewrite FSFacts.lookup_app, Hn in Hq.
    rewrite FSFacts.lookup_app, Hroot2.
    apply EraseProof.erase_keeps_files; [|assumption].
    now apply EraseProof.erase_keeps_files.
  - intros q w es Hq. rewrite FSFacts.lookup_app, Hn in Hq.
    rewrite FSFacts.lookup_app, Hroot2.
    destruct (EraseProof.erase_keeps_dirs ".nfo" q n w es Hq) as [es1 H1].
    now apply (EraseProof.erase_keeps_dirs ".txt" q n1 w es1).
Qed.

Lemma X14_metadata_pass_removes_nfo_and_txt_witness :
  exists fs',
    delete_nfo_and_txt_files ["m"] metadata_state
    = Return tt
        (mkState fs'
           [mkRecord INFO "Deleting .nfo and .txt files for content dir: '%s'."
              [str ["m"]]]) /\
    lookup ["m"] fs'
    = Some (Dir true [("movie.mkv", File 9 "film");
                      ("season", Dir true [("e1.eng.srt", File 5 "subs")])]).
Proof.
  destruct (X14_metadata_pass_removes_nfo_and_txt ["m"] metadata_state
              (Dir true [("movie.nfo", File 2 "info");
                         ("movie.mkv", File 9 "film");
                         ("season", Dir true [("readme.txt", File 1 "text");
                                              ("e1.eng.srt", File 5 "subs");
                                              ("e1.nfo", File 2 "info")])])
              eq_refl)
    as (fs' & Hrun & Hroot & _).
  - wf_tac.
  - repeat constructor.
  - repeat constructor; cbn; intros H; try reflexivity; discriminate H.
  - repeat constructor; cbn; intros H; try reflexivity; discriminate H.
  - exists fs'. split; [exact Hrun|exact Hroot].
Defined.

End MetadataPass.

(* ================================================================== *)
(** ** The script over its content directories *)
(* ================================================================== *)

Section Script.
Import FS.

Lemma keeps_main content_dir s :
  Frame.marker_free content_dir ->
  Frame.keeps_at content_dir (main content_dir) s.
Proof.
  intros Hfree. unfold main.
  apply FrameFacts.keeps_bind; [apply FrameFacts.keeps_log|intros _ s1 _].
  apply FrameFacts.keeps_bind;
    [now apply FrameProgram.keeps_rename_forced_subs|intros _ s2 _].
  apply FrameFacts.keeps_bind;
    [now apply FrameProgram.keeps_rename_en_to_eng_subs|intros _ s3 _].
  apply FrameFacts.keeps_bind;
    [apply FrameProgram.keeps_delete_nfo_and_txt_files|intros _ s4 _].
  apply FrameProgram.keeps_delete_empty_directories.
Qed.

Lemma content_dirs_marker_free d :
  In d CONTENT_DIRS -> Frame.marker_free d.
Proof.
  intros [<-|[<-|[]]] c old Hc Hold; cbn in Hc, Hold;
    repeat match goal with
           | H : _ \/ _ |- _ => destruct H as [<-|H]
           | H : False |- _ => destruct H
           end; reflexivity.
Qed.

Lemma for_each_main_outside dirs :
  forall s q,
    (forall d, In d dirs -> Frame.marker_free d) ->
    (forall d, In d dirs -> Frame.apart d q) ->
    lookup q (tree (Frame.final (for_each main dirs s))) = lookup q (tree s).
Proof.
  induction dirs as [|d dirs IH]; intros s q Hfree Hq; [reflexivity|].
  cbn [for_each]. unfold bind.
  pose proof (keeps_main d s (Hfree d (or_introl eq_refl)) q
                (Hq d (or_introl eq_refl))) as Hd.
  destruct (main d s) as [[] s1|e s1]; cbn [Frame.final] in *; [|exact Hd].
  rewrite <- Hd. apply IH; intros d' Hd'; [apply Hfree|apply Hq]; now right.
Qed.

(** X15: whatever the script does and however it ends, a path that is
    apart from both content directories (neither leads to the other)
    resolves afterwards to what it resolved to before: the script works
    inside [/volume2/data/media/movies] and [/volume2/data/media/tv]
    only. *)
Theorem X15_script_works_inside_the_content_directories s q :
  (forall d, In d CONTENT_DIRS -> Frame.apart d q) ->
  lookup q (tree (Frame.final (script s))) = lookup q (tree s).
Proof.
  intros Hq. unfold script.
  apply for_each_main_outside; [apply content_dirs_marker_free|exact Hq].
Qed.

Lemma X15_script_works_inside_the_content_directories_witness :
  lookup ["volume2"; "data"; "media"; "music"]
    (tree (Frame.final (script volume_state)))
  = lookup ["volume2"; "data"; "media"; "music"] (tree volume_state) /\
  lookup ["volume2"; "data"; "media"; "movies"]
    (tree (Frame.final (script volume_state)))
  = Some (Dir true [("a.eng.srt", File 10 "original")]).
Proof.
  split; [|vm_compute; reflexivity].
  apply (X15_script_works_inside_the_content_directories volume_state
           ["volume2"; "data"; "media"; "music"]).
  intros d [<-|[<-|[]]]; split; reflexivity.
Defined.

(** X16: the script has no handler around [main].  When the run on the
    first content directory, [/volume2/data/media/movies], ends with an
    error, the script ends with that error in the same state, and the
    second content directory, [/volume2/data/media/tv], is as it was
    before the script started: it is not cleaned. *)
Theorem X16_script_stops_at_the_first_error s e s1 :
  main ["volume2"; "data"; "media"; "movies"] s = Raise e s1 ->
  script s = Raise e s1 /\
  lookup ["volume2"; "data"; "media"; "tv"] (tree s1)
  = lookup ["volume2"; "data"; "media"; "tv"] (tree s).
Proof.
  intros H. split.
  - unfold script, CONTENT_DIRS. cbn [for_each]. unfold bind at 1.
    now rewrite H.
  - pose proof (keeps_main ["volume2"; "data"; "media"; "movies"] s
                  (content_dirs_marker_free _ (or_introl eq_refl))
                  ["volume2"; "data"; "media"; "tv"]) as Hk.
    rewrite H in Hk. cbn [Frame.final] in Hk. apply Hk. split; reflexivity.
Qed.

Lemma X16_script_stops_at_the_first_error_witness :
  script broken_volume_state
  = Raise EISDIR
      (mkState (tree broken_volume_state)
         [mkRecord INFO "Cleaning media for content dir: '%s'."
            [str ["volume2"; "data"; "media"; "movies"]];
          mkRecord INFO "Renaming forced subs for content dir: '%s'."
            [str ["volume2"; "data"; "media"; "movies"]];
          mkRecord INFO "Renaming en subs to eng subs for content dir: '%s'."
            [str ["volume2"; "data"; "media"; "movies"]];
          mkRecord INFO "Deleting .nfo and .txt files for content dir: '%s'."
            [str ["volume2"; "data"; "media"; "movies"]]]) /\
  lookup ["volume2"; "data"; "media"; "tv"] (tree broken_volume_state)
  = Some (Dir true [("b.en.srt", File 10 "subs")]).
Proof.
  refine (X16_script_stops_at_the_first_error broken_volume_state EISDIR _ _).
  vm_compute. reflexivity.
Defined.

End Script.

(* ================================================================== *)
(** ** Names with one marker *)
(* ================================================================== *)

Module NameFacts.
Import Str Suffix StrFacts SuffixFacts Tidy.

Lemma take_append (x m : string) : take (String.length x) (x ++ m)%string = x.
Proof. induction x as [|a x IH]; [now destruct m|]. cbn. now rewrite IH. Qed.

Lemma stem_append (x m : string) : stem (x ++ m)%string m = x.
Proof.
  unfold stem. rewrite append_length.
  replace (String.length x + String.length m - String.length m)
    with (String.length x) by lia.
  apply take_append.
Qed.

Lemma endswith_stem (c m : string) :
  endswith c m = true -> c = (stem c m ++ m)%string.
Proof.
  intros H. apply endswith_iff in H as [a ->]. now rewrite stem_append.
Qed.

Lemma marker_free_name_spec (x : string) :
  marker_free_name x = true <->
  forall old, In old Frame.markers -> count_from old 0 x = 0.
Proof.
  unfold marker_free_name. rewrite forallb_forall. split; intros H old Hold.
  - now apply Nat.eqb_eq, H.
  - now apply Nat.eqb_eq, H.
Qed.

Lemma append_inj_l (x a b : string) : (x ++ a)%string = (x ++ b)%string -> a = b.
Proof. induction x as [|c x IH]; cbn; intros H; [exact H|]. inversion H. auto. Qed.

Lemma append_inj_r (x y a : string) : (x ++ a)%string = (y ++ a)%string -> x = y.
Proof.
  intros H. apply (append_inj_length x y a a); [|exact H].
  assert (Hl : String.length (x ++ a)%string = String.length (y ++ a)%string)
    by now rewrite H.
  rewrite !append_length in Hl. lia.
Qed.

(** An ending that follows an ending. *)
Lemma endswith_cancel (x a b : string) :
  endswith (x ++ a)%string (b ++ a)%string = true -> endswith x b = true.
Proof.
  intros H. apply endswith_iff in H as [y H].
  rewrite <- append_assoc in H. apply append_inj_r in H. subst x.
  apply endswith_iff. now exists y.
Qed.

Lemma endswith_self (x a : string) : endswith (x ++ a)%string a = true.
Proof. apply endswith_iff. now exists x. Qed.

(** A borderless marker does not begin before its own occurrence at
    the end. *)
Lemma prefix_straddle (old x : string) :
  borderless old = true -> x <> EmptyString ->
  String.prefix old x = false ->
  String.prefix old (x ++ old)%string = false.
Proof.
  intros Hb Hx Hp.
  destruct (String.prefix old (x ++ old)%string) eqn:E; [|reflexivity].
  exfalso. apply prefix_split in E as [r Hr].
  destruct (append_cut _ _ _ _ Hr) as [(e & Ho1 & Ho2)|(e & Hx1 & _)].
  - destruct e as [|y e].
    + rewrite append_nil_r in Ho1. subst x. rewrite prefix_refl in Hp.
      discriminate.
    + destruct x as [|a x]; [congruence|].
      rewrite Ho1 in Hb. cbn [append borderless] in Hb.
      pose proof (tails_differ_spec _ _ x (String y e) Hb eq_refl) as Hd.
      change (String a (x ++ String y e)%string)
        with (String a x ++ String y e)%string in Hd.
      specialize (Hd ltac:(discriminate)).
      rewrite <- Ho1, Ho2, prefix_append in Hd. discriminate Hd.
  - rewrite Hx1, prefix_append in Hp. discriminate.
Qed.

Lemma replace_from_exact (old new : string) :
  borderless old = true -> 1 <= String.length old ->
  forall x,
    count_from old 0 x = 0 ->
    replace_from old new 0 (x ++ old)%string = (x ++ new)%string.
Proof.
  intros Hb Hold. induction x as [|a x IH]; intros Hc.
  - cbn [append]. destruct old as [|a t]; [simpl in Hold; lia|].
    cbn [replace_from]. rewrite prefix_refl.
    replace (String.length (String a t) - 1) with (String.length t)
      by (simpl; lia).
    pose proof (replace_from_skip (String a t) new t EmptyString) as Hk.
    rewrite append_nil_r in Hk. rewrite Hk.
    cbn [replace_from]. apply append_nil_r.
  - cbn [count_from] in Hc.
    destruct (String.prefix old (String a x)) eqn:Hp; [discriminate|].
    change (String a x ++ old)%string with (String a (x ++ old)%string).
    cbn [replace_from].
    change (String a (x ++ old)%string) with (String a x ++ old)%string.
    rewrite (prefix_straddle old (String a x) Hb) by (assumption || discriminate).
    cbn [append]. now rewrite IH.
Qed.

(** Replacing the one marker of a name, at its end. *)
Lemma replace_exact (old new x : string) :
  borderless old = true -> 1 <= String.length old ->
  count_from old 0 x = 0 ->
  replace (x ++ old)%string old new = (x ++ new)%string.
Proof.
  intros Hb Hold Hc. unfold replace.
  destruct old as [|a t] eqn:E; [simpl in Hold; lia|]. rewrite <- E in *.
  now apply replace_from_exact.
Qed.

Lemma single_marker_stem (c m : string) :
  single_marker c = true -> In m discovery_markers ->
  endswith c m = true ->
  c = (stem c m ++ m)%string /\ marker_free_name (stem c m) = true.
Proof.
  intros Hs Hm He. split; [now apply endswith_stem|].
  unfold single_marker in Hs.
  apply andb_true_iff in Hs as [Hs _]. apply andb_true_iff in Hs as [Hs _].
  rewrite forallb_forall in Hs. specialize (Hs m Hm).
  now rewrite He in Hs.
Qed.

Lemma single_marker_not_doubled (c : string) :
  single_marker c = true ->
  endswith c ".1.1.en.srt" = false /\ endswith c ".1.1.eng.srt" = false.
Proof.
  unfold single_marker. intros Hs.
  apply andb_true_iff in Hs as [Hs H2]. apply andb_true_iff in Hs as [_ H1].
  now apply negb_true_iff in H1, H2.
Qed.

(** A name that no pass looks for carries at most one marker. *)
Lemma undiscovered_single (c : string) :
  (forall m, In m discovery_markers -> endswith c m = false) ->
  single_marker c = true.
Proof.
  intros H. unfold single_marker.
  rewrite !andb_true_iff, !negb_true_iff. split; [split|].
  - apply forallb_forall. intros m Hm. now rewrite (H m Hm).
  - destruct (endswith c ".1.1.en.srt") eqn:E; [|reflexivity].
    rewrite <- (H ".en.srt"); [|cbn; tauto].
    symmetry. now apply (endswith_trans c ".1.1.en.srt").
  - destruct (endswith c ".1.1.eng.srt") eqn:E; [|reflexivity].
    rewrite <- (H ".1.eng.srt"); [|cbn; tauto].
    symmetry. now apply (endswith_trans c ".1.1.eng.srt").
Qed.

(** The names the passes give are looked for by no pass. *)
Lemma eng_name_undiscovered (x : string) :
  endswith x ".1" = false ->
  forall m, In m discovery_markers ->
            endswith (x ++ ".eng.srt")%string m = false.
Proof.
  intros Hx m Hm.
  assert (Hen : endswith (x ++ ".eng.srt")%string ".en.srt" = false)
    by (apply (endswith_excludes _ ".eng.srt");
        [apply endswith_self|reflexivity|simpl; lia]).
  cbn in Hm. destruct Hm as [<-|[<-|[<-|[]]]].
  - now apply not_en_not_1_en.
  - destruct (endswith (x ++ ".eng.srt")%string ".1.eng.srt") eqn:E;
      [|reflexivity].
    change ".1.eng.srt" with (".1" ++ ".eng.srt")%string in E.
    apply endswith_cancel in E. congruence.
  - exact Hen.
Qed.

Lemma forced_name_undiscovered (x : string) :
  forall m, In m discovery_markers ->
            endswith (x ++ ".eng.forced.srt")%string m = false.
Proof.
  intros m Hm. cbn in Hm.
  destruct Hm as [<-|[<-|[<-|[]]]];
    (apply (endswith_excludes _ ".eng.forced.srt");
     [apply endswith_self|reflexivity|simpl; lia]).
Qed.

Lemma ends_srt (x e : string) :
  endswith e ".srt" = true -> endswith (x ++ e)%string ".srt" = true.
Proof. intros H. apply (endswith_trans _ e); [apply endswith_self|exact H]. Qed.

(** The three names of one group of the engine. *)
Lemma forced_names (lang_str c : string) :
  In lang_str lang_strs ->
  single_marker c = true ->
  endswith c (variant1_marker lang_str) = true ->
  exists x,
    c = (x ++ variant1_marker lang_str)%string /\
    replace c (variant1_marker lang_str) ".eng.srt" = (x ++ ".eng.srt")%string /\
    replace c (variant1_marker lang_str) (variant2_marker lang_str)
    = (x ++ variant2_marker lang_str)%string /\
    replace (x ++ variant2_marker lang_str)%string (variant2_marker lang_str)
      ".eng.forced.srt" = (x ++ ".eng.forced.srt")%string /\
    endswith x ".1" = false.
Proof.
  intros Hl Hs He.
  assert (Hm : In (variant1_marker lang_str) discovery_markers).
  { cbn in Hl. destruct Hl as [<-|[<-|[]]]; cbn; tauto. }
  destruct (single_marker_stem c _ Hs Hm He) as [Hc Hx].
  set (x := stem c (variant1_marker lang_str)) in *.
  rewrite marker_free_name_spec in Hx.
  pose proof (FrameProgram.marker1_in lang_str Hl) as H1.
  pose proof (FrameProgram.marker2_in lang_str Hl) as H2.
  exists x. split; [exact Hc|].
  rewrite Hc at 1 2.
  rewrite !replace_exact;
    auto using markers_borderless, FrameProgram.markers_nonempty.
  repeat split.
  destruct (endswith x ".1") eqn:E; [|reflexivity].
  apply endswith_iff in E as [y Hy].
  destruct (single_marker_not_doubled c Hs) as [Hd1 Hd2].
  assert (Hend : endswith c (".1" ++ variant1_marker lang_str)%string = true).
  { apply endswith_iff. exists y. rewrite Hc, Hy. apply append_assoc. }
  cbn in Hl. destruct Hl as [<-|[<-|[]]]; cbn in Hend; congruence.
Qed.

(** The name that the language-tag pass gives. *)
Lemma en_names (c : string) :
  single_marker c = true ->
  endswith c ".en.srt" = true ->
  endswith c ".1.en.srt" = false ->
  exists x,
    c = (x ++ ".en.srt")%string /\
    replace c ".en.srt" ".eng.srt" = (x ++ ".eng.srt")%string /\
    endswith x ".1" = false.
Proof.
  intros Hs He Hn.
  destruct (single_marker_stem c ".en.srt" Hs) as [Hc Hx];
    [cbn; tauto|assumption|].
  set (x := stem c ".en.srt") in *. rewrite marker_free_name_spec in Hx.
  exists x. split; [exact Hc|]. split.
  - rewrite Hc at 1. apply replace_exact; [reflexivity|simpl; lia|].
    apply Hx. cbn. tauto.
  - destruct (endswith x ".1") eqn:E; [|reflexivity].
    apply endswith_iff in E as [y Hy].
    assert (Hend : endswith c ".1.en.srt" = true).
    { apply endswith_iff. exists y. rewrite Hc, Hy. apply append_assoc. }
    congruence.
Qed.

End NameFacts.

(* ================================================================== *)
(** ** Listings as finite maps, and calls below a directory *)
(* ================================================================== *)

Module TidyFacts.
Import FS Tidy.

(** *** One listing *)

Lemma names_del c k es :
  In k (map fst (del c es)) -> k <> c /\ In k (map fst es).
Proof.
  induction es as [|[j v] es IH]; cbn [del map fst]; [tauto|].
  destruct (String.eqb j c) eqn:E.
  - intros H. destruct (IH H). split; [assumption|now right].
  - cbn [map fst]. intros [<-|H].
    + split; [now apply String.eqb_neq|now left].
    + destruct (IH H). split; [assumption|now right].
Qed.

Lemma NoDup_del c es : NoDup (map fst es) -> NoDup (map fst (del c es)).
Proof.
  induction es as [|[j v] es IH]; cbn [del map fst]; intros H; [constructor|].
  inversion H as [|? ? Hj Hes]; subst.
  destruct (String.eqb j c); [now apply IH|].
  cbn [map fst]. constructor; [|now apply IH].
  intros Hin. apply names_del in Hin. tauto.
Qed.

Lemma names_set_entry c o k es :
  In k (map fst (set_entry c o es)) -> k = c \/ In k (map fst es).
Proof.
  induction es as [|[j v] es IH]; cbn [set_entry map fst].
  - destruct o; cbn; [intros [<-|[]]; now left|tauto].
  - destruct (String.eqb j c) eqn:E.
    + destruct o; cbn [map fst]; intros H.
      * destruct H as [<-|H]; [now left|]. apply names_del in H.
        right. right. tauto.
      * apply names_del in H. right. right. tauto.
    + cbn [map fst]. intros [<-|H]; [right; now left|].
      destruct (IH H); [now left|right; now right].
Qed.

Lemma NoDup_set_entry c o es :
  NoDup (map fst es) -> NoDup (map fst (set_entry c o es)).
Proof.
  induction es as [|[j v] es IH]; cbn [set_entry map fst]; intros H.
  - destruct o; cbn; repeat constructor. tauto.
  - inversion H as [|? ? Hj Hes]; subst.
    destruct (String.eqb j c) eqn:E.
    + destruct o; [|now apply NoDup_del].
      cbn [map fst]. constructor; [|now apply NoDup_del].
      intros Hin. apply names_del in Hin. tauto.
    + cbn [map fst]. constructor; [|now apply IH].
      intros Hin. apply names_set_entry in Hin as [->|Hin]; [|tauto].
      rewrite String.eqb_refl in E. discriminate.
Qed.

Lemma del_del c es : del c (del c es) = del c es.
Proof.
  induction es as [|[j v] es IH]; cbn [del]; [reflexivity|].
  destruct (String.eqb j c) eqn:E; [exact IH|].
  cbn [del]. now rewrite E, IH.
Qed.

Lemma set_entry_twice c a b es :
  set_entry c (Some b) (set_entry c (Some a) es) = set_entry c (Some b) es.
Proof.
  induction es as [|[j v] es IH]; cbn [set_entry].
  - now rewrite String.eqb_refl.
  - destruct (String.eqb j c) eqn:E; cbn [set_entry].
    + now rewrite String.eqb_refl, del_del.
    + now rewrite E, IH.
Qed.

(** In a listing without a double name an entry is where its name
    leads. *)
Lemma assoc_split c m es :
  NoDup (map fst es) -> assoc c es = Some m ->
  exists l1 l2,
    es = l1 ++ (c, m) :: l2 /\
    ~ In c (map fst l1) /\ ~ In c (map fst l2).
Proof.
  intros Hnd H. apply KeptFacts.assoc_in in H.
  apply in_split in H as (l1 & l2 & ->).
  exists l1, l2. split; [reflexivity|].
  rewrite map_app in Hnd. cbn [map fst] in Hnd.
  apply NoDup_remove_2 in Hnd. rewrite in_app_iff in Hnd. tauto.
Qed.

Lemma listing_ok_set ts k o es :
  listing_ok ts es ->
  (forall x, o = Some x ->
             entry_ok k x = true /\
             forall t, In t ts -> Str.endswith k t = false) ->
  listing_ok ts (set_entry k o es).
Proof.
  intros [Hnd Hok] Ho. split; [now apply NoDup_set_entry|].
  intros j y Hj. destruct (string_dec k j) as [<-|Hne].
  - rewrite FSFacts.assoc_set_same in Hj. now apply Ho.
  - rewrite FSFacts.assoc_set_other in Hj by assumption. now apply Hok.
Qed.

Lemma tidy_listing ts es : tidy ts (Dir true es) -> listing_ok ts es.
Proof.
  intros H. inversion H as [|? Hnd Hok Hts _]; subst. split; [assumption|].
  intros k x Hk. apply KeptFacts.assoc_in in Hk.
  rewrite Forall_forall in Hok, Hts.
  split; [apply (Hok (k, x) Hk)|apply (Hts (k, x) Hk)].
Qed.

(** *** Calls on one entry of a directory *)

Lemma os_rename_entry c c1 sz data es :
  c <> c1 ->
  assoc c es = Some (File sz data) ->
  (forall w l, assoc c1 es <> Some (Dir w l)) ->
  os_rename [c] [c1] (Dir true es)
  = Ok (Dir true (set_entry c1 (Some (File sz data)) (set_entry c None es))).
Proof.
  intros Hne Hc Hd.
  rewrite (EngineFacts.os_rename_file [c] [c1] (Dir true es) sz data es es);
    try reflexivity.
  - congruence.
  - cbn [lookup]. now rewrite Hc.
  - cbn [lookup]. intros w l. destruct (assoc c1 es) as [x|] eqn:E; [|discriminate].
    intros H. inversion H; subst. now apply (Hd w l).
Qed.

Lemma os_unlink_entry c sz data es :
  assoc c es = Some (File sz data) ->
  os_unlink [c] (Dir true es) = Ok (Dir true (set_entry c None es)).
Proof.
  intros Hc. unfold os_unlink, dir_writable, put.
  cbn [lookup dirname basename removelast last modify dir_set negb].
  now rewrite Hc.
Qed.

(** *** Calls below a directory *)

Lemma modify_modify d f g :
  forall n, modify d g (modify d f n) = modify d (fun x => g (f x)) n.
Proof.
  induction d as [|c d IH]; intros n; [reflexivity|].
  destruct n as [sz data|w es]; [reflexivity|]. cbn [modify].
  destruct (assoc c es) as [m|] eqn:E.
  - cbn [modify]. rewrite FSFacts.assoc_set_same, IH, set_entry_twice.
    reflexivity.
  - cbn [modify]. now rewrite E.
Qed.

Lemma modify_plug d f :
  forall fs n, lookup d fs = Some n -> modify d f fs = plug d (f n) fs.
Proof.
  unfold plug. induction d as [|c d IH]; intros fs n H.
  - cbn in *. now inversion H.
  - destruct fs as [sz data|w es]; [discriminate|]. cbn [lookup modify] in *.
    destruct (assoc c es) as [m|]; [|discriminate].
    now rewrite (IH m n H).
Qed.

Lemma lookup_plug d n' fs n :
  lookup d fs = Some n -> lookup d (plug d n' fs) = Some n'.
Proof. intros H. unfold plug. now rewrite FSFacts.lookup_modify, H. Qed.

Lemma plug_plug d a b fs : plug d b (plug d a fs) = plug d b fs.
Proof. unfold plug. now rewrite modify_modify. Qed.

Lemma put_below d q o fs :
  q <> [] -> put (d ++ q) o fs = modify d (put q o) fs.
Proof.
  intros Hq. unfold put.
  rewrite PruneFacts.dirname_app, PruneFacts.basename_app by assumption.
  apply FSFacts.modify_app.
Qed.

Lemma is_prefix_below d a b : is_prefix (d ++ a) (d ++ b) = is_prefix a b.
Proof.
  induction d as [|c d IH]; [reflexivity|].
  cbn [app is_prefix]. now rewrite String.eqb_refl.
Qed.

Lemma is_root_below d q : q <> [] -> is_root (d ++ q) = false.
Proof. destruct d; [destruct q; [congruence|reflexivity]|reflexivity]. Qed.

Lemma os_unlink_focus d q fs n :
  lookup d fs = Some n -> q <> [] ->
  os_unlink (d ++ q) fs =
  match os_unlink q n with
  | Ok n' => Ok (plug d n' fs)
  | Err e => Err e
  end.
Proof.
  intros Hn Hq. unfold os_unlink, dir_writable.
  rewrite PruneFacts.dirname_app by assumption.
  rewrite !FSFacts.lookup_app, Hn.
  destruct (lookup q n) as [x|]; [|reflexivity].
  destruct (lookup (dirname q) n) as [[|wd esd]|]; cbn [negb]; try reflexivity.
  destruct wd; cbn [negb]; [|reflexivity].
  destruct x; [|reflexivity].
  rewrite put_below by assumption. now rewrite (modify_plug d _ fs n Hn).
Qed.

Lemma os_rename_focus d src dst fs n :
  lookup d fs = Some n -> src <> [] -> dst <> [] -> src <> dst ->
  os_rename (d ++ src) (d ++ dst) fs =
  match os_rename src dst n with
  | Ok n' => Ok (plug d n' fs)
  | Err e => Err e
  end.
Proof.
  intros Hn Hs Hd Hne. unfold os_rename, dir_writable, path_eqb.
  rewrite !PruneFacts.dirname_app by assumption.
  rewrite !FSFacts.lookup_app, Hn, !is_prefix_below.
  rewrite !is_root_below by assumption.
  assert (Hr : is_root src = false) by (destruct src; [congruence|reflexivity]).
  assert (Hr' : is_root dst = false) by (destruct dst; [congruence|reflexivity]).
  rewrite Hr, Hr'. cbn [orb].
  destruct (lookup src n) as [x|]; [|reflexivity].
  destruct (lookup (dirname dst) n) as [[|wd esd]|]; try reflexivity.
  destruct (negb _ || negb wd); [reflexivity|].
  destruct (is_prefix src dst && is_prefix dst src) eqn:E.
  { exfalso. apply Hne. now apply FSFacts.path_eqb_eq. }
  destruct (is_prefix src dst); [reflexivity|].
  assert (Hput : put (d ++ dst) (Some x) (put (d ++ src) None fs)
                 = plug d (put dst (Some x) (put src None n)) fs).
  { rewrite !put_below by assumption.
    rewrite modify_modify.
    apply (modify_plug d (fun y => put dst (Some x) (put src None y)) fs n Hn). }
  rewrite Hput.
  destruct x, (lookup dst n) as [[|? [|]]|]; reflexivity.
Qed.

Lemma path_replace_app d q old new :
  Frame.marker_free d -> In old Frame.markers ->
  path_replace (d ++ q) old new = d ++ path_replace q old new.
Proof.
  intros Hfree Hold. unfold path_replace. rewrite map_app. f_equal.
  induction d as [|c d IH]; [reflexivity|]. cbn [map]. f_equal.
  - apply FrameProgram.replace_no_match;
      [now apply FrameProgram.markers_nonempty|].
    apply Hfree; [now left|assumption].
  - apply IH. intros c' old' Hc' Hold'. apply Hfree; [now right|assumption].
Qed.

Lemma path_replace_nonempty q old new : q <> [] -> path_replace q old new <> [].
Proof. destruct q; [congruence|discriminate]. Qed.

End TidyFacts.

(* ================================================================== *)
(** ** A renaming loop over a tidy tree *)
(* ================================================================== *)

Module LoopFacts.
Import FS Tidy TidyFacts Erase EraseFacts.

Lemma run_app step l1 l2 fs :
  run step (l1 ++ l2) fs =
  match run step l1 fs with
  | Ok fs' => run step l2 fs'
  | Err e => Err e
  end.
Proof.
  revert fs; induction l1 as [|p l1 IH]; intros fs; [reflexivity|].
  cbn [app run]. destruct (step p fs); [apply IH|reflexivity].
Qed.

Lemma glob_rel_endswith sfx n :
  Forall (fun q => q <> [] /\ Str.endswith (basename q) sfx = true)
    (glob_rel sfx n).
Proof.
  apply Forall_forall. intros q Hq. split.
  - pose proof (glob_rel_nonempty sfx n) as H. rewrite Forall_forall in H.
    now apply H.
  - now apply (FSFacts.glob_suffix_endswith [] sfx n).
Qed.

Lemma dir_name_free c : dir_name_ok c = true -> Frame.marker_free [c].
Proof.
  unfold dir_name_ok. rewrite !andb_true_iff. intros [[[H _] _] _].
  rewrite NameFacts.marker_free_name_spec in H.
  intros c' old [<-|[]] Hold. now apply H.
Qed.

Lemma dir_name_not_srt c sfx :
  dir_name_ok c = true -> Str.endswith sfx ".srt" = true ->
  Str.endswith c sfx = false.
Proof.
  unfold dir_name_ok. rewrite !andb_true_iff, !negb_true_iff.
  intros [[[_ H] _] _] Hs.
  destruct (Str.endswith c sfx) eqn:E; [|reflexivity].
  now rewrite (SuffixFacts.endswith_trans c sfx ".srt" E Hs) in H.
Qed.

Lemma srt_not_dir ts es k :
  listing_ok ts es -> Str.endswith k ".srt" = true ->
  forall w l, assoc k es <> Some (Dir w l).
Proof.
  intros [_ Hok] Hk w l H. destruct (Hok k _ H) as [He _]. cbn [entry_ok] in He.
  rewrite (dir_name_not_srt k ".srt" He eq_refl) in Hk. discriminate.
Qed.

Lemma assoc_mid_other k c a b l1 l2 :
  k <> c -> assoc k (l1 ++ (c, a) :: l2) = assoc k (l1 ++ (c, b) :: l2).
Proof.
  intros Hne. induction l1 as [|[j v] l1 IH]; cbn [app assoc].
  - apply not_eq_sym, String.eqb_neq in Hne. now rewrite Hne.
  - now rewrite IH.
Qed.

Lemma NoDup_names_filter (f : string * node -> bool) es :
  NoDup (map fst es) -> NoDup (map fst (filter f es)).
Proof.
  induction es as [|e es IH]; cbn [filter map]; intros H; [constructor|].
  inversion H as [|? ? Hn Hes]; subst.
  destruct (f e); [|now apply IH].
  cbn [map]. constructor; [|now apply IH].
  intros Hin. apply Hn. now apply (EraseProof.names_filter f).
Qed.

(** *** Turns that stay below the directory they are in *)

Lemma turned_refl sfx ts c es : listing_ok ts es -> turned sfx ts c es es.
Proof.
  intros H. split; [assumption|]. split; [intros; reflexivity|]. split; auto.
Qed.

Lemma turned_trans sfx ts c es1 es2 es3 :
  turned sfx ts c es1 es2 -> turned sfx ts c es2 es3 -> turned sfx ts c es1 es3.
Proof.
  intros (_ & Hd & Hk & Hc) (Hok & Hd' & Hk' & Hc'). split; [exact Hok|].
  split; [|split].
  - intros k w l. rewrite Hd'. apply Hd.
  - intros k Hne He. rewrite Hk' by assumption. now apply Hk.
  - auto.
Qed.

(** One entry of a listing bound anew, or removed. *)
Lemma turned_edit sfx ts c k o es :
  listing_ok ts es ->
  (forall w l, assoc k es <> Some (Dir w l)) ->
  (k = c /\ o = None) \/
  (Str.endswith k sfx = false /\ k <> c /\
   (o = None \/
    exists sz data, o = Some (File sz data) /\ single_marker k = true /\
                    forall t, In t ts -> Str.endswith k t = false)) ->
  turned sfx ts c es (set_entry k o es).
Proof.
  intros Hok Hnd Ho. split; [|split; [|split]].
  - apply listing_ok_set; [assumption|]. intros x ->.
    destruct Ho as [[_ Ho]|(_ & _ & [Ho|(sz & data & Ho & Hs & Ht)])];
      try discriminate.
    inversion Ho; subst. now split.
  - intros j w l. destruct (string_dec k j) as [<-|Hne].
    + rewrite FSFacts.assoc_set_same. split.
      * intros ->.
        destruct Ho as [[_ Ho]|(_ & _ & [Ho|(sz & data & Ho & _)])];
          discriminate.
      * intros H. now apply Hnd in H.
    + now rewrite FSFacts.assoc_set_other.
  - intros j Hj He. apply FSFacts.assoc_set_other.
    destruct Ho as [[-> _]|(Hk & _)]; [congruence|]. intros ->. congruence.
  - intros Hc. destruct Ho as [[-> ->]|(_ & Hne & _)].
    + apply FSFacts.assoc_set_same.
    + now rewrite FSFacts.assoc_set_other.
Qed.

Section Loop.
Variables (sfx : string) (ts : list string).
Variable step : path -> node -> result node.

Hypothesis sfx_srt : Str.endswith sfx ".srt" = true.

Hypothesis step_focus :
  forall d q fs n,
    Frame.marker_free d -> lookup d fs = Some n -> q <> [] ->
    Str.endswith (basename q) sfx = true ->
    step (d ++ q) fs =
    match step q n with
    | Ok n' => Ok (plug d n' fs)
    | Err e => Err e
    end.

Hypothesis step_entry :
  forall es c sz data,
    listing_ok ts es -> assoc c es = Some (File sz data) ->
    Str.endswith c sfx = true ->
    exists es',
      step [c] (Dir true es) = Ok (Dir true es') /\
      turned sfx ts c es es' /\ assoc c es' = None.

Let post (m m' : node) : Prop :=
  tidy (sfx :: ts) m' /\ is_file m' = is_file m.

Lemma run_in_child w l1 c l2 qs :
  ~ In c (map fst l1) -> ~ In c (map fst l2) -> Frame.marker_free [c] ->
  Forall (fun q => q <> [] /\ Str.endswith (basename q) sfx = true) qs ->
  forall mc,
    run step (map (cons c) qs) (Dir w (l1 ++ (c, mc) :: l2)) =
    match run step qs mc with
    | Ok mc' => Ok (Dir w (l1 ++ (c, mc') :: l2))
    | Err e => Err e
    end.
Proof.
  intros H1 H2 Hc Hqs. induction Hqs as [|q qs [Hq He] _ IH]; intros mc;
    [reflexivity|].
  cbn [map run]. change (c :: q) with ([c] ++ q).
  rewrite (step_focus [c] q _ mc Hc); [|cbn [lookup]|assumption|assumption].
  - destruct (step q mc) as [mc'|e]; [|reflexivity].
    unfold plug. cbn [modify]. rewrite PruneFacts.assoc_mid by assumption.
    rewrite PruneFacts.set_entry_mid by assumption. cbn [app]. apply IH.
  - now rewrite PruneFacts.assoc_mid.
Qed.

Lemma run_below root qs :
  Frame.marker_free root ->
  Forall (fun q => q <> [] /\ Str.endswith (basename q) sfx = true) qs ->
  forall fs n n',
    lookup root fs = Some n ->
    run step qs n = Ok n' ->
    exists fs', run step (map (app root) qs) fs = Ok fs' /\
                lookup root fs' = Some n'.
Proof.
  intros Hfree. induction 1 as [|q qs [Hq He] _ IH]; intros fs n n' Hn H.
  - cbn in *. inversion H; subst. eauto.
  - cbn [map run] in *. rewrite (step_focus root q fs n Hfree Hn Hq He).
    destruct (step q n) as [n1|e]; [|discriminate].
    apply (IH (plug root n1 fs) n1 n'); [|assumption].
    now apply (lookup_plug root n1 fs n).
Qed.

(** The files of one directory that the loop looks for, one after the
    other. *)
Lemma entries_turn :
  forall todo es,
    listing_ok ts es -> NoDup todo ->
    (forall c, In c todo ->
               Str.endswith c sfx = true /\
               exists sz data, assoc c es = Some (File sz data)) ->
    exists es',
      run step (map (fun c => [c]) todo) (Dir true es) = Ok (Dir true es') /\
      listing_ok ts es' /\
      (forall c, In c todo -> assoc c es' = None) /\
      (forall k w l, assoc k es' = Some (Dir w l) <-> assoc k es = Some (Dir w l)) /\
      (forall k, ~ In k todo -> Str.endswith k sfx = true ->
                 assoc k es' = assoc k es).
Proof.
  induction todo as [|c todo IH]; intros es Hok Hnd Htodo.
  - exists es. split; [reflexivity|]. split; [exact Hok|].
    split; [intros c []|]. split; [intros; reflexivity|auto].
  - inversion Hnd as [|? ? Hc Hnd']; subst.
    destruct (Htodo c (or_introl eq_refl)) as (He & sz & data & Hf).
    destruct (step_entry es c sz data Hok Hf He)
      as (es1 & Hrun & (Hok1 & Hd1 & Hs1 & _) & Hc1).
    destruct (IH es1 Hok1 Hnd') as (es' & Hrun' & Hok' & Hgone & Hd' & Hs').
    { intros k Hk. destruct (Htodo k (or_intror Hk)) as (Hek & szk & dk & Hfk).
      split; [assumption|]. exists szk, dk. rewrite Hs1; auto.
      intros ->. contradiction. }
    exists es'. cbn [map run]. rewrite Hrun.
    split; [exact Hrun'|]. split; [exact Hok'|]. split; [|split].
    + intros k [<-|Hk]; [|now apply Hgone]. rewrite Hs'; auto.
    + intros k w l. rewrite Hd'. apply Hd1.
    + intros k Hk Hek. cbn [In] in Hk.
      rewrite Hs'; [|tauto|assumption]. apply Hs1; [|assumption].
      intros ->. tauto.
Qed.

(** The subdirectories of one directory, one after the other. *)
Lemma children_turn w :
  forall todo es,
    NoDup (map fst es) -> NoDup (map fst todo) ->
    (forall c m, In (c, m) todo -> is_file m = false ->
                 assoc c es = Some m /\ Frame.marker_free [c] /\
                 exists m', run step (glob_rel sfx m) m = Ok m' /\ post m m') ->
    exists es',
      run step
        (flat_map (fun e => map (cons (fst e)) (glob_rel sfx (snd e))) todo)
        (Dir w es) = Ok (Dir w es') /\
      NoDup (map fst es') /\
      (forall k, (forall m, In (k, m) todo -> is_file m = true) ->
                 assoc k es' = assoc k es) /\
      (forall k m, In (k, m) todo -> is_file m = false ->
                   exists m', assoc k es' = Some m' /\ post m m').
Proof.
  induction todo as [|[c m] todo IH]; intros es Hnd Hndt Hch.
  - exists es. split; [reflexivity|]. split; [exact Hnd|].
    split; [auto|intros k m []].
  - cbn [map fst] in Hndt. inversion Hndt as [|? ? Hc Hndt']; subst.
    cbn [flat_map fst snd]. rewrite run_app.
    destruct m as [sz data|wm esm].
    + change (glob_rel sfx (File sz data)) with (@nil path). cbn [map run].
      destruct (IH es Hnd Hndt') as (es' & Hrun & Hnd' & Hsame & Hdone).
      { intros k mk Hk. apply Hch. now right. }
      exists es'. split; [exact Hrun|]. split; [exact Hnd'|]. split.
      * intros k Hk. apply Hsame. intros mk Hmk. apply Hk. now right.
      * intros k mk [Heq|Hk] Hd; [inversion Heq; subst; discriminate|].
        now apply Hdone.
    + destruct (Hch c (Dir wm esm) (or_introl eq_refl) eq_refl)
        as (Hc_es & Hfree & m' & Hrun_m & Hpost).
      destruct (assoc_split c _ es Hnd Hc_es) as (l1 & l2 & -> & H1 & H2).
      rewrite run_in_child by (auto using glob_rel_endswith).
      rewrite Hrun_m.
      destruct (IH (l1 ++ (c, m') :: l2)) as (es' & Hrun & Hnd' & Hsame & Hdone).
      { rewrite map_app in *. exact Hnd. }
      { exact Hndt'. }
      { intros k mk Hk Hd.
        destruct (Hch k mk (or_intror Hk) Hd) as (Hk_es & Hkfree & Hex).
        split; [|split; assumption].
        rewrite <- Hk_es. apply assoc_mid_other.
        intros ->. apply Hc. now apply (in_map fst) in Hk. }
      exists es'. split; [exact Hrun|]. split; [exact Hnd'|]. split.
      * intros k Hk.
        assert (Hne : k <> c).
        { intros ->. specialize (Hk _ (or_introl eq_refl)). discriminate. }
        rewrite Hsame.
        -- now apply assoc_mid_other.
        -- intros mk Hmk. apply Hk. now right.
      * intros k mk [Heq|Hk] Hd.
        -- inversion Heq; subst. exists m'. split; [|exact Hpost].
           rewrite Hsame.
           ++ now apply PruneFacts.assoc_mid.
           ++ intros mk Hmk. exfalso. apply Hc. now apply (in_map fst) in Hmk.
        -- now apply Hdone.
Qed.

(** The loop over the glob of a tidy tree returns, and leaves a tidy
    tree in which no name has the ending the loop looks for. *)
Lemma loop_tidy n :
  tidy ts n ->
  exists n', run step (glob_rel sfx n) n = Ok n' /\ post n n'.
Proof.
  induction n as [sz data|w es IH] using PruneFacts.node_ind'; intros Ht.
  - exists (File sz data). split; [reflexivity|]. split; [constructor|reflexivity].
  - pose proof Ht as Ht'.
    inversion Ht' as [|es0 Hnd Hok Hts Hsub]; subst. clear Ht'.
    pose proof (tidy_listing ts es Ht) as Hl.
    rewrite Forall_forall in Hok, Hts, Hsub, IH.
    set (todo := map fst (filter (fun e => Str.endswith (fst e) sfx) es)).
    assert (Htodo : forall c, In c todo <->
                              exists x, In (c, x) es /\ Str.endswith c sfx = true).
    { intros c. unfold todo. rewrite in_map_iff. split.
      - intros ([c0 x] & <- & Hin). apply filter_In in Hin as [Hin He].
        exists x. now split.
      - intros (x & Hin & He). exists (c, x). split; [reflexivity|].
        apply filter_In. now split. }
    destruct (entries_turn todo es Hl)
      as (es1 & Hrun1 & Hl1 & Hgone & Hdirs & Hkeep).
    { now apply NoDup_names_filter. }
    { intros c Hc. apply Htodo in Hc as (x & Hin & He). split; [exact He|].
      specialize (Hok _ Hin). cbn [fst snd] in Hok.
      destruct x as [sz data|wx lx].
      - exists sz, data. now apply KeptFacts.in_assoc.
      - cbn [entry_ok] in Hok.
        rewrite (dir_name_not_srt c sfx Hok sfx_srt) in He. discriminate. }
    destruct (children_turn true es es1 (proj1 Hl1) Hnd)
      as (es2 & Hrun2 & Hnd2 & Hsame & Hdone).
    { intros c m Hin Hd. destruct m as [|wm lm]; [discriminate|].
      split; [|split].
      - apply Hdirs. now apply KeptFacts.in_assoc.
      - apply dir_name_free. apply (Hok _ Hin).
      - apply (IH _ Hin). apply (Hsub _ Hin). }
    exists (Dir true es2). split.
    { rewrite glob_rel_dir, run_app.
      replace (map (fun e : string * node => [fst e])
                 (filter (fun e => Str.endswith (fst e) sfx) es))
        with (map (fun c : string => [c]) todo)
        by (unfold todo; now rewrite map_map).
      rewrite Hrun1. exact Hrun2. }
    split; [|reflexivity].
    assert (Hentry : forall k x,
               assoc k es2 = Some x ->
               entry_ok k x = true /\
               (forall t, In t (sfx :: ts) -> Str.endswith k t = false) /\
               tidy (sfx :: ts) x).
    { intros k x Hk.
      destruct (assoc k es) as [[szk dk|wk lk]|] eqn:Ek.
      2: { apply KeptFacts.assoc_in in Ek.
           destruct (Hdone k _ Ek eq_refl) as (m' & Hm' & Hpost & Hfile).
           rewrite Hk in Hm'. inversion Hm'; subst m'.
           pose proof (Hok _ Ek) as Hname. cbn [fst snd entry_ok] in Hname.
           split; [|split; [|exact Hpost]].
           - destruct x; [discriminate|exact Hname].
           - intros t [<-|Ht0]; [now apply dir_name_not_srt|].
             apply (Hts _ Ek t Ht0). }
      all: assert (Hfiles : forall m, In (k, m) es -> is_file m = true)
          by (intros m Hm; apply (KeptFacts.in_assoc k es m Hnd) in Hm;
              rewrite Ek in Hm; inversion Hm; reflexivity).
      all: rewrite (Hsame k Hfiles) in Hk.
      all: destruct Hl1 as [_ Hl1]; destruct (Hl1 k x Hk) as [Hname Hfree].
      all: (split; [exact Hname|split]).
      all: try (intros t [<-|Ht0]; [|now apply Hfree];
                destruct (Str.endswith k sfx) eqn:He; [|reflexivity];
                destruct (in_dec string_dec k todo) as [Hin|Hout];
                [rewrite (Hgone k Hin) in Hk; discriminate|];
                rewrite (Hkeep k Hout He) in Hk;
                exfalso; apply Hout, Htodo; exists x; split;
                [now apply KeptFacts.assoc_in|exact He]).
      all: destruct x as [szx dx|wx lx]; [constructor|].
      all: apply Hdirs in Hk; rewrite Ek in Hk; discriminate. }
    constructor; [exact Hnd2| | |]; apply Forall_forall; intros [k x] Hin;
      cbn [fst snd]; apply (KeptFacts.in_assoc k es2 x Hnd2) in Hin;
      destruct (Hentry k x Hin) as (H1 & H2 & H3); assumption.
Qed.

End Loop.

End LoopFacts.

(* ================================================================== *)
(** ** The two renaming loops on a tidy tree *)
(* ================================================================== *)

Module TurnFacts.
Import FS Tidy TidyFacts LoopFacts.

Lemma marker1_discovered lang_str :
  In lang_str lang_strs -> In (variant1_marker lang_str) discovery_markers.
Proof. intros [<-|[<-|[]]]; cbn; tauto. Qed.

Lemma lookup_plug_below d q n' fs n :
  lookup d fs = Some n -> lookup (d ++ q) (plug d n' fs) = lookup q n'.
Proof.
  intros H. now rewrite FSFacts.lookup_app, (lookup_plug d n' fs n H).
Qed.

(** A turn of the engine below a directory is the turn inside it. *)
Lemma forced_step_focus lang_str d q fs n :
  In lang_str lang_strs ->
  Frame.marker_free d -> lookup d fs = Some n -> q <> [] ->
  Str.endswith (basename q) (variant1_marker lang_str) = true ->
  forced_step lang_str (d ++ q) fs =
  match forced_step lang_str q n with
  | Ok n' => Ok (plug d n' fs)
  | Err e => Err e
  end.
Proof.
  intros Hl Hfree Hn Hq He.
  pose proof (FrameProgram.marker1_in lang_str Hl) as H1.
  pose proof (FrameProgram.marker2_in lang_str Hl) as H2.
  unfold forced_step, canonical_path, sibling_path, forced_path. cbv zeta.
  rewrite !path_replace_app by assumption.
  rewrite (os_rename_focus d q _ fs n Hn Hq);
    [|now apply path_replace_nonempty
     |apply (PathFacts.canonical_neq_orig lang_str q Hl He)].
  destruct (os_rename q _ n) as [n1|e]; [|reflexivity].
  pose proof (lookup_plug d n1 fs n Hn) as Hn1.
  unfold path_exists, stat_size.
  rewrite !(lookup_plug_below d _ n1 fs n Hn).
  destruct (lookup (path_replace q _ (variant2_marker lang_str)) n1) as [g|];
    [|reflexivity].
  destruct g as [fsz gd|wg lg];
    (destruct (lookup (path_replace q _ ".eng.srt") n1) as [[osz od|wo lo]|];
     [| |reflexivity]).
  all: match goal with
       | |- context [if ?b then _ else _] => destruct b
       end.
  all: try (rewrite (os_unlink_focus d _ _ n1 Hn1)
              by (now repeat apply path_replace_nonempty);
            destruct (os_unlink _ n1); [now rewrite plug_plug|reflexivity]).
  all: match goal with
       | |- context [if ?b then _ else _] => destruct b
       end; try reflexivity.
  all: rewrite (os_rename_focus d _ _ _ n1 Hn1);
    [destruct (os_rename _ _ n1); [now rewrite plug_plug|reflexivity]
    |now repeat apply path_replace_nonempty
    |now repeat apply path_replace_nonempty
    |apply (PathFacts.forced_neq_sibling lang_str q Hl He)].
Qed.

Lemma en_step_focus d q fs n :
  Frame.marker_free d -> lookup d fs = Some n -> q <> [] ->
  Str.endswith (basename q) ".en.srt" = true ->
  en_step (d ++ q) fs =
  match en_step q n with
  | Ok n' => Ok (plug d n' fs)
  | Err e => Err e
  end.
Proof.
  intros Hfree Hn Hq He. unfold en_step. cbv zeta.
  rewrite !path_replace_app by (assumption || (cbn; tauto)).
  unfold path_exists. rewrite !FSFacts.lookup_app, Hn.
  destruct (lookup (path_replace q ".en.srt" ".eng.srt") n).
  - now apply os_unlink_focus.
  - apply os_rename_focus; [assumption|assumption|now apply path_replace_nonempty|].
    apply not_eq_sym. apply PathFacts.path_replace_length_neq;
      [simpl; lia|simpl; lia|assumption].
Qed.

(** A turn of the engine on a file of a tidy directory. *)
Lemma forced_step_entry lang_str ts :
  In lang_str lang_strs ->
  (forall t, In t ts -> In t discovery_markers) ->
  forall es c sz data,
    listing_ok ts es -> assoc c es = Some (File sz data) ->
    Str.endswith c (variant1_marker lang_str) = true ->
    exists es',
      forced_step lang_str [c] (Dir true es) = Ok (Dir true es') /\
      turned (variant1_marker lang_str) ts c es es' /\ assoc c es' = None.
Proof.
  intros Hl Hts es c sz data Hok Hf He.
  pose proof (marker1_discovered lang_str Hl) as Hm1.
  destruct (proj2 Hok c _ Hf) as [Hsm _]. cbn [entry_ok] in Hsm.
  destruct (NameFacts.forced_names lang_str c Hl Hsm He)
    as (x & Hc & Hr1 & Hr2 & Hr3 & Hx).
  set (c1 := (x ++ ".eng.srt")%string) in *.
  set (c2 := (x ++ variant2_marker lang_str)%string) in *.
  set (c3 := (x ++ ".eng.forced.srt")%string) in *.
  assert (Hc_c1 : c <> c1 /\ c <> c2 /\ c <> c3 /\ c1 <> c2 /\ c1 <> c3 /\ c2 <> c3).
  { subst c c1 c2 c3. cbn in Hl. destruct Hl as [<-|[<-|[]]];
      repeat split; intros H; apply NameFacts.append_inj_l in H; discriminate. }
  destruct Hc_c1 as (N01 & N02 & N03 & N12 & N13 & N23).
  assert (Hsrt : Str.endswith c1 ".srt" = true /\ Str.endswith c2 ".srt" = true /\
                 Str.endswith c3 ".srt" = true).
  { subst c1 c2 c3. cbn in Hl. destruct Hl as [<-|[<-|[]]];
      repeat split; now apply NameFacts.ends_srt. }
  destruct Hsrt as (S1 & S2 & S3).
  assert (U1 : forall m, In m discovery_markers -> Str.endswith c1 m = false)
    by now apply NameFacts.eng_name_undiscovered.
  assert (U3 : forall m, In m discovery_markers -> Str.endswith c3 m = false)
    by now apply NameFacts.forced_name_undiscovered.
  assert (U2 : Str.endswith c2 (variant1_marker lang_str) = false).
  { apply (SuffixFacts.endswith_excludes _ (variant2_marker lang_str));
      [apply NameFacts.endswith_self| |];
      cbn in Hl; destruct Hl as [<-|[<-|[]]]; (reflexivity || (simpl; lia)). }
  (* the rename of the discovered file *)
  set (es0 := set_entry c None es).
  set (es1 := set_entry c1 (Some (File sz data)) es0).
  assert (T0 : turned (variant1_marker lang_str) ts c es es0).
  { apply turned_edit; [assumption| |now left].
    intros w l H. rewrite Hf in H. discriminate. }
  assert (T1 : turned (variant1_marker lang_str) ts c es0 es1).
  { apply turned_edit;
      [apply (proj1 T0)|apply (srt_not_dir ts es0 c1 (proj1 T0) S1)|right].
    split; [now apply U1|]. split; [congruence|]. right.
    exists sz, data. split; [reflexivity|].
    split; [now apply NameFacts.undiscovered_single|]. intros t Ht. auto. }
  assert (Hgone0 : assoc c es0 = None) by apply FSFacts.assoc_set_same.
  assert (T01 : turned (variant1_marker lang_str) ts c es es1)
    by (eapply turned_trans; eassumption).
  assert (Hgone1 : assoc c es1 = None) by now apply T1.
  assert (E2 : assoc c2 es1 = assoc c2 es).
  { unfold es1, es0. rewrite !FSFacts.assoc_set_other; congruence. }
  assert (E1 : assoc c1 es1 = Some (File sz data)) by apply FSFacts.assoc_set_same.
  assert (E3 : forall w l, assoc c3 es1 <> Some (Dir w l))
    by apply (srt_not_dir ts es1 c3 (proj1 T1) S3).
  unfold forced_step, canonical_path, sibling_path, forced_path, path_replace.
  cbv zeta. cbn [map]. rewrite Hr1, Hr2, Hr3. fold c1 c2 c3.
  rewrite (os_rename_entry c c1 sz data es N01 Hf)
    by apply (srt_not_dir ts es c1 Hok S1).
  fold es0 es1. unfold path_exists, stat_size. cbn [lookup].
  rewrite E2, E1.
  destruct (assoc c2 es) as [[fsz gd|wg lg]|] eqn:Eg.
  - destruct (sz <=? fsz)%Z.
    + rewrite (os_unlink_entry c2 fsz gd es1 E2).
      exists (set_entry c2 None es1). split; [reflexivity|].
      assert (T2 : turned (variant1_marker lang_str) ts c es1 (set_entry c2 None es1)).
      { apply turned_edit; [apply (proj1 T1)| |right].
        - intros w l H. rewrite E2 in H. discriminate.
        - split; [exact U2|]. split; [congruence|now left]. }
      split; [eapply turned_trans; eassumption|now apply T2].
    + destruct (PyFloat.gt_times_0_4 fsz sz).
      * exists es1. split; [reflexivity|]. now split.
      * set (es2 := set_entry c2 None es1).
        assert (T2 : turned (variant1_marker lang_str) ts c es1 es2).
        { apply turned_edit; [apply (proj1 T1)| |right].
          - intros w l H. rewrite E2 in H. discriminate.
          - split; [exact U2|]. split; [congruence|now left]. }
        rewrite (os_rename_entry c2 c3 fsz gd es1 N23 E2 E3). fold es2.
        exists (set_entry c3 (Some (File fsz gd)) es2). split; [reflexivity|].
        assert (T3 : turned (variant1_marker lang_str) ts c es2
                       (set_entry c3 (Some (File fsz gd)) es2)).
        { apply turned_edit;
            [apply (proj1 T2)|apply (srt_not_dir ts es2 c3 (proj1 T2) S3)|right].
          split; [now apply U3|]. split; [congruence|]. right.
          exists fsz, gd. split; [reflexivity|].
          split; [now apply NameFacts.undiscovered_single|]. intros t Ht. auto. }
        split; [eapply turned_trans; [exact T01|];
                eapply turned_trans; eassumption|].
        apply T3. now apply T2.
  - exfalso. revert E2. apply (srt_not_dir ts es1 c2 (proj1 T1) S2).
  - exists es1. split; [reflexivity|]. now split.
Qed.

(** A turn of the language-tag pass on a file of a tidy directory in
    which no name ends in [.1.en.srt] any more. *)
Lemma en_step_entry ts :
  In ".1.en.srt" ts ->
  (forall t, In t ts -> In t discovery_markers) ->
  forall es c sz data,
    listing_ok ts es -> assoc c es = Some (File sz data) ->
    Str.endswith c ".en.srt" = true ->
    exists es',
      en_step [c] (Dir true es) = Ok (Dir true es') /\
      turned ".en.srt" ts c es es' /\ assoc c es' = None.
Proof.
  intros H1 Hts es c sz data Hok Hf He.
  destruct (proj2 Hok c _ Hf) as [Hsm Hfree]. cbn [entry_ok] in Hsm.
  destruct (NameFacts.en_names c Hsm He (Hfree _ H1)) as (x & Hc & Hr & Hx).
  set (c1 := (x ++ ".eng.srt")%string) in *.
  assert (N01 : c <> c1).
  { subst c c1. intros H. apply NameFacts.append_inj_l in H. discriminate. }
  assert (S1 : Str.endswith c1 ".srt" = true) by now apply NameFacts.ends_srt.
  assert (U1 : forall m, In m discovery_markers -> Str.endswith c1 m = false)
    by now apply NameFacts.eng_name_undiscovered.
  set (es0 := set_entry c None es).
  assert (T0 : turned ".en.srt" ts c es es0).
  { apply turned_edit; [assumption| |now left].
    intros w l H. rewrite Hf in H. discriminate. }
  assert (Hgone0 : assoc c es0 = None) by apply FSFacts.assoc_set_same.
  unfold en_step, path_replace. cbv zeta. cbn [map]. rewrite Hr. fold c1.
  unfold path_exists. cbn [lookup].
  destruct (assoc c1 es) as [g|] eqn:Eg.
  - rewrite (os_unlink_entry c sz data es Hf). fold es0.
    exists es0. split; [reflexivity|]. now split.
  - rewrite (os_rename_entry c c1 sz data es N01 Hf)
      by (intros w l H; rewrite Eg in H; discriminate).
    fold es0. exists (set_entry c1 (Some (File sz data)) es0).
    split; [reflexivity|].
    assert (T1 : turned ".en.srt" ts c es0 (set_entry c1 (Some (File sz data)) es0)).
    { apply turned_edit;
        [apply (proj1 T0)|apply (srt_not_dir ts es0 c1 (proj1 T0) S1)|right].
      split; [apply U1; cbn; tauto|]. split; [congruence|]. right.
      exists sz, data. split; [reflexivity|].
      split; [now apply NameFacts.undiscovered_single|]. intros t Ht. auto. }
    split; [eapply turned_trans; eassumption|now apply T1].
Qed.

(** *** The loops of the passes are the loops on the tree *)

Lemma forced_loop_run lang_str ps :
  forall s fs',
    run (forced_step lang_str) ps (tree s) = Ok fs' ->
    exists lg,
      for_each (rename_forced_subs_body lang_str) ps s
      = Return tt (mkState fs' lg).
Proof.
  induction ps as [|p ps IH]; intros s fs' H.
  - cbn in H. inversion H; subst. exists (logs s). now destruct s.
  - cbn [run] in H. cbn [for_each]. unfold bind.
    rewrite EngineFacts.body_run. cbv zeta.
    unfold forced_step in H. cbv zeta in H.
    destruct (os_rename p _ (tree s)) as [fs1|e]; [|discriminate].
    destruct (path_exists _ fs1); [|now apply IH].
    destruct (stat_size (sibling_path lang_str p) fs1) as [fsz|e]; [|discriminate].
    destruct (stat_size (canonical_path lang_str p) fs1) as [osz|e]; [|discriminate].
    destruct (osz <=? fsz)%Z.
    + destruct (os_unlink _ fs1) as [fs2|e]; [|discriminate]. now apply IH.
    + destruct (PyFloat.gt_times_0_4 fsz osz); [now apply IH|].
      destruct (os_rename _ _ fs1) as [fs2|e]; [|discriminate]. now apply IH.
Qed.

Lemma en_loop_run ps :
  forall s fs',
    run en_step ps (tree s) = Ok fs' ->
    exists lg,
      for_each rename_en_to_eng_subs_body ps s = Return tt (mkState fs' lg).
Proof.
  induction ps as [|p ps IH]; intros s fs' H.
  - cbn in H. inversion H; subst. exists (logs s). now destruct s.
  - cbn [run] in H. cbn [for_each]. unfold bind.
    rewrite en_body_run. cbv zeta. unfold en_step in H. cbv zeta in H.
    destruct (path_exists _ (tree s)).
    + destruct (os_unlink p (tree s)) as [fs1|e]; [|discriminate]. now apply IH.
    + destruct (os_rename p _ (tree s)) as [fs1|e]; [|discriminate]. now apply IH.
Qed.

End TurnFacts.

(* ================================================================== *)
(** ** A run on a tidy tree, and the run after it *)
(* ================================================================== *)

Module RestFacts.
Import FS Prune Erase Tidy TidyFacts LoopFacts.

Lemma tidy_wf ts n : tidy ts n -> wf n.
Proof.
  induction n as [sz data|w es IH] using PruneFacts.node_ind'; intros H;
    [constructor|].
  inversion H as [|? Hnd _ _ Hsub]; subst. constructor; [assumption|].
  rewrite Forall_forall in *. auto.
Qed.

Lemma tidy_all_writable ts n : tidy ts n -> all_writable n.
Proof.
  induction n as [sz data|w es IH] using PruneFacts.node_ind'; intros H;
    [constructor|].
  inversion H as [|? _ _ _ Hsub]; subst. constructor.
  rewrite Forall_forall in *. auto.
Qed.

Lemma dir_name_not_meta c sfx :
  sfx = ".nfo" \/ sfx = ".txt" ->
  dir_name_ok c = true -> Str.endswith c sfx = false.
Proof.
  unfold dir_name_ok. rewrite !andb_true_iff, !negb_true_iff.
  intros [->| ->] [[_ H1] H2]; assumption.
Qed.

Lemma tidy_files_only ts sfx n :
  sfx = ".nfo" \/ sfx = ".txt" -> tidy ts n -> files_only sfx n.
Proof.
  intros Hs.
  induction n as [sz data|w es IH] using PruneFacts.node_ind'; intros H;
    [constructor|].
  inversion H as [|? _ Hok _ Hsub]; subst.
  rewrite Forall_forall in *. constructor; apply Forall_forall; intros e He.
  - auto.
  - intros Hend. specialize (Hok e He). destruct (snd e); [reflexivity|].
    cbn [entry_ok] in Hok.
    rewrite (dir_name_not_meta _ sfx Hs Hok) in Hend. discriminate.
Qed.

Lemma entry_ok_kind c x y : is_file x = is_file y -> entry_ok c x = entry_ok c y.
Proof. destruct x, y; cbn; congruence. Qed.

(** A pass that keeps some entries of every listing, under their names,
    keeps the names apart. *)
Lemma NoDup_names_flat_map (g : string * node -> list (string * node)) es :
  (forall e, g e = [] \/ exists x, g e = [(fst e, x)]) ->
  NoDup (map fst es) -> NoDup (map fst (flat_map g es)).
Proof.
  intros Hg. induction es as [|e es IH]; cbn [flat_map map]; intros H;
    [constructor|].
  inversion H as [|? ? Hn Hes]; subst.
  destruct (Hg e) as [->|[x ->]]; [now apply IH|].
  cbn [app map fst]. constructor; [|now apply IH].
  intros Hin. apply Hn. apply in_map_iff in Hin as (e' & He' & Hin).
  apply in_flat_map in Hin as (e0 & Hin0 & Hin).
  destruct (Hg e0) as [H0|[y H0]]; rewrite H0 in Hin; [destruct Hin|].
  destruct Hin as [<-|[]]. cbn [fst] in He'. rewrite <- He'.
  now apply in_map.
Qed.

Lemma erase_tidy sfx ts n :
  sfx = ".nfo" \/ sfx = ".txt" -> tidy ts n -> tidy (sfx :: ts) (erase sfx n).
Proof.
  intros Hs.
  induction n as [sz data|w es IH] using PruneFacts.node_ind'; intros H;
    [constructor|].
  inversion H as [|? Hnd Hok Hts Hsub]; subst.
  rewrite Forall_forall in *. cbn [erase].
  assert (Hin : forall e', In e' (flat_map
                   (fun e => if erased sfx e then []
                             else [(fst e, erase sfx (snd e))]) es) ->
                exists e, In e es /\ erased sfx e = false /\
                          e' = (fst e, erase sfx (snd e))).
  { intros e' He'. apply in_flat_map in He' as (e & He & He').
    exists e. destruct (erased sfx e); [destruct He'|].
    destruct He' as [<-|[]]. auto. }
  constructor.
  - apply NoDup_names_flat_map; [|assumption].
    intros e. destruct (erased sfx e); [now left|right; eauto].
  - apply Forall_forall. intros e' He'.
    destruct (Hin e' He') as (e & He & _ & ->). cbn [fst snd].
    rewrite (entry_ok_kind _ _ (snd e)); [now apply Hok|].
    apply EraseProof.is_file_erase.
  - apply Forall_forall. intros e' He'.
    destruct (Hin e' He') as (e & He & Her & ->). cbn [fst snd].
    intros t [<-|Ht]; [|now apply (Hts e He)].
    unfold erased in Her. specialize (Hok e He).
    destruct (snd e); cbn [is_file entry_ok] in *.
    + now rewrite andb_true_r in Her.
    + now apply dir_name_not_meta.
  - apply Forall_forall. intros e' He'.
    destruct (Hin e' He') as (e & He & _ & ->). cbn [fst snd]. auto.
Qed.

Lemma is_file_prune m : is_file (prune m) = is_file m.
Proof. now destruct m. Qed.

Lemma prune_tidy ts n : tidy ts n -> tidy ts (prune n).
Proof.
  induction n as [sz data|w es IH] using PruneFacts.node_ind'; intros H;
    [constructor|].
  inversion H as [|? Hnd Hok Hts Hsub]; subst.
  rewrite Forall_forall in *. cbn [prune].
  assert (Hin : forall e', In e' (flat_map
                   (fun e => keep_entry true (fst e) (prune (snd e))) es) ->
                exists e, In e es /\ e' = (fst e, prune (snd e))).
  { intros e' He'. apply in_flat_map in He' as (e & He & He').
    exists e. unfold keep_entry in He'.
    destruct (true && is_empty_dir (prune (snd e))); [destruct He'|].
    destruct He' as [<-|[]]. auto. }
  constructor.
  - apply NoDup_names_flat_map; [|assumption].
    intros e. unfold keep_entry.
    destruct (true && is_empty_dir (prune (snd e))); [now left|right; eauto].
  - apply Forall_forall. intros e' He'.
    destruct (Hin e' He') as (e & He & ->). cbn [fst snd].
    rewrite (entry_ok_kind _ _ (snd e)); [now apply Hok|].
    apply is_file_prune.
  - apply Forall_forall. intros e' He'.
    destruct (Hin e' He') as (e & He & ->). cbn [fst snd]. now apply (Hts e He).
  - apply Forall_forall. intros e' He'.
    destruct (Hin e' He') as (e & He & ->). cbn [fst snd]. auto.
Qed.

Lemma flat_map_nil {A B} (f : A -> list B) l :
  (forall e, In e l -> f e = []) -> flat_map f l = [].
Proof.
  induction l as [|e l IH]; intros H; [reflexivity|].
  cbn [flat_map]. rewrite (H e (or_introl eq_refl)). apply IH.
  intros e' He'. apply H. now right.
Qed.

(** In a tidy tree the glob for an ending that no name has is empty. *)
Lemma tidy_glob_empty ts sfx n : In sfx ts -> tidy ts n -> glob_rel sfx n = [].
Proof.
  intros Hs.
  induction n as [sz data|w es IH] using PruneFacts.node_ind'; intros H;
    [reflexivity|].
  inversion H as [|? _ _ Hts Hsub]; subst.
  rewrite EraseFacts.glob_rel_dir.
  rewrite Forall_forall in *.
  rewrite (filter_ext_in _ (fun _ => false)), filter_false.
  - cbn [map app]. apply flat_map_nil. intros e He.
    now rewrite (IH e He (Hsub e He)).
  - intros e He. apply (Hts e He sfx Hs).
Qed.

(** *** The passes *)

Section Passes.
Variable root : path.
Hypothesis Hfree : Frame.marker_free root.

Lemma forced_loop_tidy lang_str ts s n :
  In lang_str lang_strs ->
  (forall t, In t ts -> In t discovery_markers) ->
  lookup root (tree s) = Some n -> tidy ts n ->
  exists fs' lg n',
    for_each (rename_forced_subs_body lang_str)
      (glob_suffix root (variant1_marker lang_str) (tree s)) s
    = Return tt (mkState fs' lg) /\
    lookup root fs' = Some n' /\
    tidy (variant1_marker lang_str :: ts) n' /\ is_file n' = is_file n.
Proof.
  intros Hl Hts Hn Ht.
  assert (Hsrt : Str.endswith (variant1_marker lang_str) ".srt" = true)
    by (cbn in Hl; destruct Hl as [<-|[<-|[]]]; reflexivity).
  pose proof (fun d q fs m => TurnFacts.forced_step_focus lang_str d q fs m Hl)
    as Hfocus.
  destruct (loop_tidy _ ts _ Hsrt Hfocus
              (TurnFacts.forced_step_entry lang_str ts Hl Hts) n Ht)
    as (n' & Hrun & Ht' & Hk).
  destruct (run_below _ _ Hfocus root _ Hfree
              (glob_rel_endswith _ n) (tree s) n n' Hn Hrun)
    as (fs' & Hrun' & Hn').
  rewrite (EraseFacts.glob_suffix_rel root _ _ n Hn).
  destruct (TurnFacts.forced_loop_run lang_str _ s fs' Hrun') as [lg Hlg].
  exists fs', lg, n'. auto.
Qed.

Lemma rename_forced_subs_tidy s n :
  lookup root (tree s) = Some n -> tidy [] n ->
  exists fs' lg n',
    rename_forced_subs root s = Return tt (mkState fs' lg) /\
    lookup root fs' = Some n' /\
    tidy [".1.eng.srt"; ".1.en.srt"] n' /\ is_file n' = is_file n.
Proof.
  intros Hn Ht.
  unfold rename_forced_subs, lang_strs.
  unfold bind at 1. unfold logger_info at 1, logger_log.
  cbn [level_no logger_level Nat.leb for_each].
  set (s0 := mkState (tree s) _).
  destruct (forced_loop_tidy "en" [] s0 n) as (fs1 & lg1 & n1 & Hrun1 & Hn1 & Ht1 & Hk1);
    [cbn; tauto|intros t []|exact Hn|exact Ht|].
  destruct (forced_loop_tidy "eng" [".1.en.srt"] (mkState fs1 lg1) n1)
    as (fs2 & lg2 & n2 & Hrun2 & Hn2 & Ht2 & Hk2);
    [cbn; tauto|intros t [<-|[]]; cbn; tauto|exact Hn1|exact Ht1|].
  unfold bind at 1. unfold bind at 1. unfold glob at 1.
  rewrite Hrun1.
  unfold bind at 1. unfold bind at 1. unfold glob at 1.
  cbn [tree] in Hrun2 |- *. rewrite Hrun2.
  exists fs2, lg2, n2. split; [reflexivity|]. split; [exact Hn2|].
  split; [exact Ht2|congruence].
Qed.

Lemma rename_en_to_eng_subs_tidy s n :
  lookup root (tree s) = Some n -> tidy [".1.eng.srt"; ".1.en.srt"] n ->
  exists fs' lg n',
    rename_en_to_eng_subs root s = Return tt (mkState fs' lg) /\
    lookup root fs' = Some n' /\
    tidy [".en.srt"; ".1.eng.srt"; ".1.en.srt"] n' /\ is_file n' = is_file n.
Proof.
  intros Hn Ht.
  assert (Hts : forall t, In t [".1.eng.srt"; ".1.en.srt"] -> In t discovery_markers)
    by (intros t [<-|[<-|[]]]; cbn; tauto).
  destruct (loop_tidy ".en.srt" _ _ eq_refl TurnFacts.en_step_focus
              (TurnFacts.en_step_entry [".1.eng.srt"; ".1.en.srt"]
                 (or_intror (or_introl eq_refl)) Hts) n Ht)
    as (n' & Hrun & Ht' & Hk).
  unfold rename_en_to_eng_subs.
  unfold bind at 1. unfold logger_info at 1, logger_log.
  cbn [level_no logger_level Nat.leb].
  set (s0 := mkState (tree s) _).
  destruct (run_below _ _ TurnFacts.en_step_focus root _ Hfree
              (glob_rel_endswith _ n) (tree s0) n n' Hn Hrun)
    as (fs' & Hrun' & Hn').
  destruct (TurnFacts.en_loop_run _ s0 fs' Hrun') as [lg Hlg].
  unfold bind at 1. unfold glob at 1.
  rewrite (EraseFacts.glob_suffix_rel root _ _ n Hn), Hlg.
  exists fs', lg, n'. auto.
Qed.

Lemma delete_nfo_and_txt_files_tidy ts s n :
  lookup root (tree s) = Some n -> tidy ts n ->
  exists fs' lg n',
    delete_nfo_and_txt_files root s = Return tt (mkState fs' lg) /\
    lookup root fs' = Some n' /\
    tidy (".txt" :: ".nfo" :: ts) n' /\ is_file n' = is_file n.
Proof.
  intros Hn Ht.
  unfold delete_nfo_and_txt_files.
  unfold bind at 1. unfold logger_info at 1, logger_log.
  cbn [level_no logger_level Nat.leb].
  set (s0 := mkState (tree s) _).
  destruct (EraseProof.delete_loop ".nfo" root s0 n Hn (tidy_wf _ _ Ht)
              (tidy_all_writable _ _ Ht)
              (tidy_files_only _ _ _ (or_introl eq_refl) Ht))
    as (fs1 & Hrun1 & Hn1).
  pose proof (erase_tidy ".nfo" ts n (or_introl eq_refl) Ht) as Ht1.
  destruct (EraseProof.delete_loop ".txt" root (mkState fs1 (logs s0)) _ Hn1
              (tidy_wf _ _ Ht1) (tidy_all_writable _ _ Ht1)
              (tidy_files_only _ _ _ (or_intror eq_refl) Ht1))
    as (fs2 & Hrun2 & Hn2).
  unfold bind at 1. unfold glob at 1.
  unfold bind at 1. rewrite Hrun1.
  unfold bind at 1. unfold glob at 1.
  cbn [tree] in Hrun2 |- *. rewrite Hrun2.
  eexists. eexists. eexists. split; [reflexivity|]. split; [exact Hn2|].
  split; [now apply erase_tidy; [right|]|].
  now rewrite !EraseProof.is_file_erase.
Qed.

End Passes.

End RestFacts.

(* ================================================================== *)
(** ** Idempotence: claim C6 *)
(* ================================================================== *)

Section Idempotent.
Import FS Tidy.

(** Outside the tidy trees the first run need not return, and then it
    leaves files that its patterns still match.  A marker in the name
    of a directory sends the rename into a directory that is not there;
    a directory named like a subtitle file stands where the engine
    wants to put a file; in a directory that may not be written
    nothing can be unlinked; a directory named like a metadata file
    cannot be unlinked. *)
Lemma untidy_runs_end_with_an_error :
  (exists s', main ["m"] marked_directory_state = Raise ENOENT s' /\
              glob_suffix ["m"] ".1.en.srt" (tree s') <> []) /\
  (exists s', main ["m"] subtitle_directory_state = Raise EISDIR s' /\
              glob_suffix ["m"] ".1.en.srt" (tree s') <> []) /\
  (exists s', main ["m"] read_only_metadata_state = Raise EACCES s' /\
              glob_suffix ["m"] ".nfo" (tree s') <> []) /\
  (exists s', main ["m"] nfo_directory_state = Raise EISDIR s' /\
              glob_suffix ["m"] ".txt" (tree s') <> []).
Proof.
  repeat split; eexists; (split; [vm_compute; reflexivity|]);
    vm_compute; discriminate.
Qed.

(** C6, amended: running the pipeline twice in succession on a tidy
    content directory changes nothing the second time.  Tidy means:
    every directory may be written and has a name without a marker that
    does not end in [.srt], [.nfo] or [.txt], and no file name carries
    a marker twice; the path of the content directory holds no marker
    either.  The first run returns; after it no discovery pattern of
    any stage matches and no empty directory lies below the content
    directory; the second run returns and leaves the tree as the first
    run left it. *)
Theorem C6_second_run_changes_nothing content_dir s w es :
  lookup content_dir (tree s) = Some (Dir w es) ->
  Frame.marker_free content_dir ->
  tidy [] (Dir w es) ->
  exists s1 s2,
    main content_dir s = Return tt s1 /\
    nothing_discovered content_dir (tree s1) /\
    no_empty_directory_below content_dir (tree s1) /\
    main content_dir s1 = Return tt s2 /\
    tree s2 = tree s1.
Proof.
  intros Hn Hfree Ht.
  destruct (RestFacts.rename_forced_subs_tidy content_dir Hfree
              (main_logged content_dir s) _ Hn Ht)
    as (fs1 & lg1 & n1 & Hrun1 & Hn1 & Ht1 & Hk1).
  destruct (RestFacts.rename_en_to_eng_subs_tidy content_dir Hfree
              (mkState fs1 lg1) n1 Hn1 Ht1)
    as (fs2 & lg2 & n2 & Hrun2 & Hn2 & Ht2 & Hk2).
  destruct (RestFacts.delete_nfo_and_txt_files_tidy content_dir _
              (mkState fs2 lg2) n2 Hn2 Ht2)
    as (fs3 & lg3 & n3 & Hrun3 & Hn3 & Ht3 & Hk3).
  destruct n3 as [sz3 d3|w3 es3].
  { rewrite Hk2, Hk1 in Hk3. discriminate. }
  destruct (PruneFacts.delete_empty_directories_prune content_dir
              (mkState fs3 lg3) w3 es3 Hn3 (RestFacts.tidy_wf _ _ Ht3))
    as (s4 & Hrun4 & Hn4).
  assert (Hfirst : main content_dir s = Return tt s4).
  { rewrite main_run, Hrun1, Hrun2, Hrun3. exact Hrun4. }
  assert (Hnd : nothing_discovered content_dir (tree s4)).
  { intros sfx Hin.
    rewrite (EraseFacts.glob_suffix_rel _ sfx _ _ Hn4).
    rewrite (RestFacts.tidy_glob_empty _ sfx _) with (2 := RestFacts.prune_tidy _ _ Ht3);
      [reflexivity|].
    cbn in Hin. destruct Hin as [<-|[<-|[<-|[<-|[<-|[]]]]]]; cbn; tauto. }
  assert (Hno : no_empty_directory_below content_dir (tree s4)).
  { intros q w' Hq. rewrite FSFacts.lookup_app, Hn4.
    apply PruneFacts.prune_no_empty_below; [|assumption].
    apply (RestFacts.tidy_all_writable _ _ Ht3). }
  destruct (main_idle content_dir s4 Hnd Hno) as (s5 & Hrun5 & Htree).
  exists s4, s5. auto.
Qed.

Lemma C6_second_run_changes_nothing_witness :
  exists s1 s2,
    main ["m"] mixed_state = Return tt s1 /\
    nothing_discovered ["m"] (tree s1) /\
    no_empty_directory_below ["m"] (tree s1) /\
    main ["m"] s1 = Return tt s2 /\
    tree s2 = tree s1.
Proof.
  apply (C6_second_run_changes_nothing ["m"] mixed_state true
           [("a.1.en.srt", File 1000 "original");
            ("a.2.en.srt", File 300 "forced");
            ("b.1.eng.srt", File 1000 "original");
            ("b.2.eng.srt", File 1000 "copy");
            ("c.en.srt", File 10 "subs");
            ("d.en.srt", File 10 "old");
            ("d.eng.srt", File 12 "new");
            ("movie.mkv", File 9 "film");
            ("movie.nfo", File 2 "info");
            ("season",
             Dir true [("e1.1.en.srt", File 1000 "original");
                       ("e1.2.en.srt", File 700 "unclear");
                       ("e1.mkv", File 9 "film");
                       ("notes.txt", File 1 "text")]);
            ("extras", Dir true [("readme.txt", File 1 "text");
                                 ("old", Dir true [])])]
           eq_refl).
  - intros c old [<-|[]] Hold. cbn in Hold.
    destruct Hold as [<-|[<-|[<-|[<-|[<-|[]]]]]]; reflexivity.
  - tidy_tac.
Defined.

End Idempotent.

(* ================================================================== *)
(** ** Errors outside the pruning pass *)
(* ================================================================== *)

Section Surfacing.
Import FS.



End Surfacing.
